(** * Batch stock analysis: retry, quota circuit breaking and mail failover

    A shallow embedding of the control flow of
    [scripts/batch_stock_llm_analyzer.py]:

    - the keyword classifiers [_is_rate_limit_error] and
      [_is_quota_exceeded_error];
    - [TradingAgentsAnalyzer.analyze_stock], as far as the orchestrator
      sees it;
    - [BatchStockLLMAnalyzer._analyze_single_stock], [_analyze_with_retry],
      [run_batch_analysis], [_generate_summary] and [_save_results];
    - [EmailSender.__init__] and [EmailSender.send_email].

    Conventions.  Python [int]s are [Z]; [str] values are [string]s of bytes
    (UTF-8 for the Chinese literals), and [str.lower] acts on the ASCII
    letters, which is all the ASCII keyword tables can observe.  Numbers that
    may be floats in the JSON documents (volatility, prices) are rationals.
    Wall-clock readings ([datetime.now], [time.time]) and logging are not
    part of the model; [time.sleep] is: it advances a clock held in the
    state.  What the file system and the mail system answer to
    [_save_results] is a parameter.  An exception is represented by its
    [str(e)], which is all the [except Exception as e] handlers of the
    orchestrator look at; the texts of the interpreter's own exceptions are
    those of CPython 3.11. *)

From Stdlib Require Import ZArith List Bool String Ascii Lia QArith DecimalString.
Import ListNotations.

Local Open Scope string_scope.
Local Open Scope Z_scope.

(** ** Python text primitives *)

Module Py.

(** [c.lower()] on one ASCII character. *)
Definition lower_ascii (c : ascii) : ascii :=
  let n := nat_of_ascii c in
  if (Nat.leb 65 n && Nat.leb n 90)%bool then ascii_of_nat (n + 32) else c.

(** [c.upper()] on one ASCII character. *)
Definition upper_ascii (c : ascii) : ascii :=
  let n := nat_of_ascii c in
  if (Nat.leb 97 n && Nat.leb n 122)%bool then ascii_of_nat (n - 32) else c.

Fixpoint map_string (f : ascii -> ascii) (s : string) : string :=
  match s with
  | EmptyString => EmptyString
  | String c s' => String (f c) (map_string f s')
  end.

Definition lower : string -> string := map_string lower_ascii.
Definition upper : string -> string := map_string upper_ascii.

(** [needle in hay] on strings. *)
Fixpoint str_in (needle hay : string) : bool :=
  String.prefix needle hay
  || match hay with
     | EmptyString => false
     | String _ hay' => str_in needle hay'
     end.

(** [any(p(x) for x in l)] *)
Definition any {A} (p : A -> bool) (l : list A) : bool := existsb p l.

(** [str(n)] / [f"{n}"] for an [int]. *)
Definition str_of_int (z : Z) : string := NilZero.string_of_int (Z.to_int z).

(** [len(l)] *)
Definition len {A} (l : list A) : Z := Z.of_nat (List.length l).

(** A slice bound brought into [0 .. len l]: a negative index counts
    from the end, and everything is clipped to the list. *)
Definition clip {A} (l : list A) (i : Z) : nat :=
  if i <? 0 then Z.to_nat (Z.max 0 (len l + i))
  else Z.to_nat (Z.min i (len l)).

(** [l[i:]] *)
Definition slice_from {A} (l : list A) (i : Z) : list A :=
  skipn (clip l i) l.

(** [l[i:j]] *)
Definition slice {A} (l : list A) (i j : Z) : list A :=
  firstn (clip l j - clip l i)%nat (skipn (clip l i) l).

(** The elements of [range(0, stop, step)] for a non-zero [step]. *)
Definition range_by (stop step : Z) : list Z :=
  let count :=
    if 0 <? step then Z.max 0 ((stop + step - 1) / step)
    else Z.max 0 ((- stop - step - 1) / (- step)) in
  map (fun k => Z.of_nat k * step) (seq 0 (Z.to_nat count)).

(** Truthiness of an [Optional[str]]: [None] and the empty string are
    false. *)
Definition truthy (o : option string) : bool :=
  match o with
  | None => false
  | Some EmptyString => false
  | Some (String _ _) => true
  end.

(** [f"{o}"] for an [Optional[str]]. *)
Definition fmt_opt (o : option string) : string :=
  match o with
  | None => "None"
  | Some s => s
  end.

End Py.

(** ** ErrorClassifier: the two keyword tables *)

Definition rate_limit_indicators : list string :=
  [ "rate limit"; "rate_limit"; "too many requests"; "429";
    "quota exceeded"; "quota_exceeded"; "throttled";
    "api limit"; "api_limit"; "request limit" ].

Definition quota_exceeded_indicators : list string :=
  [ "quota exceeded"; "quota_exceeded"; "exceeded your current quota";
    "limit: 200"; "free_tier_requests" ].

Definition _is_rate_limit_error (error_msg : string) : bool :=
  let error_lower := Py.lower error_msg in
  Py.any (fun indicator => Py.str_in indicator error_lower) rate_limit_indicators.

Definition _is_quota_exceeded_error (error_msg : string) : bool :=
  let error_lower := Py.lower error_msg in
  Py.any (fun indicator => Py.str_in indicator error_lower) quota_exceeded_indicators.

(** ** Data model *)

(** [price_stats]: the two keys the program reads.  A missing
    ['price_range'] and an empty one behave alike ([if price_range:]). *)
Record PriceStats := {
  price_volatility : option Q;
  price_range : list (string * Q)
}.

Definition empty_price_stats : PriceStats :=
  {| price_volatility := None; price_range := [] |}.

(** The ['raw_state'] of an engine payload, as far as the orchestrator
    inspects it.  [_make_serializable] hands back a dictionary, of which
    the program reads whether the keys ['data_period'] and ['price_stats']
    are present, or, for a state object that is no dictionary, its
    [str]. *)
Inductive RawState : Type :=
| StateDict (state_data_period : option (list (string * string)))
            (state_price_stats : option PriceStats)
| StateText (text : string).

(** The dictionary returned by the analysis engine.  [raw_state = None]
    stands for a missing or falsy ['raw_state']. *)
Record LLMInsights := {
  insights : string;
  raw_state : option RawState
}.

(** [@dataclass StockAnalysisResult] (without the wall-clock
    [analysis_time]). *)
Record StockAnalysisResult := {
  symbol : string;
  market_type : string;
  data_period : list (string * string);
  price_stats : PriceStats;
  llm_insights : option LLMInsights;
  error : option string
}.

(** The three shapes a job outcome takes in [self.results]. *)
Definition is_failed (r : StockAnalysisResult) : bool := Py.truthy (error r).
Definition skipped_error : string := "配额超限，未处理".

(** ** Effects: a clock, the log of analysis attempts, [self.results] *)

Record world := {
  clock : Z;                          (* total time slept so far *)
  submitted : list string;            (* symbols handed to the engine, oldest first *)
  self_results : list StockAnalysisResult  (* [self.results] *)
}.

Definition fresh : world := {| clock := 0; submitted := []; self_results := [] |}.

Inductive outcome (A : Type) : Type :=
| Ok (a : A)
| Raise (msg : string).
Arguments Ok {A} a.
Arguments Raise {A} msg.

Definition M (A : Type) : Type := world -> outcome A * world.

Definition ret {A} (a : A) : M A := fun w => (Ok a, w).

Definition bind {A B} (m : M A) (k : A -> M B) : M B :=
  fun w =>
    match m w with
    | (Ok a, w') => k a w'
    | (Raise e, w') => (Raise e, w')
    end.

Definition raise {A} (msg : string) : M A := fun w => (Raise msg, w).

(** [try: body / except Exception as e: handler(str(e))].  What the body
    did to the state before raising stays done. *)
Definition try_except {A} (body : M A) (handler : string -> M A) : M A :=
  fun w =>
    match body w with
    | (Ok a, w') => (Ok a, w')
    | (Raise e, w') => handler e w'
    end.

Declare Scope py_scope.
Delimit Scope py_scope with py.
Notation "x <- m ;; k" := (bind m (fun x => k))
  (at level 61, m at next level, right associativity) : py_scope.
Notation "m ;;; k" := (bind m (fun _ => k))
  (at level 61, right associativity) : py_scope.
Local Open Scope py_scope.

(** The three ways the state changes. *)
Definition advance (d : Z) (w : world) : world :=
  {| clock := clock w + d;
     submitted := submitted w;
     self_results := self_results w |}.

Definition logged (symbol : string) (w : world) : world :=
  {| clock := clock w;
     submitted := submitted w ++ [symbol];
     self_results := self_results w |}.

Definition stored (r : StockAnalysisResult) (w : world) : world :=
  {| clock := clock w;
     submitted := submitted w;
     self_results := self_results w ++ [r] |}.

(** The longest wait [time.sleep] takes, in seconds: the length is first
    converted to a signed 64-bit count of nanoseconds. *)
Definition sleep_limit : Z := 9223372036.

(** [time.sleep(d)] for an [int]: a length that does not fit the count of
    nanoseconds, in either direction, is an [OverflowError]; a negative
    length that fits is a [ValueError]. *)
Definition sleep (d : Z) : M unit :=
  fun w =>
    if ((d <? - sleep_limit) || (sleep_limit <? d))%bool
    then (Raise "timestamp too large to convert to C _PyTime_t", w)
    else if d <? 0 then (Raise "sleep length must be non-negative", w)
    else (Ok tt, advance d w).

(** [self.results.append(r)] *)
Definition append_result (r : StockAnalysisResult) : M unit :=
  fun w => (Ok tt, stored r w).

(** One attempt whose answer depends on how many attempts were made before
    it, and which is logged: the general deterministic stand-in for what
    the retry loop calls.  The loop is written against
    [self._analyze_single_stock], late bound, and has a handler for what
    that call raises; the method as it stands never raises. *)
Definition scripted (script : nat -> string -> outcome StockAnalysisResult)
  : string -> M StockAnalysisResult :=
  fun symbol w => (script (List.length (submitted w)) symbol, logged symbol w).

Definition when (b : bool) (m : M unit) : M unit := if b then m else ret tt.

(** ** The analysis engine, seen from the orchestrator

    [self.llm_analyzer] is a collaborator: the orchestrator only tests
    [graph] for truth and calls [analyze_stock], which hands back a payload
    (possibly [None]) or lets an exception escape.  What it answers is a
    parameter of the development: the graph behind it lives in the
    [tradingagents] package.  The reply may depend on how many submissions
    came before, so that any deterministic sequence of engine behaviours is
    expressible.  The analyzer [__init__] builds is always the
    repository's own, [TradingAgentsAnalyzer] below, which lets no
    exception escape. *)

Inductive EngineReply : Type :=
| Insights (payload : option LLMInsights)
| Fails (msg : string).

Record Analyzer := {
  graph : bool;
  reply : nat -> string -> string -> EngineReply
}.

(** [self.llm_analyzer.analyze_stock(symbol, market_type, [], {})]: the
    submission is logged, then the engine answers. *)
Definition analyze_stock (a : Analyzer) (symbol market_type : string)
  : M (option LLMInsights) :=
  fun w =>
    match reply a (List.length (submitted w)) symbol market_type with
    | Insights p => (Ok p, logged symbol w)
    | Fails msg => (Raise msg, logged symbol w)
    end.

(** [TradingAgentsAnalyzer.analyze_stock] of this repository, over the
    behaviour [propagate] of the graph it drives.  [Insights p] is a call
    of [graph.propagate] that returns, with [p] the dictionary the method
    builds from the state and the decision ([None] when building it
    raises); [Fails msg] is a call that raises.  No graph gives [None],
    and the method's own [except Exception] turns every failure into
    [None]. *)
Definition TradingAgentsAnalyzer (has_graph : bool)
  (propagate : nat -> string -> EngineReply) : Analyzer :=
  {| graph := has_graph;
     reply := fun n symbol _ =>
       if negb has_graph then Insights None
       else match propagate n symbol with
            | Insights p => Insights p
            | Fails _ => Insights None
            end |}.

(** ** [_detect_market_type] *)

Module Market.

Definition is_upper_letter (c : ascii) : bool :=
  let n := nat_of_ascii c in (Nat.leb 65 n && Nat.leb n 90)%bool.

Definition is_digit (c : ascii) : bool :=
  let n := nat_of_ascii c in (Nat.leb 48 n && Nat.leb n 57)%bool.

Definition newline : ascii := "010"%char.

(** [$] also matches just before a final newline. *)
Definition chop_newline (l : list ascii) : list ascii :=
  match rev l with
  | c :: r => if Ascii.eqb c newline then rev r else l
  | [] => l
  end.

(** Drop a final [".HK"] when there is one. *)
Definition chop_hk (l : list ascii) : list ascii :=
  match rev l with
  | k :: h :: d :: r =>
      if (Ascii.eqb k "K" && Ascii.eqb h "H" && Ascii.eqb d ".")%bool
      then rev r else l
  | _ => l
  end.

Definition between (lo hi : nat) (l : list ascii) : bool :=
  (Nat.leb lo (List.length l) && Nat.leb (List.length l) hi)%bool.

(** [re.match(r'^[A-Z]{1,5}$', s)] *)
Definition us_ticker (s : string) : bool :=
  let body := chop_newline (list_ascii_of_string s) in
  (between 1 5 body && forallb is_upper_letter body)%bool.

(** [re.match(r'^\d{6}$', s)] *)
Definition a_share (s : string) : bool :=
  let body := chop_newline (list_ascii_of_string s) in
  (between 6 6 body && forallb is_digit body)%bool.

(** [re.match(r'^\d{4,5}(\.HK)?$', s)] *)
Definition hk_code (s : string) : bool :=
  let body := chop_hk (chop_newline (list_ascii_of_string s)) in
  (between 4 5 body && forallb is_digit body)%bool.

End Market.

Definition _detect_market_type (symbol : string) : string :=
  if Market.us_ticker (Py.upper symbol) then "美股"
  else if Market.a_share symbol then "A股"
  else if Market.hk_code (Py.upper symbol) then "港股"
  else "美股".

(** ** The results of a run *)

Record PriceRangeEntry := {
  entry_symbol : string;
  entry_min : Q;
  entry_max : Q
}.

Record SummaryStats := {
  market_distribution : list (string * Z);   (* a dict, in insertion order *)
  average_volatility : Q;
  top_price_ranges : list PriceRangeEntry;
  total_analyzed : Z;
  analysis_success_rate : Q
}.

(** The dictionary [_generate_summary] returns: either the single key
    ['error'] or the five statistics. *)
Inductive Summary : Type :=
| NoSuccess (error : string)
| Stats (s : SummaryStats).

(** [@dataclass BatchAnalysisResult] (without [timestamp] and
    [duration]). *)
Record BatchAnalysisResult := {
  total_symbols : Z;
  successful_analyses : Z;
  failed_analyses : Z;
  results : list StockAnalysisResult;
  summary : Summary
}.

(** ** [BatchStockLLMAnalyzer] *)

(** What the file system and the mail system answer to [_save_results]:
    the text of the exception a step raises, [None] when it goes through.
    [write_files] stands for the date folder, the JSON file, the folder and
    the report of each result without error and the opening of the summary
    file; [write_summary] for what follows the first division of
    [_generate_batch_summary_markdown]: the rest of that report, its
    writing and the mail. *)
Record Storage := {
  write_files : BatchAnalysisResult -> option string;
  write_summary : BatchAnalysisResult -> option string
}.

(** The settings read in [__init__] that the run depends on, and what
    lies behind [self.config.output_dir] and [self.email_sender]. *)
Record BatchStockLLMAnalyzer := {
  symbols : list string;              (* [self.config.symbols] *)
  llm_analyzer : Analyzer;
  max_concurrent : Z;
  delay_between_requests : Z;
  max_retries : Z;
  batch_delay_multiplier : Z;
  stop_on_quota_exceeded : bool;
  storage : Storage
}.

(** The result built in an [except] branch or as a placeholder. *)
Definition error_result (symbol error : string) : StockAnalysisResult :=
  {| symbol := symbol;
     market_type := "unknown";
     data_period := [];
     price_stats := empty_price_stats;
     llm_insights := None;
     error := Some error |}.

(** [state['data_period']] and [state['price_stats']] on a [str]. *)
Definition string_index_error : string :=
  "string indices must be integers, not 'str'".

(** The statistics read from the payload's ['raw_state'] when there is one
    (a missing, empty or otherwise falsy one is skipped).  For a state
    that is a [str], [in] is the substring test and the subscript that
    follows a hit is a [TypeError]. *)
Definition read_state (llm_insights : option LLMInsights)
  : outcome (list (string * string) * PriceStats) :=
  let state := match llm_insights with
               | Some i => raw_state i
               | None => None
               end in
  match state with
  | None | Some (StateText EmptyString) => Ok ([], empty_price_stats)
  | Some (StateDict state_data_period state_price_stats) =>
      Ok (match state_data_period with Some d => d | None => [] end,
          match state_price_stats with
          | Some p => p
          | None => empty_price_stats
          end)
  | Some (StateText text) =>
      if Py.str_in "data_period" text then Raise string_index_error
      else if Py.str_in "price_stats" text then Raise string_index_error
      else Ok ([], empty_price_stats)
  end.

(** The result built from what the engine handed back. *)
Definition built_result (symbol market_type : string)
  (llm_insights : option LLMInsights)
  (stats : list (string * string) * PriceStats) : StockAnalysisResult :=
  {| symbol := symbol;
     market_type := market_type;
     data_period := fst stats;
     price_stats := snd stats;
     llm_insights := llm_insights;
     error := None |}.

Definition extract_result (symbol market_type : string)
  (llm_insights : option LLMInsights) : M StockAnalysisResult :=
  fun w =>
    match read_state llm_insights with
    | Ok stats => (Ok (built_result symbol market_type llm_insights stats), w)
    | Raise e => (Raise e, w)
    end.

Definition _analyze_single_stock (self : BatchStockLLMAnalyzer) (symbol : string)
  : M StockAnalysisResult :=
  try_except
    (let market_type := _detect_market_type symbol in
     llm_insights <-
       (if graph (llm_analyzer self)
        then analyze_stock (llm_analyzer self) symbol market_type
        else ret None) ;;
     extract_result symbol market_type llm_insights)
    (fun e => ret (error_result symbol e)).

Section Retry.

Variable self : BatchStockLLMAnalyzer.

(** [self._analyze_single_stock], late bound as in Python: the retry loop
    is written against whatever one attempt does. *)
Variable single : string -> M StockAnalysisResult.

(** How one pass through the body of the [for attempt] loop ends. *)
Inductive attempt_end : Type :=
| Return (r : StockAnalysisResult)     (* a [return] inside the loop *)
| Next (last_error : string).          (* fall through to the next attempt *)

(** The [try] block of one attempt. *)
Definition attempt_try (symbol : string) (attempt : Z) : M attempt_end :=
  when (0 <? attempt)
       (let wait_time := delay_between_requests self * 2 ^ attempt in
        sleep wait_time) ;;;
  result <- single symbol ;;
  if negb (Py.truthy (error result)) then ret (Return result)
  else ret (Next (Py.fmt_opt (error result))).

(** The [except Exception as e] block of one attempt. *)
Definition attempt_except (symbol : string) (attempt : Z) (error_str : string)
  : M attempt_end :=
  if _is_quota_exceeded_error error_str then
    ret (Return (error_result symbol ("配额超限: " ++ error_str)))
  else if _is_rate_limit_error error_str then
    when (attempt <? max_retries self)
         (let wait_time := delay_between_requests self * 5 * 2 ^ attempt in
          sleep wait_time) ;;;
    ret (Next error_str)
  else
    when (attempt <? max_retries self)
         (sleep (delay_between_requests self)) ;;;
    ret (Next error_str).

(** [for attempt in range(...)], with [todo] iterations left, followed by
    the code after the loop. *)
Fixpoint retry_loop (symbol : string) (todo : nat) (attempt : Z)
  (last_error : option string) : M StockAnalysisResult :=
  match todo with
  | O =>
      ret (error_result symbol
             ("重试" ++ Py.str_of_int (max_retries self) ++ "次后仍失败: "
              ++ Py.fmt_opt last_error))
  | S todo' =>
      e <- try_except (attempt_try symbol attempt)
                      (attempt_except symbol attempt) ;;
      match e with
      | Return r => ret r
      | Next err => retry_loop symbol todo' (attempt + 1) (Some err)
      end
  end.

Definition analyze_with_retry_via (symbol : string) (global_idx : Z)
  : M StockAnalysisResult :=
  retry_loop symbol (Z.to_nat (max_retries self + 1)) 0 None.

End Retry.

Definition _analyze_with_retry (self : BatchStockLLMAnalyzer)
  : string -> Z -> M StockAnalysisResult :=
  analyze_with_retry_via self (_analyze_single_stock self).

(** ** [_generate_summary] *)

Module Dict.

(** [d.get(k, default)] *)
Fixpoint get {V} (d : list (string * V)) (k : string) (default : V) : V :=
  match d with
  | [] => default
  | (k', v) :: d' => if String.eqb k k' then v else get d' k default
  end.

(** [d[k] = d.get(k, 0) + 1] *)
Fixpoint incr (d : list (string * Z)) (k : string) : list (string * Z) :=
  match d with
  | [] => [(k, 1)]
  | (k', v) :: d' =>
      if String.eqb k k' then (k', v + 1) :: d' else (k', v) :: incr d' k
  end.

End Dict.

(** Python's [a / b] with an [int] divisor: a zero divisor raises. *)
Definition true_div (a : Q) (b : Z) : outcome Q :=
  if b =? 0 then Raise "division by zero"
  else Ok (a / inject_Z b)%Q.

(** [price_ranges.sort(key=lambda x: x['max'], reverse=True)]: a stable
    sort, largest ['max'] first; entries with equal keys keep their order. *)
Fixpoint insert_by_max (x : PriceRangeEntry) (l : list PriceRangeEntry)
  : list PriceRangeEntry :=
  match l with
  | [] => [x]
  | y :: l' =>
      if Qle_bool (entry_max y) (entry_max x) then x :: y :: l'
      else y :: insert_by_max x l'
  end.

Definition sort_by_max_desc (l : list PriceRangeEntry) : list PriceRangeEntry :=
  fold_right insert_by_max [] l.

(** The three accumulators of the [for result in successful_results]
    loop. *)
Definition summary_step
  (acc : list (string * Z) * Q * list PriceRangeEntry)
  (result : StockAnalysisResult)
  : list (string * Z) * Q * list PriceRangeEntry :=
  let '(market_distribution, avg_volatility, price_ranges) := acc in
  let market := market_type result in
  let volatility := match price_volatility (price_stats result) with
                    | Some v => v
                    | None => 0%Q
                    end in
  let price_range := price_range (price_stats result) in
  (Dict.incr market_distribution market,
   (avg_volatility + volatility)%Q,
   match price_range with
   | [] => price_ranges
   | _ :: _ =>
       (price_ranges ++ [ {| entry_symbol := symbol result;
                             entry_min := Dict.get price_range "min" 0%Q;
                             entry_max := Dict.get price_range "max" 0%Q |} ])%list
   end).

Definition _generate_summary (results : list StockAnalysisResult)
  : outcome Summary :=
  let successful_results := filter (fun r => negb (Py.truthy (error r))) results in
  match successful_results with
  | [] => Ok (NoSuccess "没有成功的分析结果")
  | _ :: _ =>
      let '(market_distribution, avg_volatility, price_ranges) :=
        fold_left summary_step successful_results ([], 0%Q, []) in
      match true_div avg_volatility (Py.len successful_results) with
      | Raise e => Raise e
      | Ok avg_volatility =>
          let price_ranges := sort_by_max_desc price_ranges in
          match true_div (inject_Z (Py.len successful_results)) (Py.len results) with
          | Raise e => Raise e
          | Ok rate =>
              Ok (Stats {| market_distribution := market_distribution;
                           average_volatility := avg_volatility;
                           top_price_ranges := firstn 5 price_ranges;
                           total_analyzed := Py.len successful_results;
                           analysis_success_rate := (rate * 100)%Q |})
          end
      end
  end.

(** ** [run_batch_analysis] *)

(** [success_rate = batch_result.successful_analyses /
    batch_result.total_symbols * 100], the first division of
    [_generate_batch_summary_markdown] (and the same expression in
    [_generate_text_report]). *)
Definition report_success_rate (b : BatchAnalysisResult) : outcome Q :=
  match true_div (inject_Z (successful_analyses b)) (total_symbols b) with
  | Ok q => Ok (q * 100)%Q
  | Raise e => Raise e
  end.

Section Run.

Variable self : BatchStockLLMAnalyzer.
Variable single : string -> M StockAnalysisResult.

(** The placeholders appended for the symbols after the one that hit the
    quota. *)
Fixpoint append_placeholders (remaining : list string) : M unit :=
  match remaining with
  | [] => ret tt
  | remaining_symbol :: rest =>
      append_result (error_result remaining_symbol skipped_error) ;;;
      append_placeholders rest
  end.

(** [for i, symbol in enumerate(symbol_batch, 1)], from position [i] on;
    the counters [(successful, failed)] are threaded through.  A [break]
    ends the loop with the counters as they are. *)
Fixpoint batch_loop (batch_idx batch_size batch_len : Z)
  (todo : list string) (i : Z) (counts : Z * Z) : M (Z * Z) :=
  match todo with
  | [] => ret counts
  | symbol :: todo' =>
      let '(successful, failed) := counts in
      let global_idx := (batch_idx - 1) * batch_size + i in
      result <- analyze_with_retry_via self single symbol global_idx ;;
      let go_on (counts : Z * Z) : M (Z * Z) :=
        append_result result ;;;
        when (i <? batch_len) (sleep (delay_between_requests self)) ;;;
        batch_loop batch_idx batch_size batch_len todo' (i + 1) counts in
      if Py.truthy (error result) then
        let failed := failed + 1 in
        if (stop_on_quota_exceeded self
            && _is_quota_exceeded_error (Py.fmt_opt (error result)))%bool
        then
          append_placeholders (Py.slice_from (symbols self) global_idx) ;;;
          ret (successful, failed)
        else go_on (successful, failed)
      else
        go_on (successful + 1, failed)
  end.

(** [for batch_idx, symbol_batch in enumerate(symbol_batches, 1)] *)
Fixpoint batches_loop (batch_size n_batches : Z)
  (todo : list (list string)) (batch_idx : Z) (counts : Z * Z) : M (Z * Z) :=
  match todo with
  | [] => ret counts
  | symbol_batch :: todo' =>
      counts <- batch_loop batch_idx batch_size (Py.len symbol_batch)
                           symbol_batch 1 counts ;;
      when (batch_idx <? n_batches)
           (let batch_delay :=
              delay_between_requests self * batch_delay_multiplier self in
            sleep batch_delay) ;;;
      batches_loop batch_size n_batches todo' (batch_idx + 1) counts
  end.

(** [[symbols[i:i + batch_size] for i in range(0, len(symbols), batch_size)]];
    [range] refuses a zero step. *)
Definition symbol_batches (batch_size : Z) : M (list (list string)) :=
  if batch_size =? 0 then raise "range() arg 3 must not be zero"
  else ret (map (fun i => Py.slice (symbols self) i (i + batch_size))
                (Py.range_by (Py.len (symbols self)) batch_size)).

(** [self._save_results(batch_result)], as far as it can raise: the
    files, the division at the head of the summary report, the rest. *)
Definition _save_results (batch_result : BatchAnalysisResult) : M unit :=
  fun w =>
    match write_files (storage self) batch_result with
    | Some e => (Raise e, w)
    | None =>
        match report_success_rate batch_result with
        | Raise e => (Raise e, w)
        | Ok _ =>
            match write_summary (storage self) batch_result with
            | Some e => (Raise e, w)
            | None => (Ok tt, w)
            end
        end
    end.

Definition run_batch_analysis_via : M BatchAnalysisResult :=
  let batch_size := Z.min (max_concurrent self) (Py.len (symbols self)) in
  batches <- symbol_batches batch_size ;;
  counts <- batches_loop batch_size (Py.len batches) batches 1 (0, 0) ;;
  batch_result <-
    (fun w =>
       match _generate_summary (self_results w) with
       | Raise e => (Raise e, w)
       | Ok summary =>
           (Ok {| total_symbols := Py.len (symbols self);
                  successful_analyses := fst counts;
                  failed_analyses := snd counts;
                  results := self_results w;
                  summary := summary |}, w)
       end) ;;
  _save_results batch_result ;;;
  ret batch_result.

End Run.

Definition run_batch_analysis (self : BatchStockLLMAnalyzer)
  : M BatchAnalysisResult :=
  run_batch_analysis_via self (_analyze_single_stock self).

(** ** [EmailSender] *)

Record EmailSender := {
  enabled : bool;
  smtp_server : string;
  smtp_port : Z;
  smtp_username : string;
  smtp_password : string;
  from_email : string;
  to_emails : list string;
  use_tls : bool;
  use_ssl : bool
}.

(** One entry of the [configs] list of [send_email]. *)
Module Config.
Record t := {
  port : Z;
  use_ssl : bool;
  use_tls : bool;
  name : string
}.
End Config.

(** The message as assembled before any connection is made (attachments
    left out). *)
Record Message := {
  msg_from : string;
  msg_to : string;
  msg_subject : string;
  msg_body : string
}.

(** The [smtplib] calls of one connection attempt. *)
Inductive SMTPCall : Type :=
| SMTP_SSL (server : string) (port : Z)
| SMTP (server : string) (port : Z)
| starttls
| login (username password : string)
| send_message (msg : Message)
| quit.

(** What a call can raise, by the [except] clause that catches it:
    [SMTPAuthenticationError]; [(SMTPException, ConnectionError, OSError)];
    any other [Exception]. *)
Inductive SMTPError : Type :=
| SMTPAuthenticationError (msg : string)
| SMTPException (msg : string)
| OtherException (msg : string).

(** The mail system: what each call of the [n]-th connection attempt of a
    send does ([None]: it returns normally). *)
Definition Transport : Type := nat -> SMTPCall -> option SMTPError.

Fixpoint run_calls (t : Transport) (n : nat) (calls : list SMTPCall)
  : option SMTPError :=
  match calls with
  | [] => None
  | c :: calls' =>
      match t n c with
      | Some e => Some e
      | None => run_calls t n calls'
      end
  end.

(** The body of the [try] in the [for config in configs] loop. *)
Definition session (self : EmailSender) (msg : Message) (config : Config.t)
  : list SMTPCall :=
  ((if Config.use_ssl config
    then [SMTP_SSL (smtp_server self) (Config.port config)]
    else [SMTP (smtp_server self) (Config.port config)])
   ++ (if (Config.use_tls config && negb (Config.use_ssl config))%bool
       then [starttls] else [])
   ++ [login (smtp_username self) (smtp_password self);
       send_message msg;
       quit])%list.

(** [for config in configs], from the [n]-th attempt on: the returned flag
    and the configurations tried, in the order of the "尝试配置" log
    lines. *)
Fixpoint try_configs (t : Transport) (self : EmailSender) (msg : Message)
  (n : nat) (configs : list Config.t) : bool * list Config.t :=
  match configs with
  | [] => (false, [])
  | config :: configs' =>
      match run_calls t n (session self msg config) with
      | None => (true, [config])
      | Some (SMTPAuthenticationError _) => (false, [config])
      | Some (SMTPException _) | Some (OtherException _) =>
          let '(sent, tried) := try_configs t self msg (S n) configs' in
          (sent, config :: tried)
      end
  end.

Definition configs_163 : list Config.t :=
  [ {| Config.port := 465; Config.use_ssl := true; Config.use_tls := false;
       Config.name := "SSL(465)" |};
    {| Config.port := 25; Config.use_ssl := false; Config.use_tls := false;
       Config.name := "无加密(25)" |};
    {| Config.port := 587; Config.use_ssl := false; Config.use_tls := true;
       Config.name := "TLS(587)" |} ].

(** The [configs] list chosen from the server name. *)
Definition smtp_configs (self : EmailSender) : list Config.t :=
  if Py.str_in "163.com" (smtp_server self) then configs_163
  else [ {| Config.port := smtp_port self;
            Config.use_ssl := use_ssl self;
            Config.use_tls := use_tls self;
            Config.name :=
              "原始配置(" ++ Py.str_of_int (smtp_port self) ++ ")" |} ].

Definition send_email (t : Transport) (self : EmailSender)
  (subject body : string) : bool * list Config.t :=
  if negb (enabled self) then (false, [])
  else
    let msg := {| msg_from := from_email self;
                  msg_to := String.concat ", " (to_emails self);
                  msg_subject := subject;
                  msg_body := body |} in
    try_configs t self msg 0 (smtp_configs self).

(** The spec's name for what one connection attempt yields. *)
Inductive DeliveryAttemptResult : Type :=
| Success
| AuthFailure
| TransientFailure (message : string).

Definition attempt_result (t : Transport) (self : EmailSender) (msg : Message)
  (n : nat) (config : Config.t) : DeliveryAttemptResult :=
  match run_calls t n (session self msg config) with
  | None => Success
  | Some (SMTPAuthenticationError _) => AuthFailure
  | Some (SMTPException m) | Some (OtherException m) => TransientFailure m
  end.

(** ** Vocabulary of the retry policy *)

(** Neither keyword table matches: the spec's [Transient]. *)
Definition transient (m : string) : Prop :=
  _is_rate_limit_error m = false /\ _is_quota_exceeded_error m = false.

(** The spec's [RateLimited]: a rate-limit keyword and no quota keyword. *)
Definition rate_limited (m : string) : Prop :=
  _is_rate_limit_error m = true /\ _is_quota_exceeded_error m = false.

(** What a failed attempt reports, whether it came back as [result.error]
    or as an exception; [None] when the attempt did not fail. *)
Definition failure_message (o : outcome StockAnalysisResult) : option string :=
  match o with
  | Ok r => if Py.truthy (error r) then error r else None
  | Raise m => Some m
  end.

(** The wait at the head of the [try] block of [_analyze_with_retry]. *)
Definition wait_before (self : BatchStockLLMAnalyzer) (attempt : Z) : Z :=
  if 0 <? attempt then delay_between_requests self * 2 ^ attempt else 0.

(** What [_analyze_single_stock] answers on the [n]-th submission when
    there is a graph: its own handler has turned a failure of the engine,
    or of the reading of the payload, into [result.error]. *)
Definition single_stock_script (self : BatchStockLLMAnalyzer)
  : nat -> string -> outcome StockAnalysisResult :=
  fun n symbol =>
    match reply (llm_analyzer self) n symbol (_detect_market_type symbol) with
    | Insights p =>
        match read_state p with
        | Ok stats =>
            Ok (built_result symbol (_detect_market_type symbol) p stats)
        | Raise msg => Ok (error_result symbol msg)
        end
    | Fails msg => Ok (error_result symbol msg)
    end.

(** The waits of a run are lengths [time.sleep] takes: the pacing between
    jobs and between batches, the backoff ahead of a retry and the
    extended wait of the handler. *)
Definition waits_in_range (self : BatchStockLLMAnalyzer) : Prop :=
  0 <= delay_between_requests self <= sleep_limit
  /\ delay_between_requests self * 5 * 2 ^ max_retries self <= sleep_limit
  /\ 0 <= batch_delay_multiplier self
  /\ delay_between_requests self * batch_delay_multiplier self <= sleep_limit.

(** A file system and a mail system that take whatever is written. *)
Definition accepts (st : Storage) (b : BatchAnalysisResult) : Prop :=
  write_files st b = None /\ write_summary st b = None.

(** The test that stops the run, on the outcome of a job: [result.error]
    is set, [stop_on_quota_exceeded] is on and the error is a quota
    message. *)
Definition fires_quota_stop (self : BatchStockLLMAnalyzer)
  (r : StockAnalysisResult) : bool :=
  (Py.truthy (error r)
   && (stop_on_quota_exceeded self
       && _is_quota_exceeded_error (Py.fmt_opt (error r))))%bool.

(** ** Scenarios *)

(** Storage that takes every write. *)
Definition every_write_succeeds : Storage :=
  {| write_files := fun _ => None; write_summary := fun _ => None |}.

(** The settings [__init__] falls back on. *)
Definition default_settings (symbols : list string) (a : Analyzer)
  : BatchStockLLMAnalyzer :=
  {| symbols := symbols;
     llm_analyzer := a;
     max_concurrent := 2;
     delay_between_requests := 3;
     max_retries := 3;
     batch_delay_multiplier := 2;
     stop_on_quota_exceeded := true;
     storage := every_write_succeeds |}.

Definition some_insights : LLMInsights :=
  {| insights := "## 最终投资决策"; raw_state := None |}.

Definition quota_message : string :=
  "429 RESOURCE_EXHAUSTED: You exceeded your current quota".

Definition throttle_message : string := "429 Too Many Requests".

(** An engine that is out of quota whenever it is asked about [bad], and
    answers every other symbol. *)
Definition quota_hit_on (bad : string) : Analyzer :=
  {| graph := true;
     reply := fun _ symbol _ =>
       if String.eqb symbol bad then Fails quota_message
       else Insights (Some some_insights) |}.

(** The graph of the repository's own analyzer running out of quota on
    every call. *)
Definition graph_out_of_quota : Analyzer :=
  TradingAgentsAnalyzer true (fun _ _ => Fails quota_message).

(** One job, default settings, an engine out of quota for it. *)
Definition one_job_out_of_quota : BatchStockLLMAnalyzer :=
  default_settings ["AAPL"] (quota_hit_on "AAPL").

(** The repository's analyzer over a graph that raises the quota error
    whenever it is asked about [bad] and answers every other symbol. *)
Definition graph_out_of_quota_for (bad : string) : Analyzer :=
  TradingAgentsAnalyzer true
    (fun _ symbol =>
       if String.eqb symbol bad then Fails quota_message
       else Insights (Some some_insights)).

(** Five jobs in batches of two, no retries, the graph out of quota for
    the third one. *)
Definition five_jobs : BatchStockLLMAnalyzer :=
  {| symbols := ["AAPL"; "MSFT"; "GOOG"; "AMZN"; "TSLA"];
     llm_analyzer := graph_out_of_quota_for "GOOG";
     max_concurrent := 2;
     delay_between_requests := 1;
     max_retries := 0;
     batch_delay_multiplier := 2;
     stop_on_quota_exceeded := true;
     storage := every_write_succeeds |}.

(** The repository's analyzer over a graph that is throttled on its first
    two calls. *)
Definition throttled_twice : Analyzer :=
  TradingAgentsAnalyzer true
    (fun n _ =>
       if Nat.ltb n 2 then Fails throttle_message
       else Insights (Some some_insights)).

(** [max_retries = 2], [delay_between_requests = 1]. *)
Definition two_retries (a : Analyzer) : BatchStockLLMAnalyzer :=
  {| symbols := ["AAPL"];
     llm_analyzer := a;
     max_concurrent := 2;
     delay_between_requests := 1;
     max_retries := 2;
     batch_delay_multiplier := 2;
     stop_on_quota_exceeded := true;
     storage := every_write_succeeds |}.

(** A payload whose state came back as the [str] of an object. *)
Definition text_state_insights : LLMInsights :=
  {| insights := "无分析结果";
     raw_state := Some (StateText "AgentState(data_period={}, messages=[])") |}.

(** The repository's analyzer over a graph whose state is such an object,
    on every call. *)
Definition graph_with_text_state : Analyzer :=
  TradingAgentsAnalyzer true (fun _ _ => Insights (Some text_state_insights)).

(** A mail system whose every login is refused. *)
Definition login_refused : Transport :=
  fun _ call =>
    match call with
    | login _ _ => Some (SMTPAuthenticationError "535 authentication failed")
    | _ => None
    end.

Definition sender_163 : EmailSender :=
  {| enabled := true;
     smtp_server := "smtp.163.com";
     smtp_port := 587;
     smtp_username := "reports";
     smtp_password := "authorization-code";
     from_email := "reports@163.com";
     to_emails := ["desk@example.com"];
     use_tls := true;
     use_ssl := false |}.

Definition report : Message :=
  {| msg_from := "reports@163.com";
     msg_to := "desk@example.com";
     msg_subject := "batch";
     msg_body := "<html></html>" |}.

Definition ssl_465 : Config.t :=
  {| Config.port := 465; Config.use_ssl := true; Config.use_tls := false;
     Config.name := "SSL(465)" |}.

Definition plain_25 : Config.t :=
  {| Config.port := 25; Config.use_ssl := false; Config.use_tls := false;
     Config.name := "无加密(25)" |}.

(** A mail system that refuses connections on port 465 and accepts
    everything else. *)
Definition port_465_closed : Transport :=
  fun _ call =>
    match call with
    | SMTP_SSL _ 465 | SMTP _ 465 =>
        Some (SMTPException "[Errno 111] Connection refused")
    | _ => None
    end.

From Stdlib Require Import Permutation Sorted.

(** ** Vocabulary for the further properties *)

(** The error [_analyze_with_retry] reports once the loop is over. *)
Definition exhausted_error (self : BatchStockLLMAnalyzer)
  (last_error : option string) : string :=
  "重试" ++ Py.str_of_int (max_retries self) ++ "次后仍失败: "
  ++ Py.fmt_opt last_error.

(** The three results a retry loop over [script] can come back with: the
    result of an attempt that carried no error; the error built by the
    handler from a raised quota message; the error built after the loop
    from [last_error] or from the message of a failed attempt. *)
Definition retry_result (self : BatchStockLLMAnalyzer)
  (script : nat -> string -> outcome StockAnalysisResult)
  (job : string) (last_error : option string) (r : StockAnalysisResult) : Prop :=
  (exists n, script n job = Ok r /\ Py.truthy (error r) = false)
  \/ (exists n m, script n job = Raise m
                  /\ _is_quota_exceeded_error m = true
                  /\ r = error_result job ("配额超限: " ++ m))
  \/ (r = error_result job (exhausted_error self last_error))
  \/ (exists n m, failure_message (script n job) = Some m
                  /\ r = error_result job (exhausted_error self (Some m))).

(** A character no quota keyword begins with, whatever its case. *)
Definition starts_no_quota_keyword (c : ascii) : bool :=
  forallb (fun keyword =>
             match keyword with
             | String k _ => negb (Ascii.eqb (Py.lower_ascii c) k)
             | EmptyString => false
             end)
          quota_exceeded_indicators.

(** [all(p(c) for c in s)] *)
Fixpoint all_chars (p : ascii -> bool) (s : string) : bool :=
  match s with
  | EmptyString => true
  | String c s' => p c && all_chars p s'
  end.

(** The results [_generate_summary] takes for successful. *)
Definition successful_results (results : list StockAnalysisResult)
  : list StockAnalysisResult :=
  filter (fun r => negb (Py.truthy (error r))) results.

(** The entry the summary loop appends for a result: none when its
    ['price_range'] is missing or empty. *)
Definition price_entry (r : StockAnalysisResult) : list PriceRangeEntry :=
  match price_range (price_stats r) with
  | [] => []
  | _ :: _ =>
      [ {| entry_symbol := symbol r;
           entry_min := Dict.get (price_range (price_stats r)) "min" 0%Q;
           entry_max := Dict.get (price_range (price_stats r)) "max" 0%Q |} ]
  end.


(** The number of successful results of one market type. *)
Definition market_count (results : list StockAnalysisResult) (market : string)
  : Z :=
  Py.len (filter (fun r => String.eqb market (market_type r))
                 (successful_results results)).

(** A successful result with a price range. *)
Definition priced (symbol : string) (low high : Q) : StockAnalysisResult :=
  {| symbol := symbol;
     market_type := _detect_market_type symbol;
     data_period := [];
     price_stats := {| price_volatility := Some (1 # 10)%Q;
                       price_range := [("min", low); ("max", high)] |};
     llm_insights := Some some_insights;
     error := None |}.

Definition three_priced : list StockAnalysisResult :=
  [ priced "AAPL" 150 190;
    error_result "GOOG" "Connection reset by peer";
    priced "600519" 1500 1800;
    priced "MSFT" 300 420 ].

(** ** [EmailSender.__init__] *)

(** The [email_config] dictionary, key by key; [None] is a missing key. *)
Record EmailConfig := {
  conf_enabled : option bool;
  conf_smtp_server : option string;
  conf_smtp_port : option Z;
  conf_smtp_username : option string;
  conf_smtp_password : option string;
  conf_smtp_password_env : option string;
  conf_from_email : option string;
  conf_to_emails : option (list string);
  conf_use_tls : option bool;
  conf_use_ssl : option bool
}.

(** [d.get(key, default)] on one key. *)
Definition get_or {A} (value : option A) (default : A) : A :=
  match value with
  | Some v => v
  | None => default
  end.

(** Truthiness of a [str]. *)
Definition nonempty (s : string) : bool :=
  match s with
  | EmptyString => false
  | String _ _ => true
  end.

(** The password [__init__] settles on: the environment variable named by
    ['smtp_password_env'] when it is set and not empty, the configured
    password otherwise.  [getenv name] is [os.getenv(name)]. *)
Definition resolve_password (getenv : string -> option string)
  (config : EmailConfig) : string :=
  let smtp_password_env := get_or (conf_smtp_password_env config) EmptyString in
  if nonempty smtp_password_env then
    let env_password := get_or (getenv smtp_password_env) EmptyString in
    if nonempty env_password then env_password
    else get_or (conf_smtp_password config) EmptyString
  else get_or (conf_smtp_password config) EmptyString.

(** [EmailSender(email_config)].  After the first [return] the other
    attributes are not set at all in Python; nothing reads them on a
    disabled sender, and they are given the values of the defaults here. *)
Definition EmailSender_init (getenv : string -> option string)
  (config : EmailConfig) : EmailSender :=
  let unset := {| enabled := false;
                  smtp_server := EmptyString;
                  smtp_port := 587;
                  smtp_username := EmptyString;
                  smtp_password := EmptyString;
                  from_email := EmptyString;
                  to_emails := [];
                  use_tls := true;
                  use_ssl := false |} in
  if negb (get_or (conf_enabled config) false) then unset
  else
    let smtp_server := get_or (conf_smtp_server config) EmptyString in
    let smtp_port := get_or (conf_smtp_port config) 587 in
    let smtp_username := get_or (conf_smtp_username config) EmptyString in
    let smtp_password := resolve_password getenv config in
    let from_email := get_or (conf_from_email config) EmptyString in
    let to_emails := get_or (conf_to_emails config) [] in
    let use_tls := get_or (conf_use_tls config) true in
    let use_ssl := get_or (conf_use_ssl config) false in
    let built (enabled : bool) :=
      {| enabled := enabled;
         smtp_server := smtp_server;
         smtp_port := smtp_port;
         smtp_username := smtp_username;
         smtp_password := smtp_password;
         from_email := from_email;
         to_emails := to_emails;
         use_tls := use_tls;
         use_ssl := use_ssl |} in
    if negb (nonempty smtp_server) then built false
    else if negb (nonempty smtp_username) then built false
    else if negb (nonempty smtp_password) then built false
    else if (negb (nonempty from_email)
             || match to_emails with [] => true | _ :: _ => false end)%bool
    then built false
    else built true.

(** A complete configuration for a 163 mailbox, the password left to the
    environment. *)
Definition config_163 : EmailConfig :=
  {| conf_enabled := Some true;
     conf_smtp_server := Some "smtp.163.com";
     conf_smtp_port := None;
     conf_smtp_username := Some "reports";
     conf_smtp_password := Some "fallback-code";
     conf_smtp_password_env := Some "SMTP_PASSWORD";
     conf_from_email := Some "reports@163.com";
     conf_to_emails := Some ["desk@example.com"];
     conf_use_tls := None;
     conf_use_ssl := None |}.

Definition env_with_password : string -> option string :=
  fun name =>
    if String.eqb name "SMTP_PASSWORD" then Some "authorization-code" else None.

(** ** [_apply_research_depth_config] and [_get_enabled_analysts] *)

(** The three keys of the graph's [config] dictionary that
    [_apply_research_depth_config] writes. *)
Record GraphConfig := {
  online_tools : bool;
  max_debate_rounds : Z;
  max_risk_discuss_rounds : Z
}.

Definition _apply_research_depth_config (config : GraphConfig)
  (research_depth : Z) : GraphConfig :=
  if research_depth =? 1 then
    {| max_debate_rounds := 1; max_risk_discuss_rounds := 1;
       online_tools := false |}
  else if research_depth =? 2 then
    {| max_debate_rounds := 1; max_risk_discuss_rounds := 1;
       online_tools := true |}
  else if research_depth =? 3 then
    {| max_debate_rounds := 2; max_risk_discuss_rounds := 1;
       online_tools := true |}
  else if research_depth =? 4 then
    {| max_debate_rounds := 3; max_risk_discuss_rounds := 2;
       online_tools := true |}
  else if research_depth =? 5 then
    {| max_debate_rounds := 4; max_risk_discuss_rounds := 3;
       online_tools := true |}
  else config.

(** The ['tradingagents'] section of the configuration, key by key; the
    teams are the items of the ['analyst_teams'] dictionary in its order,
    each with the ['enabled'] entry of its own dictionary. *)
Record TradingAgentsConfig := {
  conf_online_tools : option bool;
  conf_max_debate_rounds : option Z;
  conf_max_risk_discuss_rounds : option Z;
  conf_research_depth : option Z;
  conf_analyst_teams : option (list (string * option bool));
  conf_selected_analysts : option (list string)
}.

(** The part of [_initialize_graph] that fills these three keys: the
    configured values or their defaults, then the research depth. *)
Definition graph_settings (tradingagents_config : TradingAgentsConfig)
  : GraphConfig :=
  let config :=
    {| online_tools := get_or (conf_online_tools tradingagents_config) true;
       max_debate_rounds :=
         get_or (conf_max_debate_rounds tradingagents_config) 2;
       max_risk_discuss_rounds :=
         get_or (conf_max_risk_discuss_rounds tradingagents_config) 1 |} in
  let research_depth := get_or (conf_research_depth tradingagents_config) 3 in
  _apply_research_depth_config config research_depth.

Definition default_analysts : list string :=
  ["market"; "fundamentals"; "news"].

(** One turn of the loop over [analyst_teams.items()]. *)
Definition enable_analyst (enabled_analysts : list string)
  (item : string * option bool) : list string :=
  let (analyst_name, analyst_enabled) := item in
  if get_or analyst_enabled false then
    if String.eqb analyst_name "market_analyst"
    then (enabled_analysts ++ ["market"])%list
    else if String.eqb analyst_name "fundamentals_analyst"
    then (enabled_analysts ++ ["fundamentals"])%list
    else if String.eqb analyst_name "news_analyst"
    then (enabled_analysts ++ ["news"])%list
    else if String.eqb analyst_name "social_media_analyst"
    then (enabled_analysts ++ ["social"])%list
    else enabled_analysts
  else enabled_analysts.

Definition _get_enabled_analysts (tradingagents_config : TradingAgentsConfig)
  : list string :=
  match get_or (conf_analyst_teams tradingagents_config) [] with
  | (_ :: _) as analyst_teams =>
      match fold_left enable_analyst analyst_teams [] with
      | (_ :: _) as enabled_analysts => enabled_analysts
      | [] => default_analysts
      end
  | [] =>
      get_or (conf_selected_analysts tradingagents_config) default_analysts
  end.

(** The short name the loop appends for a team, when it knows the team. *)
Definition analyst_of_team (analyst_name : string) : option string :=
  if String.eqb analyst_name "market_analyst" then Some "market"
  else if String.eqb analyst_name "fundamentals_analyst"
  then Some "fundamentals"
  else if String.eqb analyst_name "news_analyst" then Some "news"
  else if String.eqb analyst_name "social_media_analyst" then Some "social"
  else None.

(** The analysts of the enabled teams the loop knows, in the order of the
    teams. *)
Definition known_enabled (analyst_teams : list (string * option bool))
  : list string :=
  flat_map (fun item =>
              if get_or (snd item) false
              then match analyst_of_team (fst item) with
                   | Some analyst => [analyst]
                   | None => []
                   end
              else []) analyst_teams.

(** A configuration that asks for depth 4 and also sets the rounds. *)
Definition depth_four : TradingAgentsConfig :=
  {| conf_online_tools := Some false;
     conf_max_debate_rounds := Some 9;
     conf_max_risk_discuss_rounds := Some 9;
     conf_research_depth := Some 4;
     conf_analyst_teams :=
       Some [("news_analyst", Some true);
             ("risk_analyst", Some true);
             ("market_analyst", None);
             ("social_media_analyst", Some true)];
     conf_selected_analysts := Some ["market"] |}.

(** ** [BatchStockLLMAnalyzer.__init__] and the symbols [main] runs on *)










(** ** The replacements at the head of [_markdown_to_html] *)

(** [s.replace(old, new)] for a non-empty [old]: the text is scanned from
    the left, an occurrence of [old] is replaced and the scan goes on
    behind it.  [skip] counts the characters of the occurrence just
    replaced that are still to be passed. *)
Fixpoint replace_from (old new : string) (skip : nat) (s : string) : string :=
  match s with
  | EmptyString => EmptyString
  | String c s' =>
      match skip with
      | S skip' => replace_from old new skip' s'
      | O =>
          if String.prefix old s
          then new ++ replace_from old new (String.length old - 1)%nat s'
          else String c (replace_from old new 0 s')
      end
  end.

(** [s.replace('', new)]: [new] before every character and at the end. *)
Fixpoint interleave (new s : string) : string :=
  match s with
  | EmptyString => new
  | String c s' => new ++ String c (interleave new s')
  end.

(** [s.replace(old, new)] *)
Definition str_replace (old new s : string) : string :=
  match old with
  | EmptyString => interleave new s
  | String _ _ => replace_from old new 0 s
  end.

Definition nl : string := String "010" EmptyString.

(** The ten replacements that [_markdown_to_html] applies to a non-empty
    text before it splits it into lines. *)
Definition markdown_replacements (markdown_text : string) : string :=
  let html := markdown_text in
  let html :=
    str_replace (nl ++ "# ") ("</h1>" ++ nl ++ "<h1>")
      (str_replace "# " "<h1>" html) in
  let html :=
    str_replace (nl ++ "## ") ("</h2>" ++ nl ++ "<h2>")
      (str_replace "## " "<h2>" html) in
  let html :=
    str_replace (nl ++ "### ") ("</h3>" ++ nl ++ "<h3>")
      (str_replace "### " "<h3>" html) in
  let html :=
    str_replace (nl ++ "#### ") ("</h4>" ++ nl ++ "<h4>")
      (str_replace "#### " "<h4>" html) in
  let html :=
    str_replace "**" "</strong>" (str_replace "**" "<strong>" html) in
  html.

(** * Properties *)

(** ** Delivery failover *)

Section Failover.

Variables (t : Transport) (self : EmailSender) (msg : Message).

Local Abbreviation yield := (attempt_result t self msg).
Local Abbreviation run := (try_configs t self msg).

(** One iteration of the loop, by what the attempt yields. *)
Lemma try_configs_cons (n : nat) (c : Config.t) (cs : list Config.t) :
  run n (c :: cs) =
  match yield n c with
  | Success => (true, [c])
  | AuthFailure => (false, [c])
  | TransientFailure _ => (fst (run (S n) cs), c :: snd (run (S n) cs))
  end.
Proof.
  unfold attempt_result; cbn [try_configs].
  destruct (run_calls t n (session self msg c)) as [[m|m|m]|];
    try reflexivity;
    destruct (try_configs t self msg (S n) cs); reflexivity.
Qed.

Lemma tried_at_auth_failure (cs : list Config.t) :
  forall n i c,
    nth_error (snd (run n cs)) i = Some c ->
    yield (n + i) c = AuthFailure ->
    fst (run n cs) = false
    /\ snd (run n cs) = firstn (S i) cs
    /\ (forall j c', (j < i)%nat -> nth_error cs j = Some c' ->
          exists m, yield (n + j) c' = TransientFailure m).
Proof.
  induction cs as [|c0 cs IH]; intros n i c Hnth Hauth.
  - destruct i; discriminate Hnth.
  - rewrite try_configs_cons in Hnth |- *.
    destruct (yield n c0) eqn:Hy; cbn [fst snd] in *.
    + destruct i as [|i]; cbn in Hnth.
      * injection Hnth as ->. rewrite Nat.add_0_r in Hauth. congruence.
      * destruct i; discriminate Hnth.
    + destruct i as [|i]; cbn in Hnth.
      * repeat split. intros j c' Hj. lia.
      * destruct i; discriminate Hnth.
    + destruct i as [|i]; cbn in Hnth.
      * injection Hnth as ->. rewrite Nat.add_0_r in Hauth. congruence.
      * rewrite <- Nat.add_succ_comm in Hauth.
        destruct (IH (S n) i c Hnth Hauth) as (Hf & Ht & Hpre).
        split; [exact Hf|]. split.
        -- rewrite Ht. reflexivity.
        -- intros [|j] c' Hj Hc'; cbn in Hc'.
           ++ injection Hc' as <-. rewrite Nat.add_0_r. eauto.
           ++ rewrite <- Nat.add_succ_comm. apply Hpre; [lia | exact Hc'].
Qed.

Lemma next_after_transient (cs : list Config.t) :
  forall n i c m,
    nth_error (snd (run n cs)) i = Some c ->
    yield (n + i) c = TransientFailure m ->
    nth_error (snd (run n cs)) (S i) = nth_error cs (S i).
Proof.
  induction cs as [|c0 cs IH]; intros n i c m Hnth Hy.
  - destruct i; discriminate Hnth.
  - rewrite try_configs_cons in Hnth |- *.
    destruct (yield n c0) eqn:Hy0; cbn [fst snd] in *.
    + destruct i as [|i]; cbn in Hnth.
      * injection Hnth as ->. rewrite Nat.add_0_r in Hy. congruence.
      * destruct i; discriminate Hnth.
    + destruct i as [|i]; cbn in Hnth.
      * injection Hnth as ->. rewrite Nat.add_0_r in Hy. congruence.
      * destruct i; discriminate Hnth.
    + destruct i as [|i]; cbn in Hnth.
      * cbn [nth_error].
        destruct cs as [|c1 cs']; [reflexivity|].
        rewrite try_configs_cons.
        destruct (yield (S n) c1); reflexivity.
      * rewrite <- Nat.add_succ_comm in Hy.
        exact (IH (S n) i c m Hnth Hy).
Qed.

Lemma sent_iff (cs : list Config.t) :
  forall n,
    fst (run n cs) = true <->
    exists i c,
      nth_error cs i = Some c /\ yield (n + i) c = Success
      /\ forall j c', (j < i)%nat -> nth_error cs j = Some c' ->
           yield (n + j) c' <> AuthFailure.
Proof.
  induction cs as [|c0 cs IH]; intros n.
  - cbn. split; [discriminate|]. intros ([|i] & c & H & _); discriminate H.
  - rewrite try_configs_cons.
    destruct (yield n c0) eqn:Hy; cbn [fst].
    + split; [intros _|reflexivity].
      exists 0%nat, c0. rewrite Nat.add_0_r.
      repeat split; auto. intros j c' Hj; lia.
    + split; [discriminate|].
      intros ([|i] & c & Hc & Hs & Hpre); cbn in Hc.
      * injection Hc as <-. rewrite Nat.add_0_r in Hs. congruence.
      * exfalso. apply (Hpre 0%nat c0); [lia|reflexivity|].
        rewrite Nat.add_0_r. exact Hy.
    + rewrite IH. split.
      * intros (i & c & Hc & Hs & Hpre).
        exists (S i), c. rewrite <- Nat.add_succ_comm.
        repeat split; auto.
        intros [|j] c' Hj Hc'; cbn in Hc'.
        -- injection Hc' as <-. rewrite Nat.add_0_r. congruence.
        -- rewrite <- Nat.add_succ_comm. apply Hpre; [lia|exact Hc'].
      * intros ([|i] & c & Hc & Hs & Hpre); cbn in Hc.
        -- injection Hc as <-. rewrite Nat.add_0_r in Hs. congruence.
        -- exists i, c. rewrite Nat.add_succ_comm.
           repeat split; auto.
           intros j c' Hj Hc'. rewrite Nat.add_succ_comm.
           apply Hpre; [lia|exact Hc'].
Qed.

Lemma exhausted_on_transient (cs : list Config.t) :
  forall n,
    (forall i c, nth_error cs i = Some c ->
       exists m, yield (n + i) c = TransientFailure m) ->
    run n cs = (false, cs).
Proof.
  induction cs as [|c0 cs IH]; intros n Hall; [reflexivity|].
  rewrite try_configs_cons.
  destruct (Hall 0%nat c0 eq_refl) as [m Hm].
  rewrite Nat.add_0_r in Hm. rewrite Hm.
  rewrite IH; [reflexivity|].
  intros i c Hc. rewrite Nat.add_succ_comm. apply Hall. exact Hc.
Qed.

(** The first configuration is always tried. *)
Lemma tried_single (n : nat) (c : Config.t) : snd (run n [c]) = [c].
Proof.
  rewrite try_configs_cons. destruct (yield n c); reflexivity.
Qed.

Lemma tried_prefix (cs : list Config.t) :
  forall n, exists k,
    (k <= List.length cs)%nat /\ (cs <> [] -> (1 <= k)%nat)
    /\ snd (run n cs) = firstn k cs.
Proof.
  induction cs as [|c0 cs IH]; intros n.
  - exists 0%nat. repeat split; auto. congruence.
  - rewrite try_configs_cons.
    destruct (yield n c0); cbn [snd].
    + exists 1%nat. cbn [List.length firstn]. repeat split; auto; lia.
    + exists 1%nat. cbn [List.length firstn]. repeat split; auto; lia.
    + destruct (IH (S n)) as (k & Hk & _ & Hp).
      exists (S k). cbn [List.length firstn]. rewrite Hp.
      repeat split; auto; lia.
Qed.

End Failover.


(** An enabled sender runs the loop over the list chosen from its server
    name. *)
Lemma send_email_runs_loop (t : Transport) (self : EmailSender)
  (subject body : string) :
  enabled self = true ->
  send_email t self subject body
  = try_configs t self
      {| msg_from := from_email self;
         msg_to := String.concat ", " (to_emails self);
         msg_subject := subject;
         msg_body := body |}
      0 (smtp_configs self).
Proof.
  intros Hen. unfold send_email. rewrite Hen. reflexivity.
Qed.

(** A disabled sender makes no attempt. *)
Lemma send_email_disabled (t : Transport) (self : EmailSender)
  (subject body : string) :
  enabled self = false -> send_email t self subject body = (false, []).
Proof.
  intros Hen. unfold send_email. rewrite Hen. reflexivity.
Qed.

(** C7.  Whenever an attempt made by the loop of [send_email] yields an
    authentication failure, the send reports failure and the configurations
    tried are exactly those up to and including that attempt: it is the
    first authentication failure, every attempt before it failed
    transiently, and no later configuration is tried, whatever it would have
    yielded. *)
Theorem send_stops_at_authentication_failure :
  forall (t : Transport) (self : EmailSender) (msg : Message)
         (configs : list Config.t) (i : nat) (config : Config.t),
    nth_error (snd (try_configs t self msg 0 configs)) i = Some config ->
    attempt_result t self msg i config = AuthFailure ->
    fst (try_configs t self msg 0 configs) = false
    /\ snd (try_configs t self msg 0 configs) = firstn (S i) configs
    /\ (forall j c, (j < i)%nat -> nth_error configs j = Some c ->
          exists m, attempt_result t self msg j c = TransientFailure m).
Proof.
  intros t self msg configs i config Hnth Hauth.
  exact (tried_at_auth_failure t self msg configs 0 i config Hnth Hauth).
Qed.

(** C8.  A transient failure makes the loop of [send_email] go on with the
    next configuration of the list; the send reports success exactly when
    some configuration succeeds with no authentication failure before it;
    and when every configuration fails transiently the whole list has been
    tried, in order, and the send reports failure. *)
Theorem send_fails_over_to_next_configuration :
  forall (t : Transport) (self : EmailSender) (msg : Message)
         (configs : list Config.t),
    (forall i c m,
        nth_error (snd (try_configs t self msg 0 configs)) i = Some c ->
        attempt_result t self msg i c = TransientFailure m ->
        nth_error (snd (try_configs t self msg 0 configs)) (S i)
        = nth_error configs (S i))
    /\ (fst (try_configs t self msg 0 configs) = true <->
        exists i c,
          nth_error configs i = Some c
          /\ attempt_result t self msg i c = Success
          /\ forall j c', (j < i)%nat -> nth_error configs j = Some c' ->
               attempt_result t self msg j c' <> AuthFailure)
    /\ ((forall i c, nth_error configs i = Some c ->
           exists m, attempt_result t self msg i c = TransientFailure m) ->
        try_configs t self msg 0 configs = (false, configs)).
Proof.
  intros t self msg configs. split; [|split].
  - intros i c m Hnth Hy.
    exact (next_after_transient t self msg configs 0 i c m Hnth Hy).
  - exact (sent_iff t self msg configs 0).
  - exact (exhausted_on_transient t self msg configs 0).
Qed.

(** C10.  For a server name containing ["163.com"] the configurations are
    the fixed list SSL on 465, plain on 25, TLS on 587, whatever
    [smtp_port], [use_ssl] and [use_tls] say, and an enabled sender tries
    them in that order (a non-empty initial part of the list, on the ports
    and with the encryption named); for any other server name the one
    configured combination is the list, and an enabled sender tries exactly
    it. *)
Theorem send_email_configurations :
  forall (t : Transport) (self : EmailSender) (subject body : string),
    (Py.str_in "163.com" (smtp_server self) = true ->
       smtp_configs self = configs_163
       /\ (forall msg,
             map (session self msg) configs_163
             = [ [SMTP_SSL (smtp_server self) 465;
                  login (smtp_username self) (smtp_password self);
                  send_message msg; quit];
                 [SMTP (smtp_server self) 25;
                  login (smtp_username self) (smtp_password self);
                  send_message msg; quit];
                 [SMTP (smtp_server self) 587; starttls;
                  login (smtp_username self) (smtp_password self);
                  send_message msg; quit] ])
       /\ (enabled self = true ->
           exists k, (1 <= k <= 3)%nat
             /\ snd (send_email t self subject body) = firstn k configs_163))
    /\ (Py.str_in "163.com" (smtp_server self) = false ->
          let only := {| Config.port := smtp_port self;
                         Config.use_ssl := use_ssl self;
                         Config.use_tls := use_tls self;
                         Config.name :=
                           "原始配置(" ++ Py.str_of_int (smtp_port self) ++ ")" |} in
          smtp_configs self = [only]
          /\ (enabled self = true ->
              snd (send_email t self subject body) = [only])).
Proof.
  intros t self subject body. split; intros H163.
  - split; [|split].
    + unfold smtp_configs. rewrite H163. reflexivity.
    + intros msg. reflexivity.
    + intros Hen. unfold send_email, smtp_configs. rewrite Hen, H163. cbn [negb].
      match goal with
      | |- context [try_configs t self ?m 0 configs_163] =>
          destruct (tried_prefix t self m configs_163 0) as (k & Hk & Hpos & Hp)
      end.
      exists k. split; [|exact Hp].
      split; [apply Hpos; discriminate | exact Hk].
  - intros only. split.
    + unfold smtp_configs. rewrite H163. reflexivity.
    + intros Hen. unfold send_email, smtp_configs. rewrite Hen, H163. cbn [negb].
      apply tried_single.
Qed.

(** * Further properties *)

(** ** Keyword classification *)

Lemma map_string_app (f : ascii -> ascii) (a b : string) :
  Py.map_string f (a ++ b) = Py.map_string f a ++ Py.map_string f b.
Proof.
  induction a as [|c a IH]; [reflexivity|].
  cbn [String.append Py.map_string]. rewrite IH. reflexivity.
Qed.

Lemma map_string_ext (f g : ascii -> ascii) (s : string) :
  (forall c, f c = g c) -> Py.map_string f s = Py.map_string g s.
Proof.
  intros H. induction s as [|c s IH]; [reflexivity|].
  cbn [Py.map_string]. rewrite H, IH. reflexivity.
Qed.

Lemma map_string_map_string (f g : ascii -> ascii) (s : string) :
  Py.map_string f (Py.map_string g s) = Py.map_string (fun c => f (g c)) s.
Proof.
  induction s as [|c s IH]; [reflexivity|].
  cbn [Py.map_string]. rewrite IH. reflexivity.
Qed.

Lemma lower_app (a b : string) :
  Py.lower (a ++ b) = Py.lower a ++ Py.lower b.
Proof. apply map_string_app. Qed.

Lemma lower_upper_ascii (c : ascii) :
  Py.lower_ascii (Py.upper_ascii c) = Py.lower_ascii c.
Proof.
  destruct c as [[|] [|] [|] [|] [|] [|] [|] [|]]; reflexivity.
Qed.

Lemma lower_lower_ascii (c : ascii) :
  Py.lower_ascii (Py.lower_ascii c) = Py.lower_ascii c.
Proof.
  destruct c as [[|] [|] [|] [|] [|] [|] [|] [|]]; reflexivity.
Qed.

Lemma lower_upper (s : string) : Py.lower (Py.upper s) = Py.lower s.
Proof.
  unfold Py.lower, Py.upper. rewrite map_string_map_string.
  apply map_string_ext, lower_upper_ascii.
Qed.

Lemma lower_lower (s : string) : Py.lower (Py.lower s) = Py.lower s.
Proof.
  unfold Py.lower. rewrite map_string_map_string.
  apply map_string_ext, lower_lower_ascii.
Qed.

Lemma prefix_empty (s : string) : String.prefix EmptyString s = true.
Proof. destruct s; reflexivity. Qed.

Lemma prefix_app (k s q : string) :
  String.prefix k s = true -> String.prefix k (s ++ q) = true.
Proof.
  revert k. induction s as [|b s IH]; intros k H.
  - destruct k; [apply prefix_empty | discriminate].
  - destruct k as [|a k]; [reflexivity|].
    cbn in H |- *. destruct (ascii_dec a b); [apply IH; exact H | discriminate].
Qed.

Lemma str_in_app_l (k s q : string) :
  Py.str_in k s = true -> Py.str_in k (s ++ q) = true.
Proof.
  induction s as [|c s IH]; intros H.
  - cbn in H. rewrite orb_false_r in H.
    destruct k; [|discriminate]. destruct q; reflexivity.
  - cbn [Py.str_in] in H. apply orb_true_iff in H.
    change (String c s ++ q) with (String c (s ++ q)). cbn [Py.str_in].
    apply orb_true_iff. destruct H as [H|H].
    + left. exact (prefix_app k (String c s) q H).
    + right. apply IH. exact H.
Qed.

Lemma str_in_app_r (k p s : string) :
  Py.str_in k s = true -> Py.str_in k (p ++ s) = true.
Proof.
  intros H. induction p as [|c p IH]; [exact H|].
  change (String c p ++ s) with (String c (p ++ s)). cbn [Py.str_in].
  rewrite IH. apply orb_true_r.
Qed.

Lemma append_assoc (a b c : string) : (a ++ b) ++ c = a ++ b ++ c.
Proof.
  induction a as [|x a IH]; [reflexivity|].
  cbn [String.append]. rewrite IH. reflexivity.
Qed.

Lemma keyword_found_after (keywords : list string) (p m : string) :
  Py.any (fun k => Py.str_in k (Py.lower m)) keywords = true ->
  Py.any (fun k => Py.str_in k (Py.lower (p ++ m))) keywords = true.
Proof.
  unfold Py.any. rewrite !existsb_exists.
  intros (k & Hin & Hk). exists k. split; [exact Hin|].
  rewrite lower_app. apply str_in_app_r. exact Hk.
Qed.

Lemma keyword_found_before (keywords : list string) (m q : string) :
  Py.any (fun k => Py.str_in k (Py.lower m)) keywords = true ->
  Py.any (fun k => Py.str_in k (Py.lower (m ++ q))) keywords = true.
Proof.
  unfold Py.any. rewrite !existsb_exists.
  intros (k & Hin & Hk). exists k. split; [exact Hin|].
  rewrite lower_app. apply str_in_app_l. exact Hk.
Qed.

(** X1.  Both classifiers ignore the case of ASCII letters. *)
Theorem classification_ignores_case :
  forall m : string,
    _is_quota_exceeded_error (Py.upper m) = _is_quota_exceeded_error m
    /\ _is_quota_exceeded_error (Py.lower m) = _is_quota_exceeded_error m
    /\ _is_rate_limit_error (Py.upper m) = _is_rate_limit_error m
    /\ _is_rate_limit_error (Py.lower m) = _is_rate_limit_error m.
Proof.
  intros m. unfold _is_quota_exceeded_error, _is_rate_limit_error.
  rewrite lower_upper, lower_lower. repeat split.
Qed.

(** X2.  A message the quota classifier accepts is still accepted with any
    text put before and after it; in particular the two errors
    [_analyze_with_retry] builds around a quota message are quota errors
    for [run_batch_analysis]. *)
Theorem quota_classification_survives_wrapping :
  forall (self : BatchStockLLMAnalyzer) (before m after : string),
    _is_quota_exceeded_error m = true ->
    _is_quota_exceeded_error (before ++ m ++ after) = true
    /\ _is_quota_exceeded_error ("配额超限: " ++ m) = true
    /\ _is_quota_exceeded_error (exhausted_error self (Some m)) = true.
Proof.
  intros self before m after Hq. split; [|split].
  - apply keyword_found_after, keyword_found_before, Hq.
  - apply keyword_found_after, Hq.
  - unfold exhausted_error. cbn [Py.fmt_opt].
    rewrite <- !append_assoc. apply keyword_found_after, Hq.
Qed.

Lemma quota_classification_survives_wrapping_witness :
  _is_quota_exceeded_error quota_message = true
  /\ _is_quota_exceeded_error ("HTTP error: " ++ quota_message ++ " (retry later)")
     = true
  /\ _is_quota_exceeded_error
       (exhausted_error one_job_out_of_quota (Some quota_message)) = true.
Proof.
  assert (H : _is_quota_exceeded_error quota_message = true)
    by (vm_compute; reflexivity).
  destruct (quota_classification_survives_wrapping
              one_job_out_of_quota "HTTP error: " quota_message " (retry later)" H)
    as (H1 & _ & H3).
  repeat split; assumption.
Defined.

Lemma all_chars_app (p : ascii -> bool) (a b : string) :
  all_chars p (a ++ b) = (all_chars p a && all_chars p b)%bool.
Proof.
  induction a as [|c a IH]; [reflexivity|].
  cbn [String.append all_chars]. rewrite IH, andb_assoc. reflexivity.
Qed.

Lemma digits_start_no_quota_keyword (d : Decimal.uint) :
  all_chars starts_no_quota_keyword (NilEmpty.string_of_uint d) = true.
Proof.
  induction d; cbn [NilEmpty.string_of_uint all_chars];
    rewrite ?IHd; reflexivity.
Qed.

Lemma str_of_int_starts_no_quota_keyword (z : Z) :
  all_chars starts_no_quota_keyword (Py.str_of_int z) = true.
Proof.
  unfold Py.str_of_int, NilZero.string_of_int, NilZero.string_of_uint.
  destruct (Z.to_int z) as [d|d].
  - destruct d; try reflexivity; apply digits_start_no_quota_keyword.
  - cbn [all_chars].
    destruct d; try reflexivity;
      rewrite digits_start_no_quota_keyword; reflexivity.
Qed.

(** A keyword cannot begin inside text none of whose characters it begins
    with. *)
Lemma str_in_past_prefix (keyword p s : string) :
  In keyword quota_exceeded_indicators ->
  all_chars starts_no_quota_keyword p = true ->
  Py.str_in keyword (Py.lower (p ++ s)) = Py.str_in keyword (Py.lower s).
Proof.
  intros Hin. induction p as [|c p IH]; intros Hall; [reflexivity|].
  cbn [all_chars] in Hall. apply andb_true_iff in Hall as [Hc Hp].
  change (Py.lower (String c p ++ s))
    with (String (Py.lower_ascii c) (Py.lower (p ++ s))).
  cbn [Py.str_in]. rewrite (IH Hp).
  unfold starts_no_quota_keyword in Hc. rewrite forallb_forall in Hc.
  specialize (Hc keyword Hin).
  destruct keyword as [|k keyword]; [discriminate|].
  cbn [String.prefix].
  destruct (ascii_dec k (Py.lower_ascii c)) as [->|_]; [|reflexivity].
  rewrite Ascii.eqb_refl in Hc. discriminate.
Qed.

Lemma existsb_agree {A} (f g : A -> bool) (l : list A) :
  (forall x, In x l -> f x = g x) -> existsb f l = existsb g l.
Proof.
  induction l as [|x l IH]; intros H; [reflexivity|].
  cbn [existsb]. rewrite (H x (or_introl eq_refl)), IH; [reflexivity|].
  intros y Hy. apply H. right. exact Hy.
Qed.

(** The quota check reads past the text put in front of the last error. *)
Lemma exhausted_error_quota :
  forall (self : BatchStockLLMAnalyzer) (last_error : option string),
    _is_quota_exceeded_error (exhausted_error self last_error)
    = _is_quota_exceeded_error (Py.fmt_opt last_error).
Proof.
  intros self last_error. unfold _is_quota_exceeded_error, Py.any, exhausted_error.
  apply existsb_agree. intros keyword Hin.
  rewrite <- !append_assoc. apply str_in_past_prefix; [exact Hin|].
  rewrite !all_chars_app, str_of_int_starts_no_quota_keyword. reflexivity.
Qed.

(** X3.  The text [_analyze_with_retry] puts in front of the last error
    never makes it a quota error: the error of an exhausted job fires the
    quota stop exactly when the last failure's own message does. *)
Theorem exhausted_error_keeps_classification :
  forall (self : BatchStockLLMAnalyzer) (last_error : option string),
    _is_quota_exceeded_error (exhausted_error self last_error)
    = _is_quota_exceeded_error (Py.fmt_opt last_error).
Proof.
  exact exhausted_error_quota.
Qed.

(** ** Retry policy *)

Lemma sleep_ok (d : Z) (w : world) :
  0 <= d <= sleep_limit -> sleep d w = (Ok tt, advance d w).
Proof.
  intros Hd. unfold sleep.
  destruct (Z.ltb_spec d (- sleep_limit)); [unfold sleep_limit in *; lia|].
  destruct (Z.ltb_spec sleep_limit d); [lia|].
  destruct (Z.ltb_spec d 0); [lia | reflexivity].
Qed.

(** What [time.sleep] raises is neither a quota nor a rate-limit
    message, and it raises before any time has passed. *)
Lemma sleep_outcome (d : Z) (w : world) :
  sleep d w = (Ok tt, advance d w)
  \/ exists m, sleep d w = (Raise m, w)
               /\ _is_quota_exceeded_error m = false
               /\ _is_rate_limit_error m = false.
Proof.
  unfold sleep.
  destruct ((d <? - sleep_limit) || (sleep_limit <? d))%bool.
  - right. eexists. split; [reflexivity|]. split; vm_compute; reflexivity.
  - destruct (d <? 0); [right | left; reflexivity].
    eexists. split; [reflexivity|]. split; vm_compute; reflexivity.
Qed.

Lemma backoff_nonneg (d attempt : Z) :
  0 <= d -> 0 <= d * 2 ^ attempt.
Proof.
  intros Hd. apply Z.mul_nonneg_nonneg; [assumption|].
  apply Z.pow_nonneg. lia.
Qed.

(** A backoff within the retries allowed is no longer than the last
    one. *)
Lemma backoff_in_range (d attempt retries : Z) :
  0 <= d -> d * 2 ^ retries <= sleep_limit ->
  0 <= attempt <= retries ->
  0 <= d * 2 ^ attempt <= sleep_limit.
Proof.
  intros Hd Hfit Hattempt. split; [apply backoff_nonneg; exact Hd|].
  assert (2 ^ attempt <= 2 ^ retries) by (apply Z.pow_le_mono_r; lia).
  nia.
Qed.

Lemma extended_backoff_in_range (d attempt retries : Z) :
  0 <= d -> d * 5 * 2 ^ retries <= sleep_limit ->
  0 <= attempt <= retries ->
  0 <= d * 5 * 2 ^ attempt <= sleep_limit.
Proof.
  intros Hd Hfit Hattempt.
  assert (2 ^ attempt <= 2 ^ retries) by (apply Z.pow_le_mono_r; lia).
  assert (0 <= 2 ^ attempt) by (apply Z.pow_nonneg; lia).
  split; nia.
Qed.

Section Attempts.

Variable self : BatchStockLLMAnalyzer.
Variable single : string -> M StockAnalysisResult.
Variable script : nat -> string -> outcome StockAnalysisResult.
Variable symbol : string.

Hypothesis delay_nonneg : 0 <= delay_between_requests self.
Hypothesis backoff_fits :
  delay_between_requests self * 2 ^ max_retries self <= sleep_limit.
Hypothesis single_scripted :
  forall w, single symbol w = scripted script symbol w.

Local Abbreviation d := (delay_between_requests self).

Lemma delay_fits : 0 <= max_retries self -> 0 <= d <= sleep_limit.
Proof.
  intros Hretries.
  pose proof (backoff_in_range d 0 (max_retries self) delay_nonneg
                backoff_fits ltac:(lia)) as H.
  rewrite Z.pow_0_r, Z.mul_1_r in H. exact H.
Qed.

Lemma wait_before_attempt (attempt : Z) (w : world) :
  0 <= attempt <= max_retries self ->
  exists w1,
    when (0 <? attempt) (sleep (d * 2 ^ attempt)) w = (Ok tt, w1)
    /\ clock w1 = clock w + wait_before self attempt
    /\ submitted w1 = submitted w
    /\ self_results w1 = self_results w.
Proof.
  intros Hattempt. unfold when, wait_before. destruct (0 <? attempt).
  - rewrite sleep_ok
      by (apply backoff_in_range with (retries := max_retries self);
          assumption).
    eexists; repeat split.
  - exists w. cbn. repeat split. lia.
Qed.

(** An attempt that comes back without an error ends the loop. *)
Lemma successful_attempt (attempt : Z) (w : world) (r : StockAnalysisResult) :
  0 <= attempt <= max_retries self ->
  script (List.length (submitted w)) symbol = Ok r ->
  Py.truthy (error r) = false ->
  exists w',
    try_except (attempt_try self single symbol attempt)
               (attempt_except self symbol attempt) w
    = (Ok (Return r), w')
    /\ clock w' = clock w + wait_before self attempt
    /\ submitted w' = (submitted w ++ [symbol])%list
    /\ self_results w' = self_results w.
Proof.
  intros Hattempt Hs Ht.
  destruct (wait_before_attempt attempt w Hattempt)
    as (w1 & Hw & Hc1 & Hs1 & Hr1).
  unfold try_except, attempt_try, bind. rewrite Hw.
  rewrite single_scripted. unfold scripted. rewrite Hs1, Hs, Ht. cbn [negb].
  eexists. split; [reflexivity|]. cbn. rewrite Hc1, Hs1, Hr1. auto.
Qed.

(** An attempt that comes back with [result.error] set is retried without
    being classified. *)
Lemma failed_attempt (attempt : Z) (w : world) (r : StockAnalysisResult) :
  0 <= attempt <= max_retries self ->
  script (List.length (submitted w)) symbol = Ok r ->
  Py.truthy (error r) = true ->
  exists w',
    try_except (attempt_try self single symbol attempt)
               (attempt_except self symbol attempt) w
    = (Ok (Next (Py.fmt_opt (error r))), w')
    /\ clock w' = clock w + wait_before self attempt
    /\ submitted w' = (submitted w ++ [symbol])%list
    /\ self_results w' = self_results w.
Proof.
  intros Hattempt Hs Ht.
  destruct (wait_before_attempt attempt w Hattempt)
    as (w1 & Hw & Hc1 & Hs1 & Hr1).
  unfold try_except, attempt_try, bind. rewrite Hw.
  rewrite single_scripted. unfold scripted. rewrite Hs1, Hs, Ht. cbn [negb].
  eexists. split; [reflexivity|]. cbn. rewrite Hc1, Hs1, Hr1. auto.
Qed.

(** An attempt that raises reaches the handler. *)
Lemma raising_attempt (attempt : Z) (w : world) (m : string) :
  0 <= attempt <= max_retries self ->
  script (List.length (submitted w)) symbol = Raise m ->
  exists w1,
    try_except (attempt_try self single symbol attempt)
               (attempt_except self symbol attempt) w
    = attempt_except self symbol attempt m w1
    /\ clock w1 = clock w + wait_before self attempt
    /\ submitted w1 = (submitted w ++ [symbol])%list
    /\ self_results w1 = self_results w.
Proof.
  intros Hattempt Hs.
  destruct (wait_before_attempt attempt w Hattempt)
    as (w1 & Hw & Hc1 & Hs1 & Hr1).
  unfold try_except, attempt_try, bind. rewrite Hw.
  rewrite single_scripted. unfold scripted. rewrite Hs1, Hs.
  eexists. split; [reflexivity|]. cbn. rewrite Hc1, Hs1, Hr1. auto.
Qed.

(** The handler on a transient message: the plain delay, unless this was
    the last attempt. *)
Lemma except_transient (attempt : Z) (w : world) (m : string) :
  0 <= attempt ->
  transient m ->
  exists w',
    attempt_except self symbol attempt m w = (Ok (Next m), w')
    /\ clock w' = clock w + (if attempt <? max_retries self then d else 0)
    /\ submitted w' = submitted w
    /\ self_results w' = self_results w.
Proof.
  intros Hattempt [Hrl Hq]. unfold attempt_except. rewrite Hq, Hrl.
  unfold bind, when. destruct (Z.ltb_spec attempt (max_retries self)).
  - rewrite sleep_ok by (apply delay_fits; lia). eexists; repeat split.
  - exists w. cbn. repeat split. lia.
Qed.

(** The handler on a rate-limit message: five times the backoff, unless
    this was the last attempt. *)
Lemma except_rate_limited (attempt : Z) (w : world) (m : string) :
  d * 5 * 2 ^ max_retries self <= sleep_limit ->
  0 <= attempt ->
  rate_limited m ->
  exists w',
    attempt_except self symbol attempt m w = (Ok (Next m), w')
    /\ clock w' = clock w + (if attempt <? max_retries self
                             then d * 5 * 2 ^ attempt else 0)
    /\ submitted w' = submitted w
    /\ self_results w' = self_results w.
Proof.
  intros Hfit Hattempt [Hrl Hq]. unfold attempt_except. rewrite Hq, Hrl.
  unfold bind, when. destruct (Z.ltb_spec attempt (max_retries self)).
  - rewrite sleep_ok
      by (apply extended_backoff_in_range with (retries := max_retries self);
          try assumption; lia).
    eexists; repeat split.
  - exists w. cbn. repeat split. lia.
Qed.

(** The handler on a quota message: the loop is left at once. *)
Lemma except_quota (attempt : Z) (w : world) (m : string) :
  _is_quota_exceeded_error m = true ->
  attempt_except self symbol attempt m w
  = (Ok (Return (error_result symbol ("配额超限: " ++ m))), w).
Proof.
  intros Hq. unfold attempt_except. rewrite Hq. reflexivity.
Qed.

(** Every attempt fails, and a failure that arrives as an exception is
    one neither keyword table matches. *)
Hypothesis always_fails :
  forall n, exists m,
    failure_message (script n symbol) = Some m
    /\ (script n symbol = Raise m -> transient m).

(** One failing attempt: it is logged and the loop goes on with the
    failure's message. *)
Lemma retried_attempt (attempt : Z) (w : world) :
  0 <= attempt <= max_retries self ->
  exists m w',
    try_except (attempt_try self single symbol attempt)
               (attempt_except self symbol attempt) w
    = (Ok (Next m), w')
    /\ failure_message (script (List.length (submitted w)) symbol) = Some m
    /\ submitted w' = (submitted w ++ [symbol])%list
    /\ self_results w' = self_results w.
Proof.
  intros Hattempt.
  destruct (always_fails (List.length (submitted w))) as (m & Hm & Hnq).
  destruct (script (List.length (submitted w)) symbol) as [r|e] eqn:Hs;
    cbn in Hm.
  - destruct (Py.truthy (error r)) eqn:Ht; [|discriminate].
    destruct (failed_attempt attempt w r Hattempt Hs Ht)
      as (w' & Hstep & _ & Hs' & Hr').
    rewrite Hm in Hstep. cbn in Hstep.
    exists m, w'. cbn. rewrite Ht. auto.
  - injection Hm as ->.
    destruct (raising_attempt attempt w m Hattempt Hs)
      as (w1 & Hstep & _ & Hs1 & Hr1).
    destruct (except_transient attempt w1 m (proj1 Hattempt) (Hnq eq_refl))
      as (w' & Hex & _ & Hs' & Hr').
    exists m, w'. rewrite Hstep, Hex, Hs', Hr', Hs1, Hr1. auto.
Qed.

Lemma retry_loop_exhausts (todo : nat) :
  forall (attempt : Z) (last_error : option string) (w : world),
    0 <= attempt ->
    attempt + Z.of_nat todo = max_retries self + 1 ->
    exists w',
      retry_loop self single symbol todo attempt last_error w
      = (Ok (error_result symbol
               ("重试" ++ Py.str_of_int (max_retries self) ++ "次后仍失败: "
                ++ Py.fmt_opt
                     match todo with
                     | O => last_error
                     | S k => failure_message
                                (script (List.length (submitted w) + k) symbol)
                     end)), w')
      /\ submitted w' = (submitted w ++ repeat symbol todo)%list
      /\ self_results w' = self_results w.
Proof.
  induction todo as [|todo IH]; intros attempt last_error w Hattempt Hleft.
  - exists w. cbn [retry_loop repeat]. rewrite app_nil_r. auto.
  - destruct (retried_attempt attempt w ltac:(lia))
      as (m & w1 & Hstep & Hm & Hs1 & Hr1).
    cbn [retry_loop]. unfold bind at 1. rewrite Hstep.
    destruct (IH (attempt + 1) (Some m) w1 ltac:(lia) ltac:(lia))
      as (w' & Hrun & Hs & Hr).
    exists w'. split; [|split].
    + rewrite Hrun. do 4 f_equal.
      destruct todo as [|k].
      * rewrite Nat.add_0_r, Hm. reflexivity.
      * rewrite Hs1, length_app. cbn [List.length].
        replace (List.length (submitted w) + 1 + k)%nat
          with (List.length (submitted w) + S k)%nat by lia.
        reflexivity.
    + rewrite Hs, Hs1, <- app_assoc. reflexivity.
    + rewrite Hr, Hr1. reflexivity.
Qed.

End Attempts.


(** With a graph, [_analyze_single_stock] logs the submission and answers
    with a result, never with an exception. *)
Lemma single_stock_scripted (self : BatchStockLLMAnalyzer) (symbol : string)
  (w : world) :
  graph (llm_analyzer self) = true ->
  _analyze_single_stock self symbol w
  = scripted (single_stock_script self) symbol w.
Proof.
  intros Hg.
  unfold _analyze_single_stock, try_except, bind, scripted, single_stock_script,
    analyze_stock, extract_result.
  rewrite Hg.
  destruct (reply (llm_analyzer self) (List.length (submitted w)) symbol
              (_detect_market_type symbol)) as [p|msg]; [|reflexivity].
  destruct (read_state p); reflexivity.
Qed.

(** C5.  An attempt on a job that fails every time it is made, with a
    message neither keyword table matches, is made exactly
    [max_retries + 1] times; the job then comes back failed, its error
    naming the number of retries and the message of the last attempt.
    The settings are in their ranges: no negative number of retries, no
    negative delay, and a longest backoff that [time.sleep] takes. *)
Theorem transient_failures_use_every_attempt :
  forall (self : BatchStockLLMAnalyzer)
         (single : string -> M StockAnalysisResult)
         (script : nat -> string -> outcome StockAnalysisResult)
         (job : string) (global_idx : Z) (w : world),
    0 <= max_retries self ->
    0 <= delay_between_requests self ->
    delay_between_requests self * 2 ^ max_retries self <= sleep_limit ->
    (forall w', single job w' = scripted script job w') ->
    (forall n, exists m,
        failure_message (script n job) = Some m /\ transient m) ->
    exists r w',
      analyze_with_retry_via self single job global_idx w = (Ok r, w')
      /\ is_failed r = true
      /\ symbol r = job
      /\ error r =
         Some ("重试" ++ Py.str_of_int (max_retries self) ++ "次后仍失败: "
               ++ Py.fmt_opt
                    (failure_message
                       (script (List.length (submitted w)
                                + Z.to_nat (max_retries self))%nat job)))
      /\ submitted w'
         = (submitted w ++ repeat job (Z.to_nat (max_retries self + 1)))%list
      /\ Z.of_nat (List.length (repeat job (Z.to_nat (max_retries self + 1))))
         = max_retries self + 1
      /\ self_results w' = self_results w.
Proof.
  intros self single script sym global_idx w Hretries Hdelay Hfit Hsingle
         Hfails.
  unfold analyze_with_retry_via.
  replace (Z.to_nat (max_retries self + 1))
    with (S (Z.to_nat (max_retries self))) by lia.
  assert (Hfails' : forall n, exists m,
             failure_message (script n sym) = Some m
             /\ (script n sym = Raise m -> transient m)).
  { intros n. destruct (Hfails n) as (m & Hm & Ht). exists m. auto. }
  destruct (retry_loop_exhausts self single script sym Hdelay Hfit Hsingle
              Hfails' (S (Z.to_nat (max_retries self))) 0 None w
              ltac:(lia) ltac:(lia))
    as (w' & Hrun & Hs & Hr).
  eexists. exists w'. split; [exact Hrun|].
  repeat split; try assumption.
  rewrite repeat_length. lia.
Qed.

(** ** Summary *)

Lemma no_success_all_failed (results : list StockAnalysisResult) :
  filter (fun r => negb (Py.truthy (error r))) results = [] ->
  forallb is_failed results = true.
Proof.
  induction results as [|r results IH]; [reflexivity|].
  cbn [filter forallb]. unfold is_failed at 1.
  destruct (Py.truthy (error r)); cbn [negb]; [|discriminate].
  exact IH.
Qed.

Lemma some_success_not_all_failed (results : list StockAnalysisResult) :
  filter (fun r => negb (Py.truthy (error r))) results <> [] ->
  forallb is_failed results = false.
Proof.
  induction results as [|r results IH]; [intros H; contradiction H; reflexivity|].
  cbn [filter forallb]. unfold is_failed at 1.
  destruct (Py.truthy (error r)); cbn [negb andb]; [exact IH | reflexivity].
Qed.

Lemma len_filter_le {A} (p : A -> bool) (l : list A) :
  Py.len (filter p l) <= Py.len l.
Proof.
  unfold Py.len. apply inj_le. induction l as [|a l IH]; [reflexivity|].
  cbn [filter]. destruct (p a); cbn [List.length]; lia.
Qed.

Lemma true_div_ok (a : Q) (b : Z) :
  b <> 0 -> true_div a b = Ok (a / inject_Z b)%Q.
Proof.
  intros Hb. unfold true_div. destruct (Z.eqb_spec b 0); [contradiction|reflexivity].
Qed.

(** C9.  [_generate_summary] returns a summary for every list of results
    and never raises: when every result carries an error it is the
    no-successes marker; otherwise it is the statistics, and the two
    divisors, the number of successful results and the number of results,
    are not zero. *)
Theorem summary_never_divides_by_zero :
  forall results : list StockAnalysisResult,
    let successful_results :=
      filter (fun r => negb (is_failed r)) results in
    exists s,
      _generate_summary results = Ok s
      /\ (forallb is_failed results = true ->
          s = NoSuccess "没有成功的分析结果")
      /\ (forallb is_failed results = false ->
          Py.len successful_results <> 0
          /\ Py.len results <> 0
          /\ exists st,
               s = Stats st
               /\ total_analyzed st = Py.len successful_results).
Proof.
  intros results. cbv zeta.
  unfold _generate_summary.
  change (filter (fun r => negb (Py.truthy (error r))) results)
    with (filter (fun r => negb (is_failed r)) results).
  pose proof (len_filter_le (fun r => negb (is_failed r)) results) as Hle.
  pose proof (no_success_all_failed results) as Hnone.
  pose proof (some_success_not_all_failed results) as Hsome.
  change (filter (fun r => negb (Py.truthy (error r))) results)
    with (filter (fun r => negb (is_failed r)) results) in Hnone, Hsome.
  revert Hle Hnone Hsome.
  destruct (filter (fun r => negb (is_failed r)) results) as [|r0 rest];
    intros Hle Hnone Hsome.
  - eexists. split; [reflexivity|]. split; [reflexivity|].
    intros Hnot. rewrite (Hnone eq_refl) in Hnot. discriminate.
  - assert (Hpos : Py.len (r0 :: rest) <> 0).
    { unfold Py.len. cbn [List.length]. lia. }
    assert (Hall : Py.len results <> 0).
    { unfold Py.len in Hle |- *. cbn [List.length] in Hle. lia. }
    destruct (fold_left summary_step (r0 :: rest) ([], 0%Q, []))
      as [[market_distribution avg_volatility] price_ranges].
    rewrite (true_div_ok _ _ Hpos), (true_div_ok _ _ Hall).
    eexists. split; [reflexivity|]. split.
    + intros Hallfailed. rewrite Hsome in Hallfailed; discriminate.
    + intros _. split; [exact Hpos|]. split; [exact Hall|].
      eexists. split; reflexivity.
Qed.

(** ** The batches *)

Lemma firstn_then_firstn {A} (a b : nat) (l : list A) :
  (firstn a l ++ firstn b (skipn a l))%list = firstn (a + b) l.
Proof.
  revert l. induction a as [|a IH]; intros l; [reflexivity|].
  destruct l as [|x l]; cbn [firstn skipn Nat.add app].
  - rewrite firstn_nil. reflexivity.
  - rewrite IH. reflexivity.
Qed.

Lemma chunks_prefix {A} (b : nat) (l : list A) (c : nat) :
  List.concat (map (fun k => firstn b (skipn (k * b) l)) (seq 0 c))
  = firstn (c * b) l.
Proof.
  induction c as [|c IH]; [reflexivity|].
  rewrite seq_S, map_app, concat_app, IH. cbn [Nat.add map List.concat].
  rewrite app_nil_r, firstn_then_firstn. f_equal. lia.
Qed.

(** A slice of [batch_size] elements that starts inside the list. *)
Lemma slice_chunk {A} (l : list A) (b k : nat) :
  (0 < b)%nat -> (k * b <= List.length l)%nat ->
  Py.slice l (Z.of_nat k * Z.of_nat b) (Z.of_nat k * Z.of_nat b + Z.of_nat b)
  = firstn b (skipn (k * b) l).
Proof.
  intros Hb Hk. unfold Py.slice, Py.clip, Py.len.
  destruct (Z.ltb_spec (Z.of_nat k * Z.of_nat b) 0); [lia|].
  destruct (Z.ltb_spec (Z.of_nat k * Z.of_nat b + Z.of_nat b) 0); [lia|].
  replace (Z.to_nat (Z.min (Z.of_nat k * Z.of_nat b) (Z.of_nat (List.length l))))
    with (k * b)%nat by lia.
  destruct (Nat.le_gt_cases (k * b + b) (List.length l)) as [Hin|Hout].
  - f_equal. lia.
  - replace (Z.to_nat (Z.min (Z.of_nat k * Z.of_nat b + Z.of_nat b)
                             (Z.of_nat (List.length l))) - k * b)%nat
      with (List.length (skipn (k * b) l)) by (rewrite length_skipn; lia).
    rewrite firstn_all, firstn_all2; [reflexivity|].
    rewrite length_skipn. lia.
Qed.

(** The batches, put end to end, are the symbol list. *)
Lemma batches_cover {A} (l : list A) (batch_size : Z) :
  0 < batch_size ->
  List.concat (map (fun i => Py.slice l i (i + batch_size))
              (Py.range_by (Py.len l) batch_size)) = l.
Proof.
  intros Hb. unfold Py.range_by.
  destruct (Z.ltb_spec 0 batch_size) as [_|]; [|lia].
  rewrite map_map.
  set (b := Z.to_nat batch_size).
  set (c := Z.to_nat (Z.max 0 ((Py.len l + batch_size - 1) / batch_size))).
  assert (Hbz : batch_size = Z.of_nat b) by (unfold b; lia).
  assert (Hbpos : (0 < b)%nat) by lia.
  assert (Hq : (Py.len l + batch_size - 1) / batch_size = Z.of_nat c).
  { unfold c. apply Z.div_pos with (b := batch_size) (a := Py.len l + batch_size - 1)
      in Hb as Hdiv; [lia | unfold Py.len; lia]. }
  assert (Hlow : (c * b < List.length l + b)%nat).
  { pose proof (Z.mul_div_le (Py.len l + batch_size - 1) batch_size Hb) as Hle.
    rewrite Hq in Hle. unfold Py.len in Hle. nia. }
  assert (Hhigh : (List.length l <= c * b)%nat).
  { pose proof (Z.mul_succ_div_gt (Py.len l + batch_size - 1) batch_size Hb) as Hgt.
    rewrite Hq in Hgt. unfold Py.len in Hgt. nia. }
  rewrite map_ext_in
    with (g := fun k => firstn b (skipn (k * b) l)).
  - rewrite chunks_prefix. apply firstn_all2. exact Hhigh.
  - intros k Hk. apply in_seq in Hk. rewrite Hbz.
    apply slice_chunk; [exact Hbpos|]. nia.
Qed.

Lemma generate_summary_returns (results : list StockAnalysisResult) :
  exists s, _generate_summary results = Ok s.
Proof.
  unfold _generate_summary.
  pose proof (len_filter_le (fun r => negb (Py.truthy (error r))) results) as Hle.
  revert Hle.
  destruct (filter (fun r => negb (Py.truthy (error r))) results) as [|r0 rest];
    intros Hle; [eexists; reflexivity|].
  destruct (fold_left summary_step (r0 :: rest) ([], 0%Q, []))
    as [[market_distribution avg_volatility] price_ranges].
  unfold Py.len in Hle. cbn [List.length] in Hle.
  rewrite !true_div_ok by (unfold Py.len; cbn [List.length]; lia).
  eexists; reflexivity.
Qed.

(** ** The run returns *)

Lemma save_accepted (self : BatchStockLLMAnalyzer) (b : BatchAnalysisResult)
  (w : world) :
  accepts (storage self) b -> total_symbols b <> 0 ->
  _save_results self b w = (Ok tt, w).
Proof.
  intros [Hfiles Hsummary] Htotal. unfold _save_results, report_success_rate.
  rewrite Hfiles, (true_div_ok _ _ Htotal), Hsummary. reflexivity.
Qed.

(** The placeholders are stored, and nothing else happens. *)
Lemma append_placeholders_stores (remaining : list string) :
  forall w,
    append_placeholders remaining w
    = (Ok tt,
       {| clock := clock w;
          submitted := submitted w;
          self_results :=
            self_results w
            ++ map (fun s => error_result s skipped_error) remaining |}).
Proof.
  induction remaining as [|s remaining IH]; intros w.
  - cbn [append_placeholders map]. rewrite app_nil_r. destruct w; reflexivity.
  - cbn [append_placeholders map]. unfold bind, append_result.
    rewrite IH. cbn [stored clock submitted self_results].
    rewrite <- app_assoc. reflexivity.
Qed.

Section Returns.

Variable self : BatchStockLLMAnalyzer.
Variable single : string -> M StockAnalysisResult.

Hypothesis waits : waits_in_range self.

(** One attempt may do anything, raising included, but it does not touch
    [self.results]. *)
Hypothesis leaves_results :
  forall job w, self_results (snd (single job w)) = self_results w.

Lemma pacing_fits : 0 <= delay_between_requests self <= sleep_limit.
Proof. exact (proj1 waits). Qed.

Lemma handler_returns (job : string) (attempt : Z) (m : string) (w : world) :
  0 <= attempt <= max_retries self ->
  exists e w',
    attempt_except self job attempt m w = (Ok e, w')
    /\ self_results w' = self_results w.
Proof.
  intros Hattempt. destruct waits as (Hd & Hfit & _).
  unfold attempt_except.
  destruct (_is_quota_exceeded_error m);
    [eexists; exists w; split; reflexivity|].
  destruct (_is_rate_limit_error m); unfold bind, when;
    destruct (attempt <? max_retries self);
    try rewrite sleep_ok
      by (apply extended_backoff_in_range with (retries := max_retries self);
          try assumption; lia);
    try rewrite sleep_ok by exact Hd;
    eexists; eexists; split; reflexivity.
Qed.

Lemma attempt_returns (job : string) (attempt : Z) (w : world) :
  0 <= attempt <= max_retries self ->
  exists e w',
    try_except (attempt_try self single job attempt)
               (attempt_except self job attempt) w = (Ok e, w')
    /\ self_results w' = self_results w.
Proof.
  intros Hattempt. destruct waits as (Hd & Hfit & _).
  unfold try_except, attempt_try, bind at 1, when.
  assert (Hwait : exists w1,
             (if 0 <? attempt
              then sleep (delay_between_requests self * 2 ^ attempt)
              else ret tt) w = (Ok tt, w1)
             /\ self_results w1 = self_results w).
  { destruct (0 <? attempt).
    - rewrite sleep_ok.
      + eexists; split; reflexivity.
      + pose proof (extended_backoff_in_range _ attempt _ (proj1 Hd) Hfit
                      Hattempt) as H5.
        pose proof (backoff_nonneg (delay_between_requests self) attempt
                      (proj1 Hd)) as H0.
        lia.
    - eexists; split; reflexivity. }
  destruct Hwait as (w1 & -> & Hres1).
  unfold bind. pose proof (leaves_results job w1) as Hres2.
  destruct (single job w1) as [[r|m] w2]; cbn [snd] in Hres2.
  - destruct (negb (Py.truthy (error r)));
      eexists; exists w2; (split; [reflexivity | congruence]).
  - destruct (handler_returns job attempt m w2 Hattempt)
      as (e & w' & -> & Hres).
    exists e, w'. split; [reflexivity | congruence].
Qed.

Lemma retry_loop_never_raises (job : string) (todo : nat) :
  forall (attempt : Z) (last_error : option string) (w : world),
    0 <= attempt ->
    attempt + Z.of_nat todo <= max_retries self + 1 ->
    exists r w',
      retry_loop self single job todo attempt last_error w = (Ok r, w')
      /\ self_results w' = self_results w.
Proof.
  induction todo as [|todo IH]; intros attempt last_error w Hattempt Hleft.
  - eexists; exists w. split; reflexivity.
  - cbn [retry_loop]. unfold bind at 1.
    destruct (attempt_returns job attempt w ltac:(lia))
      as ([r|err] & w1 & -> & Hres1).
    + exists r, w1. split; [reflexivity | exact Hres1].
    + destruct (IH (attempt + 1) (Some err) w1 ltac:(lia) ltac:(lia))
        as (r & w' & -> & Hres).
      exists r, w'. split; [reflexivity | congruence].
Qed.

Lemma retry_never_raises (job : string) (global_idx : Z) (w : world) :
  exists r w',
    analyze_with_retry_via self single job global_idx w = (Ok r, w')
    /\ self_results w' = self_results w.
Proof.
  unfold analyze_with_retry_via.
  destruct (Z.to_nat (max_retries self + 1)) as [|todo] eqn:Htodo.
  - eexists; exists w. split; reflexivity.
  - rewrite <- Htodo. apply retry_loop_never_raises; lia.
Qed.

Lemma batch_loop_never_raises (batch_idx batch_size batch_len : Z)
  (todo : list string) :
  forall (i : Z) (counts : Z * Z) (w : world),
    exists rs counts' w',
      batch_loop self single batch_idx batch_size batch_len todo i counts w
      = (Ok counts', w')
      /\ self_results w' = (self_results w ++ rs)%list
      /\ fst counts'
         = fst counts + Py.len (filter (fun r => negb (is_failed r)) rs)
      /\ snd counts <= snd counts'
      /\ fst counts' + snd counts'
         <= fst counts + snd counts + Py.len todo.
Proof.
  induction todo as [|job todo IH]; intros i [successful failed] w.
  - exists [], (successful, failed), w. cbn [batch_loop]. rewrite app_nil_r.
    unfold Py.len. cbn. repeat split; lia.
  - cbn [batch_loop].
    destruct (retry_never_raises job ((batch_idx - 1) * batch_size + i) w)
      as (r & w1 & Hretry & Hres).
    unfold bind at 1. rewrite Hretry.
    assert (Hgo : forall counts1,
               exists rs counts' w',
                 (append_result r ;;;
                  when (i <? batch_len) (sleep (delay_between_requests self)) ;;;
                  batch_loop self single batch_idx batch_size batch_len todo
                    (i + 1) counts1) w1 = (Ok counts', w')
                 /\ self_results w' = (self_results w ++ r :: rs)%list
                 /\ fst counts'
                    = fst counts1
                      + Py.len (filter (fun r => negb (is_failed r)) rs)
                 /\ snd counts1 <= snd counts'
                 /\ fst counts' + snd counts'
                    <= fst counts1 + snd counts1 + Py.len todo).
    { intros counts1. unfold bind, append_result, when.
      assert (Hpause : exists w2,
                 (if i <? batch_len
                  then sleep (delay_between_requests self)
                  else ret tt) (stored r w1) = (Ok tt, w2)
                 /\ self_results w2 = (self_results w1 ++ [r])%list).
      { destruct (i <? batch_len).
        - rewrite sleep_ok by exact pacing_fits.
          eexists; split; reflexivity.
        - eexists; split; reflexivity. }
      destruct Hpause as (w2 & -> & Hres2).
      destruct (IH (i + 1) counts1 w2)
        as (rs & counts' & w' & Hloop & Happ & Hok & Hko & Hsum).
      exists rs, counts', w'. split; [exact Hloop|]. split.
      - rewrite Happ, Hres2, Hres, <- app_assoc. reflexivity.
      - repeat split; assumption. }
    destruct (Py.truthy (error r)) eqn:Hfailed.
    + destruct (stop_on_quota_exceeded self
                && _is_quota_exceeded_error (Py.fmt_opt (error r)))%bool.
      * unfold bind. rewrite append_placeholders_stores.
        eexists. exists (successful, failed + 1). eexists.
        split; [reflexivity|]. cbn [self_results fst snd].
        split; [rewrite Hres; reflexivity|].
        assert (Hplaceholders : forall remaining,
                   filter (fun r => negb (is_failed r))
                          (map (fun s => error_result s skipped_error)
                               remaining) = []).
        { induction remaining as [|s remaining IHr]; [reflexivity|].
          cbn [map filter]. rewrite IHr. reflexivity. }
        rewrite Hplaceholders. unfold Py.len. cbn [List.length].
        repeat split; lia.
      * destruct (Hgo (successful, failed + 1))
          as (rs & counts' & w' & Hloop & Happ & Hok & Hko & Hsum).
        exists (r :: rs), counts', w'. split; [exact Hloop|].
        split; [exact Happ|].
        change (Py.truthy (error r)) with (is_failed r) in Hfailed.
        cbn [filter]. rewrite Hfailed. cbn [negb].
        unfold Py.len in *. cbn [fst snd List.length] in *.
        repeat split; lia.
    + destruct (Hgo (successful + 1, failed))
        as (rs & counts' & w' & Hloop & Happ & Hok & Hko & Hsum).
      exists (r :: rs), counts', w'. split; [exact Hloop|].
      split; [exact Happ|].
      change (Py.truthy (error r)) with (is_failed r) in Hfailed.
      cbn [filter]. rewrite Hfailed. cbn [negb].
      unfold Py.len in *. cbn [fst snd List.length] in *.
      repeat split; lia.
Qed.

Lemma batches_loop_never_raises (batch_size n_batches : Z)
  (todo : list (list string)) :
  forall (batch_idx : Z) (counts : Z * Z) (w : world),
    exists rs counts' w',
      batches_loop self single batch_size n_batches todo batch_idx counts w
      = (Ok counts', w')
      /\ self_results w' = (self_results w ++ rs)%list
      /\ fst counts'
         = fst counts + Py.len (filter (fun r => negb (is_failed r)) rs)
      /\ snd counts <= snd counts'
      /\ fst counts' + snd counts'
         <= fst counts + snd counts + Py.len (List.concat todo).
Proof.
  induction todo as [|batch todo IH]; intros batch_idx counts w.
  - exists [], counts, w. cbn [batches_loop List.concat]. rewrite app_nil_r.
    unfold Py.len. cbn. repeat split; lia.
  - cbn [batches_loop List.concat].
    destruct (batch_loop_never_raises batch_idx batch_size (Py.len batch)
                batch 1 counts w)
      as (rs1 & counts1 & w1 & Hbatch & Happ1 & Hok1 & Hko1 & Hsum1).
    unfold bind at 1. rewrite Hbatch.
    unfold bind at 1, when.
    assert (Hpause : exists w2,
               (if batch_idx <? n_batches
                then sleep (delay_between_requests self
                            * batch_delay_multiplier self)
                else ret tt) w1 = (Ok tt, w2)
               /\ self_results w2 = self_results w1).
    { destruct waits as (Hd & _ & Hm & Hfit).
      destruct (batch_idx <? n_batches).
      - rewrite sleep_ok by (split; [apply Z.mul_nonneg_nonneg; lia | exact Hfit]).
        eexists; split; reflexivity.
      - eexists; split; reflexivity. }
    destruct Hpause as (w2 & -> & Hres2).
    destruct (IH (batch_idx + 1) counts1 w2)
      as (rs2 & counts' & w' & Hloop & Happ & Hok & Hko & Hsum).
    exists (rs1 ++ rs2)%list, counts', w'. split; [exact Hloop|]. split.
    + rewrite Happ, Hres2, Happ1, <- app_assoc. reflexivity.
    + rewrite !filter_app. unfold Py.len in *. rewrite !length_app.
      repeat split; lia.
Qed.

End Returns.

(** The run in general: with the waits in range and storage that accepts
    the result it returns, and its counters are bounded. *)
Lemma run_returns :
  forall (self : BatchStockLLMAnalyzer)
         (single : string -> M StockAnalysisResult) (w : world),
    1 <= max_concurrent self ->
    symbols self <> [] ->
    waits_in_range self ->
    (forall b, accepts (storage self) b) ->
    (forall job w0, self_results (snd (single job w0)) = self_results w0) ->
    exists b w' rs,
      run_batch_analysis_via self single w = (Ok b, w')
      /\ results b = (self_results w ++ rs)%list
      /\ total_symbols b = Py.len (symbols self)
      /\ successful_analyses b
         = Py.len (filter (fun r => negb (is_failed r)) rs)
      /\ 0 <= failed_analyses b
      /\ successful_analyses b + failed_analyses b <= total_symbols b.
Proof.
  intros self single w Hconcurrent Hjobs Hwaits Haccepts Hleaves.
  unfold run_batch_analysis_via, symbol_batches.
  set (batch_size := Z.min (max_concurrent self) (Py.len (symbols self))).
  assert (Hlen : 0 < Py.len (symbols self)).
  { unfold Py.len. destruct (symbols self);
      [congruence | cbn [List.length]; lia]. }
  assert (Hsize : 0 < batch_size) by (unfold batch_size; lia).
  destruct (Z.eqb_spec batch_size 0) as [|_]; [lia|].
  unfold bind at 1, ret at 1.
  set (batches := map (fun i => Py.slice (symbols self) i (i + batch_size))
                      (Py.range_by (Py.len (symbols self)) batch_size)).
  destruct (batches_loop_never_raises self single Hwaits Hleaves
              batch_size (Py.len batches) batches 1 (0, 0) w)
    as (rs & counts & w' & Hloop & Happ & Hok & Hko & Hsum).
  unfold bind at 1. rewrite Hloop.
  destruct (generate_summary_returns (self_results w')) as [s Hs].
  unfold bind at 1. rewrite Hs.
  unfold bind. rewrite save_accepted;
    [|apply Haccepts | cbn [total_symbols]; lia].
  eexists. exists w', rs. split; [reflexivity|].
  cbn [results total_symbols successful_analyses failed_analyses].
  split; [exact Happ|]. split; [reflexivity|].
  unfold batches in Hsum. rewrite (batches_cover _ _ Hsize) in Hsum.
  cbn [fst snd] in *. repeat split; lia.
Qed.

(** ** The run over attempts that never raise a quota message *)

Section Quiet.

Variable self : BatchStockLLMAnalyzer.
Variable single : string -> M StockAnalysisResult.

(** An attempt comes back with a result for the job it was given, never
    with an exception; it leaves [self.results] alone, and its error, when
    it has one, is no quota message. *)
Hypothesis quiet :
  forall job w, exists r w1,
    single job w = (Ok r, w1)
    /\ self_results w1 = self_results w
    /\ symbol r = job
    /\ _is_quota_exceeded_error (Py.fmt_opt (error r)) = false.

(** One pass through the body of the retry loop, when it does not
    raise: it ends on a result of the job that does not fire the quota
    stop, or goes on with a message that is no quota message. *)
Lemma attempt_quiet (job : string) (attempt : Z) (w w1 : world)
  (e : attempt_end) :
  try_except (attempt_try self single job attempt)
             (attempt_except self job attempt) w = (Ok e, w1) ->
  self_results w1 = self_results w
  /\ match e with
     | Return r => symbol r = job /\ fires_quota_stop self r = false
     | Next err => _is_quota_exceeded_error err = false
     end.
Proof.
  assert (Hhandler : forall m w0,
             _is_quota_exceeded_error m = false ->
             _is_rate_limit_error m = false ->
             attempt_except self job attempt m w0 = (Ok e, w1) ->
             self_results w1 = self_results w0
             /\ match e with
                | Return r => symbol r = job /\ fires_quota_stop self r = false
                | Next err => _is_quota_exceeded_error err = false
                end).
  { intros m w0 Hq Hrl H. unfold attempt_except in H.
    rewrite Hq, Hrl in H. unfold bind, when in H.
    destruct (attempt <? max_retries self).
    - destruct (sleep_outcome (delay_between_requests self) w0)
        as [Hs | (m' & Hs & _)]; rewrite Hs in H; [|discriminate H].
      unfold ret in H. injection H as <- <-. split; [reflexivity | exact Hq].
    - unfold ret in H. injection H as <- <-. split; [reflexivity | exact Hq]. }
  assert (Hattempt : forall w0,
             (result <- single job ;;
              if negb (Py.truthy (error result)) then ret (Return result)
              else ret (Next (Py.fmt_opt (error result)))) w0 = (Ok e, w1) ->
             self_results w1 = self_results w0
             /\ match e with
                | Return r => symbol r = job /\ fires_quota_stop self r = false
                | Next err => _is_quota_exceeded_error err = false
                end).
  { intros w0 H. unfold bind in H.
    destruct (quiet job w0) as (r0 & w2 & Hsingle & Hres & Hsym & Hq).
    rewrite Hsingle in H.
    destruct (Py.truthy (error r0)) eqn:Hfailed; cbn [negb] in H;
      unfold ret in H; injection H as <- <-.
    - split; [exact Hres | exact Hq].
    - split; [exact Hres|]. split; [exact Hsym|].
      unfold fires_quota_stop. rewrite Hfailed. reflexivity. }
  intros Hstep. unfold try_except, attempt_try, when in Hstep.
  unfold bind at 1 in Hstep.
  destruct (0 <? attempt).
  - destruct (sleep_outcome (delay_between_requests self * 2 ^ attempt) w)
      as [Hs | (m & Hs & Hq & Hrl)]; rewrite Hs in Hstep.
    + match type of Hstep with
      | match ?body with _ => _ end = _ =>
          destruct body as [[e0|m0] w2] eqn:Hbody
      end.
      * injection Hstep as <- <-. apply Hattempt in Hbody. exact Hbody.
      * exfalso. unfold bind in Hbody.
        destruct (quiet job (advance (delay_between_requests self * 2 ^ attempt) w))
          as (r0 & w3 & Hsingle & _).
        rewrite Hsingle in Hbody.
        destruct (negb (Py.truthy (error r0))); discriminate Hbody.
    + apply (Hhandler m w Hq Hrl Hstep).
  - unfold ret at 1 in Hstep.
    match type of Hstep with
    | match ?body with _ => _ end = _ =>
        destruct body as [[e0|m0] w2] eqn:Hbody
    end.
    + injection Hstep as <- <-. apply Hattempt in Hbody. exact Hbody.
    + exfalso. unfold bind in Hbody.
      destruct (quiet job w) as (r0 & w3 & Hsingle & _).
      rewrite Hsingle in Hbody.
      destruct (negb (Py.truthy (error r0))); discriminate Hbody.
Qed.

(** Whatever the retry loop returns is an outcome of the job that does not
    fire the quota stop. *)
Lemma retry_loop_quiet (job : string) (todo : nat) :
  forall (attempt : Z) (last_error : option string) (w w' : world)
         (r : StockAnalysisResult),
    _is_quota_exceeded_error (Py.fmt_opt last_error) = false ->
    retry_loop self single job todo attempt last_error w = (Ok r, w') ->
    symbol r = job
    /\ self_results w' = self_results w
    /\ fires_quota_stop self r = false.
Proof.
  induction todo as [|todo IH]; intros attempt last_error w w' r Hlast Hrun.
  - assert (Hr : r = error_result job (exhausted_error self last_error)
                 /\ w' = w)
      by (cbn [retry_loop] in Hrun; unfold ret in Hrun;
          injection Hrun as <- <-; split; reflexivity).
    destruct Hr as [-> ->].
    split; [reflexivity|]. split; [reflexivity|].
    unfold fires_quota_stop.
    change (error (error_result job (exhausted_error self last_error)))
      with (Some (exhausted_error self last_error)).
    cbn [Py.fmt_opt].
    rewrite exhausted_error_quota, Hlast, !andb_false_r. reflexivity.
  - cbn [retry_loop] in Hrun. unfold bind at 1 in Hrun.
    destruct (try_except (attempt_try self single job attempt)
                (attempt_except self job attempt) w)
      as [[e|m] w1] eqn:Hstep; [|discriminate Hrun].
    apply attempt_quiet in Hstep as [Hres1 He].
    destruct e as [r0|err].
    + unfold ret in Hrun. injection Hrun as <- <-.
      destruct He as [Hsym Hstop]. repeat split; assumption.
    + apply IH in Hrun; [|exact He].
      destruct Hrun as (Hsym & Hres & Hstop).
      split; [exact Hsym|]. split; [congruence | exact Hstop].
Qed.

(** The outcomes a batch stores, when its loop comes to an end: one per
    job, in the order of the jobs, each counted once. *)
Lemma batch_loop_quiet (batch_idx batch_size batch_len : Z)
  (todo : list string) :
  forall (i : Z) (counts counts' : Z * Z) (w w' : world),
    batch_loop self single batch_idx batch_size batch_len todo i counts w
    = (Ok counts', w') ->
    exists rs,
      self_results w' = (self_results w ++ rs)%list
      /\ map symbol rs = todo
      /\ Forall (fun r => fires_quota_stop self r = false) rs
      /\ fst counts'
         = fst counts + Py.len (filter (fun r => negb (is_failed r)) rs)
      /\ snd counts' = snd counts + Py.len (filter is_failed rs).
Proof.
  induction todo as [|job todo IH];
    intros i [successful failed] counts' w w' Hloop.
  - cbn [batch_loop] in Hloop. unfold ret in Hloop. injection Hloop as <- <-.
    exists []. rewrite app_nil_r. unfold Py.len. cbn.
    repeat split; try lia. constructor.
  - cbn [batch_loop] in Hloop. unfold bind at 1 in Hloop.
    destruct (analyze_with_retry_via self single job
                ((batch_idx - 1) * batch_size + i) w)
      as [[r|m] w1] eqn:Hretry; [|discriminate Hloop].
    unfold analyze_with_retry_via in Hretry.
    apply retry_loop_quiet in Hretry; [|vm_compute; reflexivity].
    destruct Hretry as (Hsym & Hres & Hstop).
    assert (Hgo : forall counts1,
               (append_result r ;;;
                when (i <? batch_len) (sleep (delay_between_requests self)) ;;;
                batch_loop self single batch_idx batch_size batch_len todo
                  (i + 1) counts1) w1 = (Ok counts', w') ->
               exists rs,
                 self_results w' = (self_results w ++ r :: rs)%list
                 /\ map symbol rs = todo
                 /\ Forall (fun r => fires_quota_stop self r = false) rs
                 /\ fst counts'
                    = fst counts1
                      + Py.len (filter (fun r => negb (is_failed r)) rs)
                 /\ snd counts' = snd counts1 + Py.len (filter is_failed rs)).
    { intros counts1 H. unfold bind, append_result, when in H.
      destruct (i <? batch_len).
      - destruct (sleep_outcome (delay_between_requests self) (stored r w1))
          as [Hs | (m & Hs & _)]; rewrite Hs in H; [|discriminate H].
        apply IH in H as (rs & Happ & Hmap & Hall & Hok & Hko).
        exists rs. split; [|repeat split; assumption].
        rewrite Happ. cbn [advance stored self_results].
        rewrite Hres, <- app_assoc. reflexivity.
      - unfold ret at 1 in H.
        apply IH in H as (rs & Happ & Hmap & Hall & Hok & Hko).
        exists rs. split; [|repeat split; assumption].
        rewrite Happ. cbn [stored self_results].
        rewrite Hres, <- app_assoc. reflexivity. }
    unfold fires_quota_stop in Hstop.
    destruct (Py.truthy (error r)) eqn:Hfailed.
    + cbn [andb] in Hstop. rewrite Hstop in Hloop.
      apply Hgo in Hloop as (rs & Happ & Hmap & Hall & Hok & Hko).
      exists (r :: rs). split; [exact Happ|].
      split; [cbn [map]; congruence|].
      split; [constructor; [unfold fires_quota_stop; rewrite Hfailed; exact Hstop
                           | exact Hall]|].
      change (Py.truthy (error r)) with (is_failed r) in Hfailed.
      cbn [filter]. rewrite Hfailed. cbn [negb].
      unfold Py.len in *. cbn [fst snd List.length] in *. split; lia.
    + apply Hgo in Hloop as (rs & Happ & Hmap & Hall & Hok & Hko).
      exists (r :: rs). split; [exact Happ|].
      split; [cbn [map]; congruence|].
      split; [constructor; [unfold fires_quota_stop; rewrite Hfailed; reflexivity
                           | exact Hall]|].
      change (Py.truthy (error r)) with (is_failed r) in Hfailed.
      cbn [filter]. rewrite Hfailed. cbn [negb].
      unfold Py.len in *. cbn [fst snd List.length] in *. split; lia.
Qed.

Lemma batches_loop_quiet (batch_size n_batches : Z)
  (todo : list (list string)) :
  forall (batch_idx : Z) (counts counts' : Z * Z) (w w' : world),
    batches_loop self single batch_size n_batches todo batch_idx counts w
    = (Ok counts', w') ->
    exists rs,
      self_results w' = (self_results w ++ rs)%list
      /\ map symbol rs = List.concat todo
      /\ Forall (fun r => fires_quota_stop self r = false) rs
      /\ fst counts'
         = fst counts + Py.len (filter (fun r => negb (is_failed r)) rs)
      /\ snd counts' = snd counts + Py.len (filter is_failed rs).
Proof.
  induction todo as [|batch todo IH]; intros batch_idx counts counts' w w' Hloop.
  - cbn [batches_loop] in Hloop. unfold ret in Hloop. injection Hloop as <- <-.
    exists []. rewrite app_nil_r. unfold Py.len. cbn.
    repeat split; try lia. constructor.
  - cbn [batches_loop] in Hloop. unfold bind at 1 in Hloop.
    destruct (batch_loop self single batch_idx batch_size (Py.len batch)
                batch 1 counts w) as [[counts1|m] w1] eqn:Hbatch;
      [|discriminate Hloop].
    apply batch_loop_quiet in Hbatch
      as (rs1 & Happ1 & Hmap1 & Hall1 & Hok1 & Hko1).
    unfold bind at 1, when in Hloop.
    assert (Hrest : exists w2,
               self_results w2 = self_results w1
               /\ batches_loop self single batch_size n_batches todo
                    (batch_idx + 1) counts1 w2 = (Ok counts', w')).
    { destruct (batch_idx <? n_batches).
      - destruct (sleep_outcome
                    (delay_between_requests self * batch_delay_multiplier self)
                    w1) as [Hs | (m & Hs & _)]; rewrite Hs in Hloop;
          [|discriminate Hloop].
        eexists. split; [|exact Hloop]. reflexivity.
      - unfold ret at 1 in Hloop. exists w1. split; [reflexivity | exact Hloop]. }
    destruct Hrest as (w2 & Hres2 & Hloop2).
    apply IH in Hloop2 as (rs2 & Happ2 & Hmap2 & Hall2 & Hok2 & Hko2).
    exists (rs1 ++ rs2)%list. split.
    + rewrite Happ2, Hres2, Happ1, <- app_assoc. reflexivity.
    + split; [cbn [List.concat]; rewrite map_app; congruence|].
      split; [apply Forall_app; split; assumption|].
      rewrite !filter_app. unfold Py.len in *. rewrite !length_app.
      split; lia.
Qed.

(** The result of a run that returns: one outcome per symbol, in the
    order of the symbols, none of them a quota stop, and the counters are
    the numbers of outcomes without and with an error. *)
Lemma run_quiet (w w' : world) (b : BatchAnalysisResult) :
  1 <= max_concurrent self ->
  run_batch_analysis_via self single w = (Ok b, w') ->
  exists rs,
    results b = (self_results w ++ rs)%list
    /\ map symbol rs = symbols self
    /\ Forall (fun r => fires_quota_stop self r = false) rs
    /\ total_symbols b = Py.len rs
    /\ successful_analyses b
       = Py.len (filter (fun r => negb (is_failed r)) rs)
    /\ failed_analyses b = Py.len (filter is_failed rs).
Proof.
  intros Hconcurrent Hrun.
  unfold run_batch_analysis_via, symbol_batches in Hrun.
  set (batch_size := Z.min (max_concurrent self) (Py.len (symbols self)))
    in Hrun.
  destruct (Z.eqb_spec batch_size 0) as [|Hsize]; [discriminate Hrun|].
  assert (Hpos : 0 < batch_size).
  { unfold batch_size, Py.len in *. lia. }
  unfold bind at 1, ret at 1 in Hrun.
  set (batches := map (fun i => Py.slice (symbols self) i (i + batch_size))
                      (Py.range_by (Py.len (symbols self)) batch_size))
    in Hrun.
  unfold bind at 1 in Hrun.
  destruct (batches_loop self single batch_size (Py.len batches) batches 1
              (0, 0) w) as [[counts|m] w1] eqn:Hloop; [|discriminate Hrun].
  apply batches_loop_quiet in Hloop as (rs & Happ & Hmap & Hall & Hok & Hko).
  unfold batches in Hmap. rewrite (batches_cover _ _ Hpos) in Hmap.
  unfold bind at 1 in Hrun.
  destruct (_generate_summary (self_results w1)) as [s|m];
    [|discriminate Hrun].
  unfold bind in Hrun.
  destruct (_save_results self _ w1) as [[[]|m] w2]; [|discriminate Hrun].
  unfold ret in Hrun. cbv beta in Hrun. injection Hrun as <- <-.
  exists rs. cbn [results total_symbols successful_analyses failed_analyses].
  split; [exact Happ|]. split; [exact Hmap|]. split; [exact Hall|].
  split; [unfold Py.len; rewrite <- Hmap, length_map; reflexivity|].
  cbn [fst snd] in Hok, Hko. split; lia.
Qed.

End Quiet.

(** ** The repository's own analyzer *)

(** Behind [TradingAgentsAnalyzer.analyze_stock] no failure of the graph
    reaches the orchestrator: an attempt never raises, the only error it
    can come back with is the [TypeError] of reading a state that is a
    [str], and that is no quota message. *)
Lemma own_analyzer_quiet (self : BatchStockLLMAnalyzer) (has_graph : bool)
  (propagate : nat -> string -> EngineReply) :
  llm_analyzer self = TradingAgentsAnalyzer has_graph propagate ->
  forall job w, exists r w1,
    _analyze_single_stock self job w = (Ok r, w1)
    /\ self_results w1 = self_results w
    /\ symbol r = job
    /\ _is_quota_exceeded_error (Py.fmt_opt (error r)) = false.
Proof.
  intros Hown job w.
  unfold _analyze_single_stock, try_except, bind, analyze_stock,
    extract_result. rewrite Hown.
  cbn [TradingAgentsAnalyzer graph reply].
  destruct has_graph; cbn [negb].
  - destruct (propagate (List.length (submitted w)) job) as [p|msg].
    + destruct (read_state p) as [stats|e] eqn:Hread.
      * eexists. eexists. split; [reflexivity|]. repeat split.
      * assert (e = string_index_error) as ->.
        { unfold read_state in Hread.
          destruct p as [[i [[d ps|[|c text]]|]]|];
            cbn [raw_state] in Hread; try discriminate Hread.
          destruct (Py.str_in "data_period" (String c text));
            [injection Hread as <-; reflexivity|].
          destruct (Py.str_in "price_stats" (String c text));
            [injection Hread as <-; reflexivity | discriminate Hread]. }
        eexists. eexists. split; [reflexivity|]. repeat split.
    + eexists. eexists. split; [reflexivity|]. repeat split.
  - eexists. eexists. split; [reflexivity|]. repeat split.
Qed.

(** ** The claims on the run *)

(** C1, at failing inputs.  One job under the default settings
    ([max_retries = 3], [delay_between_requests = 3]) and an engine out of
    quota: the failure comes back from [_analyze_single_stock] as
    [result.error], which the retry loop does not classify, so the job is
    attempted four times, with [3*2 + 3*4 + 3*8 = 42] seconds of backoff,
    before it fails.  With the repository's own analyzer in between, the
    failure of the graph is turned into [None]: both jobs of a two-job run
    come back without an error, are counted as successes, and the second
    one is submitted as if nothing had happened. *)
Theorem quota_failure_is_retried :
  _analyze_with_retry one_job_out_of_quota "AAPL" 1 fresh
  = (Ok (error_result "AAPL" ("重试3次后仍失败: " ++ quota_message)),
     {| clock := 42;
        submitted := ["AAPL"; "AAPL"; "AAPL"; "AAPL"];
        self_results := [] |})
  /\ (let run := run_batch_analysis
                   (default_settings ["AAPL"; "MSFT"] graph_out_of_quota)
                   fresh in
      exists b,
        fst run = Ok b
        /\ map error (results b) = [None; None]
        /\ successful_analyses b = 2
        /\ failed_analyses b = 0
        /\ submitted (snd run) = ["AAPL"; "MSFT"]).
Proof.
  split; [vm_compute; reflexivity|].
  eexists. vm_compute. repeat split; reflexivity.
Qed.


(** C3.  With the analyzer the program builds, whatever its graph does on
    any call (answers, failures, quota failures included), a run on a
    fresh [self.results] with [max_concurrent] at least 1 that returns a
    result returns exactly one outcome per input symbol: the outcomes
    match the symbols one for one, every symbol has as many outcomes as
    it has entries in the input, and [self.results] holds just these
    outcomes.  The run does return when there is at least one symbol, the
    waits are lengths [time.sleep] takes and the results can be
    written. *)
Theorem one_outcome_per_job :
  forall (self : BatchStockLLMAnalyzer) (has_graph : bool)
         (propagate : nat -> string -> EngineReply) (w : world),
    llm_analyzer self = TradingAgentsAnalyzer has_graph propagate ->
    1 <= max_concurrent self ->
    self_results w = [] ->
    (forall b w',
        run_batch_analysis self w = (Ok b, w') ->
        Forall2 (fun job r => symbol r = job) (symbols self) (results b)
        /\ (forall job,
               count_occ string_dec (map symbol (results b)) job
               = count_occ string_dec (symbols self) job)
        /\ total_symbols b = Py.len (results b)
        /\ self_results w' = results b)
    /\ (symbols self <> [] ->
        waits_in_range self ->
        (forall b, accepts (storage self) b) ->
        exists b w', run_batch_analysis self w = (Ok b, w')).
Proof.
  intros self has_graph propagate w Hown Hconcurrent Hfresh. split.
  - intros b w' Hrun.
    assert (Hsaved : self_results w' = results b).
    { unfold run_batch_analysis, run_batch_analysis_via in Hrun.
      unfold bind at 1 in Hrun.
      destruct (symbol_batches self _ w) as [[batches|m] w0];
        [|discriminate Hrun].
      unfold bind at 1 in Hrun.
      destruct (batches_loop self _ _ _ batches 1 (0, 0) w0)
        as [[counts|m] w1]; [|discriminate Hrun].
      unfold bind at 1 in Hrun.
      destruct (_generate_summary (self_results w1)) as [s|m];
        [|discriminate Hrun].
      unfold bind in Hrun. unfold _save_results in Hrun.
      destruct (write_files (storage self) _); [discriminate Hrun|].
      destruct (report_success_rate _); [|discriminate Hrun].
      destruct (write_summary (storage self) _); [discriminate Hrun|].
      unfold ret in Hrun. cbv beta in Hrun. injection Hrun as <- <-.
      reflexivity. }
    destruct (run_quiet self (_analyze_single_stock self)
                (own_analyzer_quiet self has_graph propagate Hown)
                w w' b Hconcurrent Hrun)
      as (rs & Hres & Hmap & _ & Htotal & _).
    rewrite Hfresh in Hres. cbn [app] in Hres. subst rs.
    split; [|split; [|split; [exact Htotal | exact Hsaved]]].
    + rewrite <- Hmap. clear.
      induction (results b) as [|r rs IH]; constructor;
        [reflexivity | exact IH].
    + intros job. rewrite Hmap. reflexivity.
  - intros Hjobs Hwaits Haccepts.
    destruct (run_returns self (_analyze_single_stock self) w
                Hconcurrent Hjobs Hwaits Haccepts)
      as (b & w' & _ & Hrun & _).
    + intros job w0.
      destruct (own_analyzer_quiet self has_graph propagate Hown job w0)
        as (r & w1 & -> & Hres & _). exact Hres.
    + exists b, w'. exact Hrun.
Qed.

(** C4.  With the analyzer the program builds, whatever its graph does,
    the outcomes of a run on a fresh [self.results] with [max_concurrent]
    at least 1 are in the order of the input list: the symbols of the
    outcomes, read in order, are the input list.  Such a result is
    returned when there is at least one symbol, the waits are lengths
    [time.sleep] takes and the results can be written. *)
Theorem outcomes_follow_input_order :
  forall (self : BatchStockLLMAnalyzer) (has_graph : bool)
         (propagate : nat -> string -> EngineReply) (w : world),
    llm_analyzer self = TradingAgentsAnalyzer has_graph propagate ->
    1 <= max_concurrent self ->
    self_results w = [] ->
    (forall b w',
        run_batch_analysis self w = (Ok b, w') ->
        map symbol (results b) = symbols self)
    /\ (symbols self <> [] ->
        waits_in_range self ->
        (forall b, accepts (storage self) b) ->
        exists b w',
          run_batch_analysis self w = (Ok b, w')
          /\ map symbol (results b) = symbols self).
Proof.
  intros self has_graph propagate w Hown Hconcurrent Hfresh.
  assert (Horder : forall b w',
             run_batch_analysis self w = (Ok b, w') ->
             map symbol (results b) = symbols self).
  { intros b w' Hrun.
    destruct (run_quiet self (_analyze_single_stock self)
                (own_analyzer_quiet self has_graph propagate Hown)
                w w' b Hconcurrent Hrun)
      as (rs & Hres & Hmap & _).
    rewrite Hfresh in Hres. cbn [app] in Hres. congruence. }
  split; [exact Horder|].
  intros Hjobs Hwaits Haccepts.
  destruct (run_returns self (_analyze_single_stock self) w
              Hconcurrent Hjobs Hwaits Haccepts)
    as (b & w' & _ & Hrun & _).
  - intros job w0.
    destruct (own_analyzer_quiet self has_graph propagate Hown job w0)
      as (r & w1 & -> & Hres & _). exact Hres.
  - exists b, w'. split; [exact Hrun|]. exact (Horder b w' Hrun).
Qed.

(** C6, at a failing input.  [max_retries = 2],
    [delay_between_requests = 1] and a graph that raises the throttling
    error on its first two calls: [analyze_stock] turns the first failure
    into [None], so the first attempt comes back without an error and
    without an analysis.  The job is attempted once, nothing is waited
    for, and the wait of 15 never happens. *)
Theorem throttled_graph_is_not_waited_for :
  rate_limited throttle_message
  /\ max_retries (two_retries throttled_twice) = 2
  /\ delay_between_requests (two_retries throttled_twice) = 1
  /\ (let run :=
        _analyze_with_retry (two_retries throttled_twice) "AAPL" 1 fresh in
      exists r,
        fst run = Ok r
        /\ error r = None
        /\ llm_insights r = None
        /\ submitted (snd run) = ["AAPL"]
        /\ clock (snd run) = 0
        /\ clock (snd run) <> 1 * 5 * 2 ^ 0 + 1 * 5 * 2 ^ 1).
Proof.
  split; [split; vm_compute; reflexivity|].
  split; [reflexivity|]. split; [reflexivity|].
  eexists. vm_compute. repeat split; try reflexivity. discriminate.
Qed.

(** ** The theorems at concrete inputs *)

(** C5 on the program's own functions: default settings, and a graph
    whose state comes back as the [str] of an object on every call, which
    the reading of ['data_period'] fails on. *)
Lemma transient_failures_use_every_attempt_witness :
  let self := default_settings ["AAPL"] graph_with_text_state in
  let script := fun (_ : nat) (s : string) =>
                  Ok (error_result s string_index_error) in
  (0 <= max_retries self
   /\ 0 <= delay_between_requests self
   /\ delay_between_requests self * 2 ^ max_retries self <= sleep_limit
   /\ (forall w', _analyze_single_stock self "AAPL" w'
                  = scripted script "AAPL" w')
   /\ (forall n, exists m,
         failure_message (script n "AAPL") = Some m /\ transient m))
  /\ exists r w',
       _analyze_with_retry self "AAPL" 1 fresh = (Ok r, w')
       /\ is_failed r = true
       /\ error r
          = Some ("重试3次后仍失败: " ++ string_index_error)
       /\ submitted w' = ["AAPL"; "AAPL"; "AAPL"; "AAPL"].
Proof.
  intros self script.
  assert (H1 : 0 <= max_retries self) by (cbn; lia).
  assert (H2 : 0 <= delay_between_requests self) by (cbn; lia).
  assert (H2' : delay_between_requests self * 2 ^ max_retries self
                <= sleep_limit) by (vm_compute; discriminate).
  assert (H3 : forall w', _analyze_single_stock self "AAPL" w'
                          = scripted script "AAPL" w')
    by (intros w'; reflexivity).
  assert (H4 : forall n, exists m,
               failure_message (script n "AAPL") = Some m /\ transient m).
  { intros n. exists string_index_error.
    split; [reflexivity|]. split; vm_compute; reflexivity. }
  split; [repeat split; assumption|].
  destruct (transient_failures_use_every_attempt
              self (_analyze_single_stock self) script "AAPL" 1 fresh
              H1 H2 H2' H3 H4)
    as (r & w' & Hrun & Hfailed & _ & Herr & Hsub & _).
  exists r, w'. repeat split; assumption.
Defined.

(** C3 on five jobs in batches of two, the graph out of quota for the
    third one. *)
Lemma one_outcome_per_job_witness :
  (llm_analyzer five_jobs = graph_out_of_quota_for "GOOG"
   /\ 1 <= max_concurrent five_jobs
   /\ self_results fresh = [])
  /\ exists b w',
       run_batch_analysis five_jobs fresh = (Ok b, w')
       /\ Forall2 (fun job r => symbol r = job)
                  ["AAPL"; "MSFT"; "GOOG"; "AMZN"; "TSLA"] (results b)
       /\ total_symbols b = Py.len (results b).
Proof.
  assert (H1 : llm_analyzer five_jobs = graph_out_of_quota_for "GOOG")
    by reflexivity.
  assert (H2 : 1 <= max_concurrent five_jobs) by (cbn; lia).
  assert (H3 : self_results fresh = []) by reflexivity.
  split; [repeat split; assumption|].
  destruct (one_outcome_per_job five_jobs true _ fresh H1 H2 H3)
    as [Hshape Hreturns].
  destruct Hreturns as (b & w' & Hrun).
  - discriminate.
  - unfold waits_in_range, sleep_limit. cbn. lia.
  - intros b. split; reflexivity.
  - exists b, w'. split; [exact Hrun|].
    destruct (Hshape b w' Hrun) as (Hall & _ & Htotal & _).
    split; [exact Hall | exact Htotal].
Defined.

(** C4 on the same run. *)
Lemma outcomes_follow_input_order_witness :
  (llm_analyzer five_jobs = graph_out_of_quota_for "GOOG"
   /\ 1 <= max_concurrent five_jobs
   /\ self_results fresh = [])
  /\ exists b w',
       run_batch_analysis five_jobs fresh = (Ok b, w')
       /\ map symbol (results b) = ["AAPL"; "MSFT"; "GOOG"; "AMZN"; "TSLA"].
Proof.
  assert (H1 : llm_analyzer five_jobs = graph_out_of_quota_for "GOOG")
    by reflexivity.
  assert (H2 : 1 <= max_concurrent five_jobs) by (cbn; lia).
  assert (H3 : self_results fresh = []) by reflexivity.
  split; [repeat split; assumption|].
  destruct (outcomes_follow_input_order five_jobs true _ fresh H1 H2 H3)
    as [_ Hreturns].
  apply Hreturns.
  - discriminate.
  - unfold waits_in_range, sleep_limit. cbn. lia.
  - intros b. split; reflexivity.
Defined.

(** C7 on the 163 list with every login refused: the SSL attempt on 465 is
    the only one made. *)
Lemma send_stops_at_authentication_failure_witness :
  (nth_error (snd (try_configs login_refused sender_163 report 0 configs_163)) 0
   = Some ssl_465
   /\ attempt_result login_refused sender_163 report 0 ssl_465 = AuthFailure)
  /\ fst (try_configs login_refused sender_163 report 0 configs_163) = false
  /\ snd (try_configs login_refused sender_163 report 0 configs_163) = [ssl_465].
Proof.
  assert (H1 : nth_error
                 (snd (try_configs login_refused sender_163 report 0 configs_163)) 0
               = Some ssl_465) by reflexivity.
  assert (H2 : attempt_result login_refused sender_163 report 0 ssl_465
               = AuthFailure) by reflexivity.
  split; [split; assumption|].
  destruct (send_stops_at_authentication_failure
              login_refused sender_163 report configs_163 0 ssl_465 H1 H2)
    as (Hf & Ht & _).
  split; assumption.
Defined.

(** C8 on the 163 list with the SSL port unreachable: the plain attempt on
    25 is made next and succeeds. *)
Lemma send_fails_over_to_next_configuration_witness :
  attempt_result port_465_closed sender_163 report 0 ssl_465
  = TransientFailure "[Errno 111] Connection refused"
  /\ attempt_result port_465_closed sender_163 report 1 plain_25 = Success
  /\ fst (try_configs port_465_closed sender_163 report 0 configs_163) = true
  /\ nth_error (snd (try_configs port_465_closed sender_163 report 0 configs_163)) 1
     = Some plain_25.
Proof.
  destruct (send_fails_over_to_next_configuration
              port_465_closed sender_163 report configs_163)
    as (Hnext & Hsent & _).
  split; [reflexivity|]. split; [reflexivity|]. split.
  - apply Hsent. exists 1%nat, plain_25.
    split; [reflexivity|]. split; [reflexivity|].
    intros [|j] c Hj Hc; [|lia].
    injection Hc as <-. discriminate.
  - exact (Hnext 0%nat ssl_465 "[Errno 111] Connection refused"
             eq_refl eq_refl).
Defined.

(** C10 on a 163 sender configured for TLS on 587, with the SSL port
    unreachable. *)
Lemma send_email_configurations_witness :
  Py.str_in "163.com" (smtp_server sender_163) = true
  /\ smtp_configs sender_163 = configs_163
  /\ snd (send_email port_465_closed sender_163 "batch" "<html></html>")
     = [ssl_465; plain_25].
Proof.
  assert (H163 : Py.str_in "163.com" (smtp_server sender_163) = true)
    by reflexivity.
  destruct (send_email_configurations
              port_465_closed sender_163 "batch" "<html></html>")
    as (Hfixed & _).
  destruct (Hfixed H163) as (Hconfigs & _ & _).
  split; [exact H163|]. split; [exact Hconfigs|]. reflexivity.
Defined.

(** ** The retry loop in general *)

Lemma wait_before_nonneg (self : BatchStockLLMAnalyzer) (attempt : Z) :
  0 <= delay_between_requests self -> 0 <= wait_before self attempt.
Proof.
  intros Hd. unfold wait_before.
  destruct (0 <? attempt); [apply backoff_nonneg; exact Hd | lia].
Qed.

Lemma extended_covers_plain (d retries : Z) :
  0 <= d -> d * 5 * 2 ^ retries <= sleep_limit ->
  d * 2 ^ retries <= sleep_limit.
Proof.
  intros Hd Hfit.
  assert (0 <= 2 ^ retries) by (apply Z.pow_nonneg; lia). nia.
Qed.

Section AnyAttempts.

Variable self : BatchStockLLMAnalyzer.
Variable single : string -> M StockAnalysisResult.
Variable script : nat -> string -> outcome StockAnalysisResult.
Variable job : string.

Hypothesis delay_nonneg : 0 <= delay_between_requests self.
Hypothesis extended_fits :
  delay_between_requests self * 5 * 2 ^ max_retries self <= sleep_limit.
Hypothesis single_scripted :
  forall w, single job w = scripted script job w.

Lemma plain_fits :
  delay_between_requests self * 2 ^ max_retries self <= sleep_limit.
Proof. exact (extended_covers_plain _ _ delay_nonneg extended_fits). Qed.

(** The handler, on a message that is not a quota message: time passes,
    nothing else changes, and the loop goes on. *)
Lemma except_continues (attempt : Z) (w : world) (m : string) :
  0 <= attempt <= max_retries self ->
  _is_quota_exceeded_error m = false ->
  exists w',
    attempt_except self job attempt m w = (Ok (Next m), w')
    /\ clock w <= clock w'
    /\ submitted w' = submitted w
    /\ self_results w' = self_results w.
Proof.
  intros Hattempt Hq. destruct (_is_rate_limit_error m) eqn:Hrl.
  - destruct (except_rate_limited self job delay_nonneg attempt w m
                extended_fits (proj1 Hattempt) (conj Hrl Hq))
      as (w' & H & Hc & Hs & Hr).
    exists w'. repeat split; try assumption.
    rewrite Hc. destruct (attempt <? max_retries self); [|lia].
    assert (0 <= delay_between_requests self * 5 * 2 ^ attempt); [|lia].
    apply Z.mul_nonneg_nonneg; [lia | apply Z.pow_nonneg; lia].
  - destruct (except_transient self job delay_nonneg plain_fits attempt w m
                (proj1 Hattempt) (conj Hrl Hq))
      as (w' & H & Hc & Hs & Hr).
    exists w'. repeat split; try assumption.
    rewrite Hc. destruct (attempt <? max_retries self); lia.
Qed.

Lemma retry_loop_returns (todo : nat) :
  forall (attempt : Z) (last_error : option string) (w : world),
    0 <= attempt ->
    attempt + Z.of_nat todo <= max_retries self + 1 ->
    exists r w' k,
      retry_loop self single job todo attempt last_error w = (Ok r, w')
      /\ (k <= todo)%nat
      /\ (todo <> 0%nat -> k <> 0%nat)
      /\ submitted w' = (submitted w ++ repeat job k)%list
      /\ self_results w' = self_results w
      /\ clock w <= clock w'
      /\ retry_result self script job last_error r.
Proof.
  induction todo as [|todo IH]; intros attempt last_error w Hattempt Hleft.
  - eexists. exists w, 0%nat. cbn [retry_loop repeat]. rewrite app_nil_r.
    split; [reflexivity|]. repeat split; try lia.
    right. right. left. reflexivity.
  - cbn [retry_loop]. unfold bind at 1.
    assert (Hrange : 0 <= attempt <= max_retries self) by lia.
    pose proof (wait_before_nonneg self attempt delay_nonneg) as Hwait.
    destruct (script (List.length (submitted w)) job) as [r0|m] eqn:Hscript.
    + destruct (Py.truthy (error r0)) eqn:Htruthy.
      * destruct (failed_attempt self single script job delay_nonneg
                    plain_fits single_scripted attempt w r0 Hrange Hscript
                    Htruthy)
          as (w1 & -> & Hc1 & Hs1 & Hr1).
        destruct (IH (attempt + 1) (Some (Py.fmt_opt (error r0))) w1
                    ltac:(lia) ltac:(lia))
          as (r & w' & k & Hrun & Hk & _ & Hs & Hr & Hc & Hshape).
        exists r, w', (S k). split; [exact Hrun|].
        split; [lia|]. split; [lia|]. split.
        { rewrite Hs, Hs1, <- app_assoc. reflexivity. }
        split; [congruence|]. split; [lia|].
        destruct Hshape as [H|[H|[H|H]]].
        -- left. exact H.
        -- right. left. exact H.
        -- right. right. right.
           exists (List.length (submitted w)), (Py.fmt_opt (error r0)).
           split; [|exact H]. rewrite Hscript. cbn. rewrite Htruthy.
           destruct (error r0); [reflexivity | discriminate].
        -- right. right. right. exact H.
      * destruct (successful_attempt self single script job delay_nonneg
                    plain_fits single_scripted attempt w r0 Hrange Hscript
                    Htruthy)
          as (w1 & -> & Hc1 & Hs1 & Hr1).
        exists r0, w1, 1%nat. split; [reflexivity|].
        split; [lia|]. split; [lia|]. split; [exact Hs1|].
        split; [exact Hr1|]. split; [lia|].
        left. exists (List.length (submitted w)). auto.
    + destruct (raising_attempt self single script job delay_nonneg
                  plain_fits single_scripted attempt w m Hrange Hscript)
        as (w1 & -> & Hc1 & Hs1 & Hr1).
      destruct (_is_quota_exceeded_error m) eqn:Hq.
      * rewrite except_quota by exact Hq.
        eexists. exists w1, 1%nat. split; [reflexivity|].
        split; [lia|]. split; [lia|]. split; [exact Hs1|].
        split; [exact Hr1|]. split; [lia|].
        right. left. exists (List.length (submitted w)), m. auto.
      * destruct (except_continues attempt w1 m Hrange Hq)
          as (w2 & -> & Hc2 & Hs2 & Hr2).
        destruct (IH (attempt + 1) (Some m) w2 ltac:(lia) ltac:(lia))
          as (r & w' & k & Hrun & Hk & _ & Hs & Hr & Hc & Hshape).
        exists r, w', (S k). split; [exact Hrun|].
        split; [lia|]. split; [lia|]. split.
        { rewrite Hs, Hs2, Hs1, <- app_assoc. reflexivity. }
        split; [congruence|]. split; [lia|].
        destruct Hshape as [H|[H|[H|H]]].
        -- left. exact H.
        -- right. left. exact H.
        -- right. right. right.
           exists (List.length (submitted w)), m.
           split; [|exact H]. rewrite Hscript. reflexivity.
        -- right. right. right. exact H.
Qed.

End AnyAttempts.

(** X4.  Whatever the attempts do, with a non-negative delay and a
    longest wait that [time.sleep] takes, [_analyze_with_retry] comes back
    with a result and does not raise; it makes at least one and at most
    [max_retries + 1] attempts, all on the job it was given; it leaves
    [self.results] alone; and its result is the result of an attempt
    without error, the handler's quota error, or the error reported after
    the last attempt. *)
Theorem retry_returns_within_attempt_cap :
  forall (self : BatchStockLLMAnalyzer)
         (single : string -> M StockAnalysisResult)
         (script : nat -> string -> outcome StockAnalysisResult)
         (job : string) (global_idx : Z) (w : world),
    0 <= max_retries self ->
    0 <= delay_between_requests self ->
    delay_between_requests self * 5 * 2 ^ max_retries self <= sleep_limit ->
    (forall w', single job w' = scripted script job w') ->
    exists r w' k,
      analyze_with_retry_via self single job global_idx w = (Ok r, w')
      /\ 1 <= Z.of_nat k <= max_retries self + 1
      /\ submitted w' = (submitted w ++ repeat job k)%list
      /\ self_results w' = self_results w
      /\ clock w <= clock w'
      /\ retry_result self script job None r.
Proof.
  intros self single script job global_idx w Hretries Hdelay Hfit Hsingle.
  unfold analyze_with_retry_via.
  destruct (retry_loop_returns self single script job Hdelay Hfit Hsingle
              (Z.to_nat (max_retries self + 1)) 0 None w
              ltac:(lia) ltac:(lia))
    as (r & w' & k & Hrun & Hk & Hpos & Hs & Hr & Hc & Hshape).
  exists r, w', k. split; [exact Hrun|]. split.
  - assert (k <> 0%nat) by (apply Hpos; lia). lia.
  - repeat split; assumption.
Qed.

Lemma retry_returns_within_attempt_cap_witness :
  let self := two_retries graph_with_text_state in
  (0 <= max_retries self
   /\ 0 <= delay_between_requests self
   /\ delay_between_requests self * 5 * 2 ^ max_retries self <= sleep_limit)
  /\ exists r w' k,
       _analyze_with_retry self "AAPL" 1 fresh = (Ok r, w')
       /\ 1 <= Z.of_nat k <= 3
       /\ submitted w' = repeat "AAPL" k.
Proof.
  intros self.
  assert (H1 : 0 <= max_retries self) by (cbn; lia).
  assert (H2 : 0 <= delay_between_requests self) by (cbn; lia).
  assert (H3 : delay_between_requests self * 5 * 2 ^ max_retries self
               <= sleep_limit) by (vm_compute; discriminate).
  split; [repeat split; assumption|].
  destruct (retry_returns_within_attempt_cap
              self (_analyze_single_stock self) (single_stock_script self)
              "AAPL" 1 fresh H1 H2 H3
              (fun w' => single_stock_scripted self "AAPL" w' eq_refl))
    as (r & w' & k & Hrun & Hk & Hs & _).
  exists r, w', k. repeat split; try assumption; apply Hk.
Defined.

(** ** Edge settings *)

(** X7.  A batch size of zero, which is what an empty symbol list gives
    (with a non-negative [max_concurrent]) and what [max_concurrent = 0]
    gives, stops [run_batch_analysis] with the [ValueError] of [range]
    before anything is analysed, stored or waited for. *)
Theorem zero_batch_size_raises :
  forall (self : BatchStockLLMAnalyzer)
         (single : string -> M StockAnalysisResult) (w : world),
    (symbols self = [] /\ 0 <= max_concurrent self)
    \/ max_concurrent self = 0 ->
    run_batch_analysis_via self single w
    = (Raise "range() arg 3 must not be zero", w).
Proof.
  intros self single w Hzero.
  unfold run_batch_analysis_via, symbol_batches.
  assert (Hsize : Z.min (max_concurrent self) (Py.len (symbols self)) = 0).
  { unfold Py.len. destruct Hzero as [[-> Hc]| ->]; cbn [List.length]; lia. }
  rewrite Hsize. reflexivity.
Qed.

Lemma zero_batch_size_raises_witness :
  (symbols (default_settings [] graph_out_of_quota) = []
   /\ 0 <= max_concurrent (default_settings [] graph_out_of_quota))
  /\ run_batch_analysis (default_settings [] graph_out_of_quota) fresh
     = (Raise "range() arg 3 must not be zero", fresh).
Proof.
  assert (H : symbols (default_settings [] graph_out_of_quota) = []
              /\ 0 <= max_concurrent (default_settings [] graph_out_of_quota))
    by (split; [reflexivity | cbn; lia]).
  split; [exact H|].
  exact (zero_batch_size_raises (default_settings [] graph_out_of_quota)
           (_analyze_single_stock (default_settings [] graph_out_of_quota))
           fresh (or_introl H)).
Defined.

Lemma range_by_backwards (stop step : Z) :
  0 <= stop -> step < 0 -> Py.range_by stop step = [].
Proof.
  intros Hstop Hstep. unfold Py.range_by.
  destruct (Z.ltb_spec 0 step); [lia|].
  assert (Hq : (- stop - step - 1) / - step <= 0).
  { assert ((- stop - step - 1) / - step < 1); [|lia].
    apply Z.div_lt_upper_bound; lia. }
  replace (Z.to_nat (Z.max 0 ((- stop - step - 1) / - step))) with 0%nat by lia.
  reflexivity.
Qed.

(** X8.  A negative [max_concurrent] makes no batch at all: the run
    analyses nothing, stores nothing and waits for nothing.  With at least
    one symbol and storage that takes the result it returns zero successes
    and zero failures for however many symbols it was given; with no
    symbol at all the division at the head of the summary report raises,
    once the files before it are written. *)
Theorem negative_max_concurrent_analyses_nothing :
  forall (self : BatchStockLLMAnalyzer)
         (single : string -> M StockAnalysisResult),
    max_concurrent self < 0 ->
    let nothing :=
      {| total_symbols := Py.len (symbols self);
         successful_analyses := 0;
         failed_analyses := 0;
         results := [];
         summary := NoSuccess "没有成功的分析结果" |} in
    (symbols self <> [] -> accepts (storage self) nothing ->
     run_batch_analysis_via self single fresh = (Ok nothing, fresh))
    /\ (symbols self = [] -> write_files (storage self) nothing = None ->
        run_batch_analysis_via self single fresh
        = (Raise "division by zero", fresh)).
Proof.
  intros self single Hneg nothing.
  assert (Hrun : run_batch_analysis_via self single fresh
                 = (_save_results self nothing ;;; ret nothing) fresh).
  { unfold run_batch_analysis_via, symbol_batches.
    assert (Hsize : Z.min (max_concurrent self) (Py.len (symbols self))
                    = max_concurrent self) by (unfold Py.len; lia).
    rewrite Hsize.
    destruct (Z.eqb_spec (max_concurrent self) 0); [lia|].
    rewrite range_by_backwards by (unfold Py.len; lia).
    reflexivity. }
  rewrite Hrun. unfold bind. split.
  - intros Hjobs Haccepts. rewrite save_accepted; [reflexivity | exact Haccepts|].
    subst nothing. cbn [total_symbols]. unfold Py.len.
    destruct (symbols self); [congruence | cbn [List.length]; lia].
  - intros Hnone Hfiles. unfold _save_results. rewrite Hfiles.
    unfold report_success_rate. subst nothing. cbn [total_symbols].
    rewrite Hnone. reflexivity.
Qed.

Lemma negative_max_concurrent_analyses_nothing_witness :
  let self := {| symbols := ["AAPL"; "MSFT"];
                 llm_analyzer := graph_out_of_quota;
                 max_concurrent := -1;
                 delay_between_requests := 3;
                 max_retries := 3;
                 batch_delay_multiplier := 2;
                 stop_on_quota_exceeded := true;
                 storage := every_write_succeeds |} in
  max_concurrent self < 0
  /\ exists b,
       run_batch_analysis self fresh = (Ok b, fresh)
       /\ total_symbols b = 2
       /\ results b = [].
Proof.
  intros self.
  assert (H : max_concurrent self < 0) by (cbn; lia).
  split; [exact H|].
  eexists. split.
  - apply (negative_max_concurrent_analyses_nothing
             self (_analyze_single_stock self) H);
      [discriminate | split; reflexivity].
  - split; reflexivity.
Defined.

(** X9.  Whenever a run with a non-negative [max_concurrent] returns, it
    reports as many symbols as it was given and at least one, so that the
    division by [total_symbols] in the reports written from it has a
    non-zero divisor. *)
Theorem returned_run_has_symbols :
  forall (self : BatchStockLLMAnalyzer)
         (single : string -> M StockAnalysisResult)
         (w w' : world) (b : BatchAnalysisResult),
    0 <= max_concurrent self ->
    run_batch_analysis_via self single w = (Ok b, w') ->
    total_symbols b = Py.len (symbols self)
    /\ 0 < total_symbols b
    /\ exists q, report_success_rate b = Ok q.
Proof.
  intros self single w w' b Hconcurrent Hrun.
  unfold run_batch_analysis_via, symbol_batches in Hrun.
  destruct (Z.eqb_spec (Z.min (max_concurrent self) (Py.len (symbols self))) 0)
    as [|Hsize]; [discriminate Hrun|].
  unfold bind at 1, ret at 1 in Hrun. unfold bind in Hrun.
  match type of Hrun with
  | context [batches_loop ?a ?b ?c ?d ?e ?f ?g ?h] =>
      destruct (batches_loop a b c d e f g h) as [[counts|e0] w1]
  end; [|discriminate Hrun].
  destruct (_generate_summary (self_results w1)); [|discriminate Hrun].
  destruct (_save_results self _ w1) as [[[]|e1] w2]; [|discriminate Hrun].
  unfold ret in Hrun. injection Hrun as <- _.
  cbn [total_symbols]. split; [reflexivity|].
  assert (Hpos : 0 < Py.len (symbols self)) by (unfold Py.len in *; lia).
  split; [exact Hpos|].
  unfold report_success_rate. cbn [total_symbols successful_analyses].
  rewrite true_div_ok by lia. eexists; reflexivity.
Qed.

Lemma returned_run_has_symbols_witness :
  0 <= max_concurrent five_jobs
  /\ exists b w',
       run_batch_analysis five_jobs fresh = (Ok b, w')
       /\ total_symbols b = 5
       /\ exists q, report_success_rate b = Ok q.
Proof.
  assert (H : 0 <= max_concurrent five_jobs) by (cbn; lia).
  split; [exact H|].
  destruct (run_batch_analysis five_jobs fresh) as [[b|e] w'] eqn:Hrun;
    [|vm_compute in Hrun; discriminate Hrun].
  destruct (returned_run_has_symbols five_jobs (_analyze_single_stock five_jobs)
              fresh w' b H Hrun) as (Htotal & _ & Hrate).
  exists b, w'. split; [reflexivity|]. split; [exact Htotal | exact Hrate].
Defined.

(** X10.  With a negative [max_retries] the loop of [_analyze_with_retry]
    has no iteration: the job is never attempted and comes back failed,
    its error quoting [None] as the last error. *)
Theorem negative_max_retries_attempts_nothing :
  forall (self : BatchStockLLMAnalyzer)
         (single : string -> M StockAnalysisResult)
         (job : string) (global_idx : Z) (w : world),
    max_retries self < 0 ->
    analyze_with_retry_via self single job global_idx w
    = (Ok (error_result job
             ("重试" ++ Py.str_of_int (max_retries self) ++ "次后仍失败: None")),
       w).
Proof.
  intros self single job global_idx w Hneg.
  unfold analyze_with_retry_via.
  replace (Z.to_nat (max_retries self + 1)) with 0%nat by lia.
  reflexivity.
Qed.

Lemma negative_max_retries_attempts_nothing_witness :
  let self := {| symbols := ["AAPL"];
                 llm_analyzer := graph_out_of_quota;
                 max_concurrent := 2;
                 delay_between_requests := 3;
                 max_retries := -1;
                 batch_delay_multiplier := 2;
                 stop_on_quota_exceeded := true;
                 storage := every_write_succeeds |} in
  max_retries self < 0
  /\ _analyze_with_retry self "AAPL" 1 fresh
     = (Ok (error_result "AAPL" "重试-1次后仍失败: None"), fresh).
Proof.
  intros self.
  assert (H : max_retries self < 0) by (cbn; lia).
  split; [exact H|].
  exact (negative_max_retries_attempts_nothing
           self (_analyze_single_stock self) "AAPL" 1 fresh H).
Defined.

(** ** Backoff *)

Section FailingThroughResult.

Variable self : BatchStockLLMAnalyzer.
Variable single : string -> M StockAnalysisResult.
Variable script : nat -> string -> outcome StockAnalysisResult.
Variable job : string.

Hypothesis delay_nonneg : 0 <= delay_between_requests self.
Hypothesis backoff_fits :
  delay_between_requests self * 2 ^ max_retries self <= sleep_limit.
Hypothesis single_scripted :
  forall w, single job w = scripted script job w.
Hypothesis always_an_error :
  forall n, exists r, script n job = Ok r /\ Py.truthy (error r) = true.

(** From a retry on, [todo] failing attempts cost the geometric sum of
    their waits. *)
Lemma retries_cost (todo : nat) :
  forall (attempt : Z) (last_error : option string) (w : world),
    1 <= attempt ->
    attempt + Z.of_nat todo <= max_retries self + 1 ->
    exists r w',
      retry_loop self single job todo attempt last_error w = (Ok r, w')
      /\ clock w'
         = clock w
           + delay_between_requests self
             * (2 ^ (attempt + Z.of_nat todo) - 2 ^ attempt)
      /\ submitted w' = (submitted w ++ repeat job todo)%list.
Proof.
  induction todo as [|todo IH]; intros attempt last_error w Hattempt Hleft.
  - eexists. exists w. cbn [retry_loop repeat]. rewrite app_nil_r.
    split; [reflexivity|]. split; [|reflexivity].
    rewrite Z.add_0_r. lia.
  - cbn [retry_loop]. unfold bind at 1.
    destruct (always_an_error (List.length (submitted w))) as (r0 & Hr0 & Ht).
    destruct (failed_attempt self single script job delay_nonneg
                backoff_fits single_scripted attempt w r0 ltac:(lia) Hr0 Ht)
      as (w1 & -> & Hc1 & Hs1 & _).
    destruct (IH (attempt + 1) (Some (Py.fmt_opt (error r0))) w1
                ltac:(lia) ltac:(lia))
      as (r & w' & Hrun & Hc & Hs).
    exists r, w'. split; [exact Hrun|]. split.
    + rewrite Hc, Hc1. unfold wait_before.
      destruct (Z.ltb_spec 0 attempt); [|lia].
      replace (attempt + 1 + Z.of_nat todo) with (attempt + Z.of_nat (S todo))
        by lia.
      rewrite (Z.pow_add_r 2 attempt 1) by lia.
      change (2 ^ 1) with 2. lia.
    + rewrite Hs, Hs1, <- app_assoc. reflexivity.
Qed.

Lemma exhausted_retries_cost (global_idx : Z) (w : world) :
  0 <= max_retries self ->
  exists r w',
    analyze_with_retry_via self single job global_idx w = (Ok r, w')
    /\ clock w'
       = clock w
         + delay_between_requests self * (2 ^ (max_retries self + 1) - 2)
    /\ submitted w'
       = (submitted w ++ repeat job (Z.to_nat (max_retries self + 1)))%list.
Proof.
  intros Hretries. unfold analyze_with_retry_via.
  replace (Z.to_nat (max_retries self + 1))
    with (S (Z.to_nat (max_retries self))) by lia.
  cbn [retry_loop]. unfold bind at 1.
  destruct (always_an_error (List.length (submitted w))) as (r0 & Hr0 & Ht).
  destruct (failed_attempt self single script job delay_nonneg
              backoff_fits single_scripted 0 w r0 ltac:(lia) Hr0 Ht)
    as (w1 & -> & Hc1 & Hs1 & _).
  destruct (retries_cost (Z.to_nat (max_retries self)) (0 + 1)
              (Some (Py.fmt_opt (error r0))) w1 ltac:(lia) ltac:(lia))
    as (r & w' & Hrun & Hc & Hs).
  exists r, w'. split; [exact Hrun|]. split.
  - rewrite Hc, Hc1. unfold wait_before. cbn [Z.ltb Z.compare].
    replace (0 + 1 + Z.of_nat (Z.to_nat (max_retries self)))
      with (max_retries self + 1) by lia.
    change (2 ^ (0 + 1)) with 2. lia.
  - rewrite Hs, Hs1, <- app_assoc. reflexivity.
Qed.

End FailingThroughResult.

(** X11.  A job whose every attempt comes back with an error in its
    result, whatever the error says (rate-limit and quota messages
    included), is attempted [max_retries + 1] times and costs
    [delay_between_requests * (2^(max_retries+1) - 2)] seconds of waiting:
    the plain doubling backoff, never the extended one.  That is the way
    every failure takes that [_analyze_single_stock] reports. *)
Theorem failed_attempts_cost_plain_backoff :
  forall (self : BatchStockLLMAnalyzer)
         (single : string -> M StockAnalysisResult)
         (script : nat -> string -> outcome StockAnalysisResult)
         (job : string) (global_idx : Z) (w : world),
    0 <= max_retries self ->
    0 <= delay_between_requests self ->
    delay_between_requests self * 2 ^ max_retries self <= sleep_limit ->
    (forall w', single job w' = scripted script job w') ->
    (forall n, exists r, script n job = Ok r /\ is_failed r = true) ->
    exists r w',
      analyze_with_retry_via self single job global_idx w = (Ok r, w')
      /\ is_failed r = true
      /\ clock w'
         = clock w
           + delay_between_requests self * (2 ^ (max_retries self + 1) - 2)
      /\ submitted w'
         = (submitted w ++ repeat job (Z.to_nat (max_retries self + 1)))%list.
Proof.
  intros self single script job global_idx w Hretries Hdelay Hfit Hsingle
         Hfails.
  destruct (exhausted_retries_cost self single script job Hdelay Hfit
              Hsingle Hfails global_idx w Hretries)
    as (r & w' & Hrun & Hclock & Hsub).
  exists r, w'. split; [exact Hrun|]. split; [|split; assumption].
  destruct (retry_loop_exhausts self single script job Hdelay Hfit Hsingle)
    with (todo := Z.to_nat (max_retries self + 1)) (attempt := 0)
         (last_error := @None string) (w := w)
    as (w'' & Hrun' & _); try lia.
  - intros n. destruct (Hfails n) as (r0 & Hr0 & Ht). rewrite Hr0.
    unfold is_failed in Ht. cbn [failure_message]. rewrite Ht.
    destruct (error r0) as [m|] eqn:He; [|discriminate Ht].
    exists m. split; [reflexivity | discriminate].
  - unfold analyze_with_retry_via in Hrun. rewrite Hrun' in Hrun.
    injection Hrun as <- _. reflexivity.
Qed.

Lemma failed_attempts_cost_plain_backoff_witness :
  let self := default_settings ["AAPL"] graph_with_text_state in
  (0 <= max_retries self
   /\ 0 <= delay_between_requests self
   /\ delay_between_requests self * 2 ^ max_retries self <= sleep_limit)
  /\ exists r w',
       _analyze_with_retry self "AAPL" 1 fresh = (Ok r, w')
       /\ clock w' = 3 * (2 ^ 4 - 2)
       /\ submitted w' = ["AAPL"; "AAPL"; "AAPL"; "AAPL"].
Proof.
  intros self.
  assert (H1 : 0 <= max_retries self) by (cbn; lia).
  assert (H2 : 0 <= delay_between_requests self) by (cbn; lia).
  assert (H3 : delay_between_requests self * 2 ^ max_retries self
               <= sleep_limit) by (vm_compute; discriminate).
  split; [repeat split; assumption|].
  destruct (failed_attempts_cost_plain_backoff
              self (_analyze_single_stock self)
              (fun _ s => Ok (error_result s string_index_error))
              "AAPL" 1 fresh H1 H2 H3 (fun _ => eq_refl))
    as (r & w' & Hrun & _ & Hclock & Hsub).
  { intros n. eexists. split; reflexivity. }
  exists r, w'. split; [exact Hrun|]. split; [exact Hclock | exact Hsub].
Defined.

(** [time.sleep] on a negative length that fits. *)
Lemma sleep_refused (d : Z) (w : world) :
  - sleep_limit <= d < 0 ->
  sleep d w = (Raise "sleep length must be non-negative", w).
Proof.
  intros Hd. unfold sleep.
  destruct (Z.ltb_spec d (- sleep_limit)); [lia|].
  destruct (Z.ltb_spec sleep_limit d); [unfold sleep_limit in *; lia|].
  destruct (Z.ltb_spec d 0); [reflexivity | lia].
Qed.

Lemma sleep_negative (d : Z) (w : world) :
  d < 0 ->
  exists m, sleep d w = (Raise m, w)
            /\ _is_quota_exceeded_error m = false
            /\ _is_rate_limit_error m = false.
Proof.
  intros Hd. destruct (sleep_outcome d w) as [Hs | H]; [|exact H].
  exfalso. unfold sleep in Hs.
  destruct ((d <? - sleep_limit) || (sleep_limit <? d))%bool;
    [discriminate Hs|].
  destruct (Z.ltb_spec d 0); [discriminate Hs | lia].
Qed.

(** X12.  With a negative [delay_between_requests] that [time.sleep] can
    still read and at least two retries allowed, a job whose first attempt
    comes back with an error makes [_analyze_with_retry] raise: the wait
    ahead of the first retry is refused by [time.sleep], the handler's own
    wait is refused as well, and that [ValueError] is not caught.  The job
    was attempted once. *)
Theorem negative_delay_raises :
  forall (self : BatchStockLLMAnalyzer)
         (single : string -> M StockAnalysisResult)
         (script : nat -> string -> outcome StockAnalysisResult)
         (job : string) (global_idx : Z) (w : world) (r : StockAnalysisResult),
    - sleep_limit <= delay_between_requests self < 0 ->
    2 <= max_retries self ->
    (forall w', single job w' = scripted script job w') ->
    script (List.length (submitted w)) job = Ok r ->
    Py.truthy (error r) = true ->
    analyze_with_retry_via self single job global_idx w
    = (Raise "sleep length must be non-negative", logged job w).
Proof.
  intros self single script job global_idx w r Hdelay Hretries Hsingle Hr Ht.
  unfold analyze_with_retry_via.
  replace (Z.to_nat (max_retries self + 1))
    with (S (S (Z.to_nat (max_retries self - 1)))) by lia.
  cbn [retry_loop]. unfold bind at 1.
  unfold try_except at 1, attempt_try at 1, when at 1.
  cbn [Z.ltb Z.compare]. unfold bind at 1, ret at 1. unfold bind at 1.
  rewrite Hsingle. unfold scripted. rewrite Hr, Ht. cbn [negb]. unfold ret at 1.
  unfold bind at 1, try_except at 1, attempt_try at 1, when at 1.
  change (0 <? 0 + 1) with true. cbv iota.
  unfold bind at 1.
  destruct (sleep_negative (delay_between_requests self * 2 ^ (0 + 1))
              (logged job w)) as (m & -> & Hq & Hrl).
  { change (2 ^ (0 + 1)) with 2. lia. }
  unfold attempt_except. rewrite Hq, Hrl.
  unfold bind at 1, when at 1.
  assert (Hlast : (0 + 1 <? max_retries self) = true) by (apply Z.ltb_lt; lia).
  rewrite Hlast. rewrite sleep_refused by exact Hdelay. reflexivity.
Qed.

Lemma negative_delay_raises_witness :
  let self := {| symbols := ["AAPL"];
                 llm_analyzer := graph_with_text_state;
                 max_concurrent := 2;
                 delay_between_requests := -1;
                 max_retries := 3;
                 batch_delay_multiplier := 2;
                 stop_on_quota_exceeded := true;
                 storage := every_write_succeeds |} in
  (- sleep_limit <= delay_between_requests self < 0
   /\ 2 <= max_retries self)
  /\ _analyze_with_retry self "AAPL" 1 fresh
     = (Raise "sleep length must be non-negative", logged "AAPL" fresh).
Proof.
  intros self.
  assert (H1 : - sleep_limit <= delay_between_requests self < 0)
    by (unfold sleep_limit; cbn; lia).
  assert (H2 : 2 <= max_retries self) by (cbn; lia).
  split; [split; assumption|].
  exact (negative_delay_raises self (_analyze_single_stock self)
           (fun _ s => Ok (error_result s string_index_error))
           "AAPL" 1 fresh (error_result "AAPL" string_index_error)
           H1 H2 (fun _ => eq_refl) eq_refl eq_refl).
Defined.

(** ** The run as a whole *)









(** ** From [main] to the run *)



(** ** Batches *)

Lemma batches_explicit {A} (l : list A) (batch_size : Z) :
  0 < batch_size ->
  let b := Z.to_nat batch_size in
  let c := Z.to_nat ((Py.len l + batch_size - 1) / batch_size) in
  map (fun i => Py.slice l i (i + batch_size)) (Py.range_by (Py.len l) batch_size)
  = map (fun k => firstn b (skipn (k * b) l)) (seq 0 c)
  /\ (c * b < List.length l + b)%nat
  /\ (List.length l <= c * b)%nat.
Proof.
  intros Hb b c. unfold Py.range_by.
  destruct (Z.ltb_spec 0 batch_size) as [_|]; [|lia].
  rewrite map_map.
  assert (Hbz : batch_size = Z.of_nat b) by (unfold b; lia).
  assert (Hdiv : 0 <= (Py.len l + batch_size - 1) / batch_size).
  { apply Z.div_pos; [unfold Py.len; lia | exact Hb]. }
  assert (Hq : (Py.len l + batch_size - 1) / batch_size = Z.of_nat c)
    by (unfold c; lia).
  assert (Hlow : (c * b < List.length l + b)%nat).
  { pose proof (Z.mul_div_le (Py.len l + batch_size - 1) batch_size Hb) as Hle.
    rewrite Hq in Hle. unfold Py.len in Hle. nia. }
  assert (Hhigh : (List.length l <= c * b)%nat).
  { pose proof (Z.mul_succ_div_gt (Py.len l + batch_size - 1) batch_size Hb) as Hgt.
    rewrite Hq in Hgt. unfold Py.len in Hgt. nia. }
  split; [|split; assumption].
  replace (Z.to_nat (Z.max 0 ((Py.len l + batch_size - 1) / batch_size)))
    with c by lia.
  apply map_ext_in. intros k Hk. apply in_seq in Hk. rewrite Hbz.
  apply slice_chunk; [lia | nia].
Qed.

(** X15.  For a positive batch size the batches are a partition of the
    symbol list into consecutive runs: put end to end they give the list
    back, none is empty, none holds more than [batch_size] symbols, and
    there are [ceil(len / batch_size)] of them. *)
Theorem symbol_batches_partition :
  forall (self : BatchStockLLMAnalyzer) (batch_size : Z) (w : world),
    0 < batch_size ->
    exists batches,
      symbol_batches self batch_size w = (Ok batches, w)
      /\ List.concat batches = symbols self
      /\ Forall (fun batch => batch <> [] /\ Py.len batch <= batch_size) batches
      /\ Py.len batches = (Py.len (symbols self) + batch_size - 1) / batch_size.
Proof.
  intros self batch_size w Hb. unfold symbol_batches.
  destruct (Z.eqb_spec batch_size 0); [lia|].
  eexists. split; [reflexivity|]. split; [apply batches_cover; exact Hb|].
  destruct (batches_explicit (symbols self) batch_size Hb) as (-> & Hlow & Hhigh).
  set (b := Z.to_nat batch_size) in *.
  set (c := Z.to_nat ((Py.len (symbols self) + batch_size - 1) / batch_size)) in *.
  split.
  - apply Forall_forall. intros batch Hin.
    apply in_map_iff in Hin as (k & <- & Hk). apply in_seq in Hk.
    assert (Hstart : (k * b < List.length (symbols self))%nat) by nia.
    split.
    + intros Hempty. apply (f_equal (@List.length string)) in Hempty.
      rewrite length_firstn, length_skipn in Hempty. cbn in Hempty. lia.
    + unfold Py.len. rewrite length_firstn. lia.
  - unfold Py.len at 1. rewrite length_map, length_seq. unfold c.
    assert (0 <= (Py.len (symbols self) + batch_size - 1) / batch_size)
      by (apply Z.div_pos; [unfold Py.len; lia | exact Hb]).
    lia.
Qed.

Lemma symbol_batches_partition_witness :
  0 < 2
  /\ exists batches,
       symbol_batches five_jobs 2 fresh = (Ok batches, fresh)
       /\ List.concat batches = ["AAPL"; "MSFT"; "GOOG"; "AMZN"; "TSLA"]
       /\ Py.len batches = 3.
Proof.
  assert (H : 0 < 2) by lia.
  split; [exact H|].
  destruct (symbol_batches_partition five_jobs 2 fresh H)
    as (batches & Hrun & Hcat & _ & Hlen).
  exists batches. split; [exact Hrun|]. split; [exact Hcat | exact Hlen].
Defined.

(** ** The summary *)






Lemma summary_step_eq (md : list (string * Z)) (av : Q)
  (pr : list PriceRangeEntry) (r : StockAnalysisResult) :
  summary_step (md, av, pr) r
  = (Dict.incr md (market_type r),
     (av + match price_volatility (price_stats r) with
           | Some v => v
           | None => 0
           end)%Q,
     (pr ++ price_entry r)%list).
Proof.
  unfold summary_step, price_entry.
  destruct (price_range (price_stats r)); [rewrite app_nil_r|]; reflexivity.
Qed.

Lemma summary_fold (rs : list StockAnalysisResult) :
  forall (md : list (string * Z)) (av : Q) (pr : list PriceRangeEntry),
    fst (fst (fold_left summary_step rs (md, av, pr)))
    = fold_left Dict.incr (map market_type rs) md
    /\ snd (fold_left summary_step rs (md, av, pr))
       = (pr ++ flat_map price_entry rs)%list.
Proof.
  induction rs as [|r rs IH]; intros md av pr.
  - cbn. rewrite app_nil_r. split; reflexivity.
  - cbn [fold_left map flat_map]. rewrite summary_step_eq.
    match goal with
    | |- context [fold_left summary_step rs (?a, ?b, ?c)] =>
        destruct (IH a b c) as [H1 H2]
    end.
    split; [exact H1|]. rewrite H2, <- app_assoc. reflexivity.
Qed.


Lemma summary_witness_value :
  exists st, _generate_summary three_priced = Ok (Stats st).
Proof.
  destruct (_generate_summary three_priced) as [[e|st]|e] eqn:H.
  - vm_compute in H. discriminate H.
  - exists st. reflexivity.
  - vm_compute in H. discriminate H.
Qed.


Lemma dict_get_incr (d : list (string * Z)) (k k' : string) :
  Dict.get (Dict.incr d k) k' 0
  = if String.eqb k' k then Dict.get d k' 0 + 1 else Dict.get d k' 0.
Proof.
  induction d as [|[k0 v] d IH].
  - cbn. destruct (String.eqb k' k); reflexivity.
  - cbn [Dict.incr Dict.get].
    destruct (String.eqb_spec k k0) as [->|Hk].
    + cbn [Dict.get]. destruct (String.eqb k' k0); reflexivity.
    + cbn [Dict.get]. destruct (String.eqb_spec k' k0) as [->|Hk'].
      * destruct (String.eqb_spec k0 k); [congruence | reflexivity].
      * exact IH.
Qed.

Lemma dict_keys_incr (d : list (string * Z)) (k : string) :
  (In k (map fst d) /\ map fst (Dict.incr d k) = map fst d)
  \/ (~ In k (map fst d) /\ map fst (Dict.incr d k) = (map fst d ++ [k])%list).
Proof.
  induction d as [|[k0 v] d IH].
  - right. split; [intros []| reflexivity].
  - cbn [Dict.incr map fst].
    destruct (String.eqb_spec k k0) as [->|Hk].
    + left. split; [left; reflexivity | reflexivity].
    + destruct IH as [[Hin Heq]|[Hout Heq]].
      * left. split; [right; exact Hin|]. cbn [map fst]. rewrite Heq. reflexivity.
      * right. split.
        -- intros [H|H]; [congruence | contradiction].
        -- cbn [map fst app]. rewrite Heq. reflexivity.
Qed.

Lemma dict_keys_nodup_incr (d : list (string * Z)) (k : string) :
  NoDup (map fst d) -> NoDup (map fst (Dict.incr d k)).
Proof.
  intros Hd. destruct (dict_keys_incr d k) as [[_ ->]|[Hout ->]]; [exact Hd|].
  apply NoDup_app; [exact Hd | constructor; [intros []|constructor] |].
  intros x Hx [<-|[]]. contradiction.
Qed.

Lemma dict_key_in_incr (d : list (string * Z)) (k k' : string) :
  In k' (map fst (Dict.incr d k)) <-> k' = k \/ In k' (map fst d).
Proof.
  destruct (dict_keys_incr d k) as [[Hin ->]|[Hout ->]].
  - split; [auto|]. intros [->|H]; assumption.
  - rewrite in_app_iff. cbn [In]. split.
    + intros [H|[H|[]]]; auto.
    + intros [->|H]; auto.
Qed.

Lemma counting_fold (markets : list string) :
  forall (d : list (string * Z)),
    NoDup (map fst d) ->
    let md := fold_left Dict.incr markets d in
    NoDup (map fst md)
    /\ (forall m, Dict.get md m 0
                  = Dict.get d m 0
                    + Py.len (filter (String.eqb m) markets))
    /\ (forall m, In m (map fst md) <-> In m markets \/ In m (map fst d)).
Proof.
  induction markets as [|k markets IH]; intros d Hd.
  - cbn. repeat split; auto; try lia. intros [[]|H]; exact H.
  - cbn [fold_left].
    destruct (IH (Dict.incr d k) (dict_keys_nodup_incr d k Hd))
      as (Hnodup & Hget & Hkeys).
    split; [exact Hnodup|]. split.
    + intros m. rewrite Hget, dict_get_incr. cbn [filter].
      destruct (String.eqb m k); unfold Py.len; cbn [List.length]; lia.
    + intros m. rewrite Hkeys, dict_key_in_incr. cbn [In].
      split; intros H; intuition congruence.
Qed.

Lemma filter_map_market (m : string) (rs : list StockAnalysisResult) :
  filter (String.eqb m) (map market_type rs)
  = map market_type (filter (fun r => String.eqb m (market_type r)) rs).
Proof.
  induction rs as [|r rs IH]; [reflexivity|].
  cbn [map filter]. destruct (String.eqb m (market_type r));
    cbn [map]; rewrite IH; reflexivity.
Qed.

(** X18.  The ['market_distribution'] of a summary counts the successful
    results by market type: no market is listed twice, a market is listed
    exactly when some successful result has it, and its count is the number
    of successful results of that market. *)
Theorem market_distribution_counts_successes :
  forall (results : list StockAnalysisResult) (st : SummaryStats),
    _generate_summary results = Ok (Stats st) ->
    NoDup (map fst (market_distribution st))
    /\ (forall m, Dict.get (market_distribution st) m 0 = market_count results m)
    /\ (forall m, In m (map fst (market_distribution st))
                  <-> 1 <= market_count results m).
Proof.
  intros results st Hsum. unfold _generate_summary in Hsum.
  fold (successful_results results) in Hsum.
  unfold market_count.
  destruct (successful_results results) as [|r0 rest] eqn:Hsucc;
    [discriminate Hsum|].
  pose proof (summary_fold (r0 :: rest) [] 0%Q []) as [Hmd _].
  destruct (fold_left summary_step (r0 :: rest) ([], 0%Q, []))
    as [[md av] pr].
  cbn [fst] in Hmd.
  destruct (true_div av (Py.len (r0 :: rest))); [|discriminate Hsum].
  destruct (true_div (inject_Z (Py.len (r0 :: rest))) (Py.len results));
    [|discriminate Hsum].
  injection Hsum as <-. cbn [market_distribution]. rewrite Hmd. clear Hmd.
  assert (Hcount : forall m,
             Py.len (filter (String.eqb m) (map market_type (r0 :: rest)))
             = Py.len (filter (fun r => String.eqb m (market_type r))
                              (r0 :: rest))).
  { intros m. rewrite filter_map_market. unfold Py.len.
    rewrite length_map. reflexivity. }
  revert Hcount. generalize (map market_type (r0 :: rest)) as markets.
  intros markets Hcount.
  destruct (counting_fold markets [] (NoDup_nil _))
    as (Hnodup & Hget & Hkeys).
  split; [exact Hnodup|]. split.
  - intros m. rewrite Hget, Hcount. cbn [Dict.get]. lia.
  - intros m. rewrite Hkeys, <- Hcount. split.
    + intros [Hin|[]].
      assert (Hm : In m (filter (String.eqb m) markets)).
      { apply filter_In. split; [exact Hin | apply String.eqb_refl]. }
      unfold Py.len.
      destruct (filter (String.eqb m) markets);
        [contradiction | cbn [List.length]; lia].
    + intros Hpos. left.
      destruct (filter (String.eqb m) markets) as [|x l] eqn:Hf;
        [unfold Py.len in Hpos; cbn in Hpos; lia|].
      assert (Hx : In x (filter (String.eqb m) markets))
        by (rewrite Hf; left; reflexivity).
      apply filter_In in Hx as [Hx Heq].
      apply String.eqb_eq in Heq. subst x. exact Hx.
Qed.

Lemma market_distribution_counts_successes_witness :
  exists st,
    _generate_summary three_priced = Ok (Stats st)
    /\ Dict.get (market_distribution st) "美股" 0 = 2
    /\ Dict.get (market_distribution st) "A股" 0 = 1
    /\ Dict.get (market_distribution st) "港股" 0 = 0.
Proof.
  destruct (_generate_summary three_priced) as [[e|st]|e] eqn:H;
    [vm_compute in H; discriminate H| |vm_compute in H; discriminate H].
  destruct (market_distribution_counts_successes three_priced st H)
    as (_ & Hget & _).
  exists st. split; [reflexivity|]. rewrite !Hget. repeat split.
Defined.

(** X19.  A summary with statistics is built from at least one successful
    result; ['total_analyzed'] is their number, and the success rate lies
    above 0 and at most at 100. *)
Theorem success_rate_is_a_percentage :
  forall (results : list StockAnalysisResult) (st : SummaryStats),
    _generate_summary results = Ok (Stats st) ->
    total_analyzed st = Py.len (successful_results results)
    /\ 1 <= total_analyzed st <= Py.len results
    /\ (0 < analysis_success_rate st)%Q
    /\ (analysis_success_rate st <= 100)%Q.
Proof.
  intros results st Hsum. unfold _generate_summary in Hsum.
  fold (successful_results results) in Hsum.
  pose proof (len_filter_le (fun r => negb (Py.truthy (error r))) results)
    as Hle.
  fold (successful_results results) in Hle.
  destruct (successful_results results) as [|r0 rest] eqn:Hsucc;
    [discriminate Hsum|].
  destruct (fold_left summary_step (r0 :: rest) ([], 0%Q, []))
    as [[md av] pr].
  assert (Hpos : 1 <= Py.len (r0 :: rest))
    by (unfold Py.len; cbn [List.length]; lia).
  rewrite !true_div_ok in Hsum by lia.
  injection Hsum as <-. cbn [total_analyzed analysis_success_rate].
  split; [reflexivity|]. split; [lia|].
  set (a := Py.len (r0 :: rest)) in *. set (b := Py.len results) in *.
  assert (Hb : (0 < inject_Z b)%Q).
  { change 0%Q with (inject_Z 0). rewrite <- Zlt_Qlt. lia. }
  assert (Ha : (0 < inject_Z a)%Q).
  { change 0%Q with (inject_Z 0). rewrite <- Zlt_Qlt. lia. }
  split.
  - apply Qmult_lt_0_compat; [|reflexivity].
    apply Qlt_shift_div_l; [exact Hb|]. rewrite Qmult_0_l. exact Ha.
  - setoid_replace (100)%Q with (1 * 100)%Q at 2 by ring.
    apply Qmult_le_compat_r; [|discriminate].
    apply Qle_shift_div_r; [exact Hb|]. rewrite Qmult_1_l.
    rewrite <- Zle_Qle. lia.
Qed.

Lemma success_rate_is_a_percentage_witness :
  exists st,
    _generate_summary three_priced = Ok (Stats st)
    /\ total_analyzed st = 3
    /\ (0 < analysis_success_rate st)%Q
    /\ (analysis_success_rate st <= 100)%Q.
Proof.
  destruct (_generate_summary three_priced) as [[e|st]|e] eqn:H;
    [vm_compute in H; discriminate H| |vm_compute in H; discriminate H].
  destruct (success_rate_is_a_percentage three_priced st H)
    as (Htotal & _ & Hlow & Hhigh).
  exists st. split; [reflexivity|]. split; [rewrite Htotal; reflexivity|].
  split; assumption.
Defined.

(** ** [EmailSender.__init__] *)

Lemma nonempty_true (s : string) : nonempty s = true <-> s <> EmptyString.
Proof.
  destruct s; cbn; split; congruence.
Qed.

(** What [__init__] checks, and what it stores. *)
Lemma init_checks :
  forall (getenv : string -> option string) (config : EmailConfig),
    let sender := EmailSender_init getenv config in
    (enabled sender = true <->
       conf_enabled config = Some true
       /\ get_or (conf_smtp_server config) EmptyString <> EmptyString
       /\ get_or (conf_smtp_username config) EmptyString <> EmptyString
       /\ resolve_password getenv config <> EmptyString
       /\ get_or (conf_from_email config) EmptyString <> EmptyString
       /\ get_or (conf_to_emails config) [] <> [])
    /\ (enabled sender = true ->
          smtp_server sender = get_or (conf_smtp_server config) EmptyString
          /\ smtp_port sender = get_or (conf_smtp_port config) 587
          /\ smtp_username sender = get_or (conf_smtp_username config) EmptyString
          /\ smtp_password sender = resolve_password getenv config
          /\ from_email sender = get_or (conf_from_email config) EmptyString
          /\ to_emails sender = get_or (conf_to_emails config) []
          /\ use_tls sender = get_or (conf_use_tls config) true
          /\ use_ssl sender = get_or (conf_use_ssl config) false).
Proof.
  intros getenv config. cbv zeta. unfold EmailSender_init.
  destruct (conf_enabled config) as [[|]|]; cbn [get_or negb].
  2,3: split; [split; [discriminate | intros (H & _); discriminate H]
              | discriminate].
  destruct (nonempty (get_or (conf_smtp_server config) EmptyString)) eqn:H1;
    cbn [negb].
  2: { split; [split; [discriminate|] | discriminate].
       intros (_ & H & _). apply nonempty_true in H. congruence. }
  destruct (nonempty (get_or (conf_smtp_username config) EmptyString)) eqn:H2;
    cbn [negb].
  2: { split; [split; [discriminate|] | discriminate].
       intros (_ & _ & H & _). apply nonempty_true in H. congruence. }
  destruct (nonempty (resolve_password getenv config)) eqn:H3; cbn [negb].
  2: { split; [split; [discriminate|] | discriminate].
       intros (_ & _ & _ & H & _). apply nonempty_true in H. congruence. }
  destruct (nonempty (get_or (conf_from_email config) EmptyString)) eqn:H4;
    cbn [negb orb].
  2: { split; [split; [discriminate|] | discriminate].
       intros (_ & _ & _ & _ & H & _). apply nonempty_true in H. congruence. }
  destruct (get_or (conf_to_emails config) []) eqn:H5.
  { split; [split; [discriminate|] | discriminate].
    intros (_ & _ & _ & _ & _ & H). congruence. }
  cbn [enabled smtp_server smtp_port smtp_username smtp_password from_email
       to_emails use_tls use_ssl].
  apply nonempty_true in H1, H2, H3, H4.
  split; [split; [intros _|reflexivity] | intros _].
  - repeat split; try assumption. discriminate.
  - repeat split.
Qed.

(** X20.  A sender comes out of [__init__] enabled exactly when the
    configuration enables it and the server, the user name, the password it
    settled on and the sender address are non-empty and there is at least
    one recipient; an enabled sender carries these values, and the
    defaults [587], TLS on, SSL off where the configuration is silent. *)
Theorem init_enables_only_complete_senders :
  forall (getenv : string -> option string) (config : EmailConfig),
    let sender := EmailSender_init getenv config in
    (enabled sender = true <->
       conf_enabled config = Some true
       /\ get_or (conf_smtp_server config) EmptyString <> EmptyString
       /\ get_or (conf_smtp_username config) EmptyString <> EmptyString
       /\ resolve_password getenv config <> EmptyString
       /\ get_or (conf_from_email config) EmptyString <> EmptyString
       /\ get_or (conf_to_emails config) [] <> [])
    /\ (enabled sender = true ->
          smtp_server sender = get_or (conf_smtp_server config) EmptyString
          /\ smtp_port sender = get_or (conf_smtp_port config) 587
          /\ smtp_username sender = get_or (conf_smtp_username config) EmptyString
          /\ smtp_password sender = resolve_password getenv config
          /\ from_email sender = get_or (conf_from_email config) EmptyString
          /\ to_emails sender = get_or (conf_to_emails config) []
          /\ use_tls sender = get_or (conf_use_tls config) true
          /\ use_ssl sender = get_or (conf_use_ssl config) false).
Proof.
  exact init_checks.
Qed.

Lemma init_enables_only_complete_senders_witness :
  enabled (EmailSender_init env_with_password config_163) = true
  /\ smtp_port (EmailSender_init env_with_password config_163) = 587
  /\ use_tls (EmailSender_init env_with_password config_163) = true
  /\ use_ssl (EmailSender_init env_with_password config_163) = false.
Proof.
  split; [reflexivity|].
  destruct (proj2 (init_enables_only_complete_senders
                     env_with_password config_163) eq_refl)
    as (_ & Hport & _ & _ & _ & _ & Htls & Hssl).
  split; [exact Hport|]. split; [exact Htls | exact Hssl].
Defined.

(** X21.  The password of an enabled sender is the value of the
    environment variable named by ['smtp_password_env'] whenever that
    variable is set to a non-empty value, and the configured
    ['smtp_password'] in every other case: no variable named, the variable
    unset, or set to the empty string. *)
Theorem environment_password_takes_precedence :
  forall (getenv : string -> option string) (config : EmailConfig),
    enabled (EmailSender_init getenv config) = true ->
    let name := get_or (conf_smtp_password_env config) EmptyString in
    let password := smtp_password (EmailSender_init getenv config) in
    (forall c value,
        name <> EmptyString ->
        getenv name = Some (String c value) ->
        password = String c value)
    /\ (name = EmptyString \/ getenv name = None \/ getenv name = Some EmptyString ->
        conf_smtp_password config = Some password).
Proof.
  intros getenv config Hen name password.
  destruct (init_checks getenv config) as [Hiff Hfields].
  destruct (Hfields Hen) as (_ & _ & _ & Hpassword & _).
  apply Hiff in Hen as (_ & _ & _ & Hpw & _).
  subst password. rewrite Hpassword. clear Hpassword Hiff Hfields.
  unfold resolve_password in *. fold name in Hpw |- *. split.
  - intros c value Hname Henv.
    apply nonempty_true in Hname. rewrite Hname, Henv. reflexivity.
  - assert (Hconf : forall p, p <> EmptyString ->
              get_or (conf_smtp_password config) EmptyString = p ->
              conf_smtp_password config = Some p).
    { intros p Hp Hget. destruct (conf_smtp_password config); cbn in Hget;
        congruence. }
    intros [Hname | [Henv | Henv]].
    + rewrite Hname in Hpw |- *. cbn [nonempty] in Hpw |- *.
      apply Hconf; [exact Hpw | reflexivity].
    + rewrite Henv in Hpw |- *. cbn [get_or nonempty] in Hpw |- *.
      destruct (nonempty name); apply Hconf; (exact Hpw || reflexivity).
    + rewrite Henv in Hpw |- *. cbn [get_or nonempty] in Hpw |- *.
      destruct (nonempty name); apply Hconf; (exact Hpw || reflexivity).
Qed.

Lemma environment_password_takes_precedence_witness :
  enabled (EmailSender_init env_with_password config_163) = true
  /\ smtp_password (EmailSender_init env_with_password config_163)
     = "authorization-code"
  /\ conf_smtp_password config_163
     = Some (smtp_password (EmailSender_init (fun _ => None) config_163)).
Proof.
  split; [reflexivity|]. split.
  - exact (proj1 (environment_password_takes_precedence
                    env_with_password config_163 eq_refl)
                 "a"%char "uthorization-code" ltac:(discriminate) eq_refl).
  - exact (proj2 (environment_password_takes_precedence
                    (fun _ => None) config_163 eq_refl)
                 (or_intror (or_introl eq_refl))).
Defined.

Lemma session_login (self : EmailSender) (msg : Message) (config : Config.t)
  (u p : string) :
  In (login u p) (session self msg config) ->
  u = smtp_username self /\ p = smtp_password self.
Proof.
  unfold session.
  destruct (Config.use_ssl config), (Config.use_tls config);
    cbn [andb negb app In];
    intros H; repeat (destruct H as [H | H]; try discriminate H);
    try contradiction; injection H as <- <-; split; reflexivity.
Qed.

(** X22.  [send_email] on a sender built by [__init__] never logs in with
    an empty user name or an empty password, whatever the configuration and
    the environment, and never sends without a sender address or without
    recipients: a sender that lacks one of them is disabled and opens no
    connection at all. *)
Theorem send_never_logs_in_with_empty_credentials :
  forall (getenv : string -> option string) (config : EmailConfig)
         (t : Transport) (subject body : string),
    let sender := EmailSender_init getenv config in
    (enabled sender = false -> send_email t sender subject body = (false, []))
    /\ (snd (send_email t sender subject body) <> [] ->
        (forall msg tried u p,
            In (login u p) (session sender msg tried) ->
            u <> EmptyString /\ p <> EmptyString)
        /\ from_email sender <> EmptyString
        /\ to_emails sender <> []).
Proof.
  intros getenv config t subject body sender.
  destruct (init_checks getenv config) as [Hiff Hfields].
  fold sender in Hiff, Hfields. split.
  - intros Hoff. apply send_email_disabled. exact Hoff.
  - intros Htried. destruct (enabled sender) eqn:Hen.
    + destruct (Hfields eq_refl) as (_ & _ & Hu & Hp & Hf & Ht & _).
      destruct (proj1 Hiff eq_refl) as (_ & _ & Hu' & Hp' & Hf' & Ht').
      split; [|split; congruence].
      intros msg tried u p Hin.
      apply session_login in Hin as [-> ->]. split; congruence.
    + exfalso. apply Htried.
      rewrite (send_email_disabled t sender subject body Hen). reflexivity.
Qed.

Lemma send_never_logs_in_with_empty_credentials_witness :
  snd (send_email port_465_closed
         (EmailSender_init env_with_password config_163) "report" "body")
  <> []
  /\ from_email (EmailSender_init env_with_password config_163) <> EmptyString
  /\ to_emails (EmailSender_init env_with_password config_163) <> [].
Proof.
  assert (H : snd (send_email port_465_closed
                     (EmailSender_init env_with_password config_163)
                     "report" "body") <> [])
    by (vm_compute; discriminate).
  split; [exact H|].
  exact (proj2 (proj2 (send_never_logs_in_with_empty_credentials
                         env_with_password config_163 port_465_closed
                         "report" "body") H)).
Defined.

(** ** [_detect_market_type] on numeric codes *)

Lemma digit_facts (c : ascii) :
  Market.is_digit c = true ->
  Py.upper_ascii c = c
  /\ Market.is_upper_letter c = false
  /\ Ascii.eqb c Market.newline = false
  /\ Ascii.eqb c "K" = false.
Proof.
  destruct c as [[] [] [] [] [] [] [] []]; vm_compute; intros H;
    try discriminate H; repeat split.
Qed.

Lemma upper_digits (digits : list ascii) :
  forallb Market.is_digit digits = true ->
  Py.upper (string_of_list_ascii digits) = string_of_list_ascii digits.
Proof.
  induction digits as [|c digits IH]; cbn [forallb]; intros H.
  - reflexivity.
  - apply andb_prop in H as [Hc H]. cbn.
    fold (Py.upper (string_of_list_ascii digits)).
    rewrite (IH H), (proj1 (digit_facts c Hc)). reflexivity.
Qed.

Lemma chars_app (a b : string) :
  list_ascii_of_string (a ++ b)
  = (list_ascii_of_string a ++ list_ascii_of_string b)%list.
Proof.
  induction a as [|c a IH]; cbn; [reflexivity | now rewrite IH].
Qed.

Lemma last_of_rev (l r : list ascii) (c : ascii) :
  rev l = c :: r -> In c l.
Proof.
  intros H. apply in_rev. rewrite H. left. reflexivity.
Qed.

Lemma chop_newline_digits (digits : list ascii) :
  forallb Market.is_digit digits = true ->
  Market.chop_newline digits = digits.
Proof.
  intros H. unfold Market.chop_newline.
  destruct (rev digits) as [|c r] eqn:Hrev; [reflexivity|].
  apply last_of_rev in Hrev.
  rewrite forallb_forall in H.
  destruct (digit_facts c (H c Hrev)) as (_ & _ & -> & _). reflexivity.
Qed.

Lemma chop_hk_digits (digits : list ascii) :
  forallb Market.is_digit digits = true ->
  Market.chop_hk digits = digits.
Proof.
  intros H. unfold Market.chop_hk.
  destruct (rev digits) as [|k [|h [|d r]]] eqn:Hrev; try reflexivity.
  apply last_of_rev in Hrev.
  rewrite forallb_forall in H.
  destruct (digit_facts k (H k Hrev)) as (_ & _ & _ & ->). reflexivity.
Qed.

Lemma chop_newline_hk (l : list ascii) :
  Market.chop_newline (l ++ ["."; "H"; "K"]%char)
  = (l ++ ["."; "H"; "K"]%char)%list.
Proof.
  unfold Market.chop_newline. rewrite rev_app_distr. reflexivity.
Qed.

Lemma chop_hk_suffix (l : list ascii) :
  Market.chop_hk (l ++ ["."; "H"; "K"]%char) = l.
Proof.
  unfold Market.chop_hk. rewrite rev_app_distr. cbn.
  apply rev_involutive.
Qed.

Lemma digits_are_no_ticker (digits : list ascii) :
  forallb Market.is_digit digits = true ->
  forall rest, forallb Market.is_upper_letter (digits ++ rest) = true ->
               digits = [].
Proof.
  destruct digits as [|c digits]; [reflexivity|].
  cbn [forallb app]. intros H rest Hl.
  apply andb_prop in H as [Hc _]. apply andb_prop in Hl as [Hl _].
  destruct (digit_facts c Hc) as (_ & Hno & _). congruence.
Qed.

Lemma us_ticker_digits (digits : list ascii) :
  forallb Market.is_digit digits = true ->
  Market.us_ticker (string_of_list_ascii digits) = false.
Proof.
  intros H. unfold Market.us_ticker.
  rewrite list_ascii_of_string_of_list_ascii, (chop_newline_digits _ H).
  destruct (forallb Market.is_upper_letter digits) eqn:Hl;
    [|apply andb_false_r].
  rewrite <- (app_nil_r digits) in Hl.
  rewrite (digits_are_no_ticker digits H [] Hl). reflexivity.
Qed.

Lemma us_ticker_digits_hk (digits : list ascii) :
  forallb Market.is_digit digits = true ->
  Market.us_ticker (string_of_list_ascii digits ++ ".HK") = false.
Proof.
  intros H. unfold Market.us_ticker.
  rewrite chars_app, list_ascii_of_string_of_list_ascii.
  change (list_ascii_of_string ".HK") with ["."; "H"; "K"]%char.
  rewrite chop_newline_hk.
  destruct (forallb Market.is_upper_letter (digits ++ ["."; "H"; "K"]%char))
    eqn:Hl; [|apply andb_false_r].
  pose proof (digits_are_no_ticker digits H _ Hl) as ->.
  discriminate Hl.
Qed.

Lemma a_share_digits (digits : list ascii) :
  forallb Market.is_digit digits = true ->
  Market.a_share (string_of_list_ascii digits)
  = Nat.eqb (List.length digits) 6.
Proof.
  intros H. unfold Market.a_share, Market.between.
  rewrite list_ascii_of_string_of_list_ascii, (chop_newline_digits _ H), H.
  rewrite andb_true_r.
  destruct (Nat.eqb_spec (List.length digits) 6) as [-> | Hne];
    [reflexivity|].
  destruct (Nat.leb_spec 6 (List.length digits)),
           (Nat.leb_spec (List.length digits) 6); cbn; try reflexivity; lia.
Qed.

Lemma a_share_with_suffix (digits : list ascii) (suffix : string) :
  suffix = ".HK" \/ suffix = ".hk" ->
  Market.a_share (string_of_list_ascii digits ++ suffix) = false.
Proof.
  intros Hs. unfold Market.a_share.
  rewrite chars_app, list_ascii_of_string_of_list_ascii.
  assert (Hkeep : Market.chop_newline (digits ++ list_ascii_of_string suffix)
                  = (digits ++ list_ascii_of_string suffix)%list).
  { unfold Market.chop_newline. rewrite rev_app_distr.
    destruct Hs as [-> | ->]; reflexivity. }
  rewrite Hkeep, forallb_app.
  assert (Hno : forallb Market.is_digit (list_ascii_of_string suffix) = false)
    by (destruct Hs as [-> | ->]; reflexivity).
  rewrite Hno, andb_false_r. apply andb_false_r.
Qed.

Lemma hk_code_digits (digits : list ascii) :
  forallb Market.is_digit digits = true ->
  Market.hk_code (string_of_list_ascii digits)
  = Market.between 4 5 digits
  /\ Market.hk_code (string_of_list_ascii digits ++ ".HK")
     = Market.between 4 5 digits.
Proof.
  intros H. unfold Market.hk_code. split.
  - rewrite list_ascii_of_string_of_list_ascii, (chop_newline_digits _ H),
      (chop_hk_digits _ H), H. apply andb_true_r.
  - rewrite chars_app, list_ascii_of_string_of_list_ascii.
    change (list_ascii_of_string ".HK") with ["."; "H"; "K"]%char.
    rewrite chop_newline_hk, chop_hk_suffix, H. apply andb_true_r.
Qed.

Lemma upper_hk_suffix (digits : list ascii) (suffix : string) :
  forallb Market.is_digit digits = true ->
  suffix = ".HK" \/ suffix = ".hk" ->
  Py.upper (string_of_list_ascii digits ++ suffix)
  = string_of_list_ascii digits ++ ".HK".
Proof.
  intros H Hs. unfold Py.upper. rewrite map_string_app.
  fold (Py.upper (string_of_list_ascii digits)).
  rewrite (upper_digits _ H). destruct Hs as [-> | ->]; reflexivity.
Qed.

(** X23.  On a symbol made of ASCII digits only, [_detect_market_type]
    goes by the length alone: six digits are ["A股"], four or five digits
    are ["港股"], every other length falls through to the default ["美股"].
    With a [".HK"] suffix in either case, four or five digits are ["港股"]
    and every other number of digits, six included, is the default
    ["美股"]. *)
Theorem market_type_of_numeric_codes :
  forall (digits : list ascii) (suffix : string),
    forallb Market.is_digit digits = true ->
    suffix = ".HK" \/ suffix = ".hk" ->
    let code := string_of_list_ascii digits in
    let n := List.length digits in
    _detect_market_type code
    = (if Nat.eqb n 6 then "A股"
       else if (Nat.eqb n 4 || Nat.eqb n 5)%bool then "港股"
       else "美股")
    /\ _detect_market_type (code ++ suffix)
       = (if (Nat.eqb n 4 || Nat.eqb n 5)%bool then "港股" else "美股").
Proof.
  intros digits suffix H Hs code n.
  assert (Hbetween : Market.between 4 5 digits
                     = (Nat.eqb n 4 || Nat.eqb n 5)%bool).
  { unfold Market.between. fold n.
    destruct (Nat.leb_spec 4 n), (Nat.leb_spec n 5),
             (Nat.eqb_spec n 4), (Nat.eqb_spec n 5);
      cbn; try reflexivity; lia. }
  destruct (hk_code_digits digits H) as [Hhk Hhk'].
  unfold _detect_market_type. split.
  - subst code. rewrite (upper_digits _ H), (us_ticker_digits _ H),
      (a_share_digits _ H), Hhk, Hbetween. fold n.
    destruct (Nat.eqb n 6), (Nat.eqb n 4 || Nat.eqb n 5)%bool; reflexivity.
  - subst code. rewrite (upper_hk_suffix _ _ H Hs),
      (us_ticker_digits_hk _ H), (a_share_with_suffix _ _ Hs), Hhk', Hbetween.
    destruct (Nat.eqb n 4 || Nat.eqb n 5)%bool; reflexivity.
Qed.

Lemma market_type_of_numeric_codes_witness :
  _detect_market_type "600519" = "A股"
  /\ _detect_market_type "600519.hk" = "美股".
Proof.
  exact (market_type_of_numeric_codes
           ["6"; "0"; "0"; "5"; "1"; "9"]%char ".hk"
           eq_refl (or_intror eq_refl)).
Defined.

(** ** [_apply_research_depth_config] and [_get_enabled_analysts] *)

(** X24.  For a research depth from 1 to 5 (3 when none is configured)
    the graph's settings depend on the depth alone, whatever
    ['online_tools'], ['max_debate_rounds'] and ['max_risk_discuss_rounds']
    the configuration gives: online tools are off at depth 1 only, there
    are [max(1, depth - 1)] debate rounds and [max(1, depth - 2)] risk
    rounds.  For any other depth the configured values, or their defaults
    [True], 2 and 1, are used as they are. *)
Theorem research_depth_overrides_configured_rounds :
  forall (tradingagents_config : TradingAgentsConfig),
    let research_depth :=
      get_or (conf_research_depth tradingagents_config) 3 in
    let config := graph_settings tradingagents_config in
    (1 <= research_depth <= 5 ->
       online_tools config = negb (research_depth =? 1)
       /\ max_debate_rounds config = Z.max 1 (research_depth - 1)
       /\ max_risk_discuss_rounds config = Z.max 1 (research_depth - 2))
    /\ (research_depth < 1 \/ 5 < research_depth ->
        online_tools config
        = get_or (conf_online_tools tradingagents_config) true
        /\ max_debate_rounds config
           = get_or (conf_max_debate_rounds tradingagents_config) 2
        /\ max_risk_discuss_rounds config
           = get_or (conf_max_risk_discuss_rounds tradingagents_config) 1).
Proof.
  intros tc research_depth config. subst config.
  unfold graph_settings. fold research_depth.
  unfold _apply_research_depth_config. split.
  - intros Hrange.
    assert (Hd : research_depth = 1 \/ research_depth = 2
                 \/ research_depth = 3 \/ research_depth = 4
                 \/ research_depth = 5) by lia.
    destruct Hd as [-> | [-> | [-> | [-> | ->]]]]; cbn; repeat split.
  - intros Hout.
    destruct (Z.eqb_spec research_depth 1); [lia|].
    destruct (Z.eqb_spec research_depth 2); [lia|].
    destruct (Z.eqb_spec research_depth 3); [lia|].
    destruct (Z.eqb_spec research_depth 4); [lia|].
    destruct (Z.eqb_spec research_depth 5); [lia|].
    repeat split.
Qed.

Lemma research_depth_overrides_configured_rounds_witness :
  online_tools (graph_settings depth_four) = true
  /\ max_debate_rounds (graph_settings depth_four) = 3
  /\ max_risk_discuss_rounds (graph_settings depth_four) = 2.
Proof.
  exact (proj1 (research_depth_overrides_configured_rounds depth_four)
               ltac:(cbn; lia)).
Defined.

Lemma enable_analyst_eq (enabled_analysts : list string)
  (item : string * option bool) :
  enable_analyst enabled_analysts item
  = (enabled_analysts
     ++ (if get_or (snd item) false
         then match analyst_of_team (fst item) with
              | Some analyst => [analyst]
              | None => []
              end
         else []))%list.
Proof.
  destruct item as [analyst_name analyst_enabled].
  unfold enable_analyst, analyst_of_team. cbn [fst snd].
  destruct (get_or analyst_enabled false); [|now rewrite app_nil_r].
  repeat (match goal with
          | |- context [String.eqb ?a ?b] => destruct (String.eqb a b)
          end; [reflexivity|]).
  now rewrite app_nil_r.
Qed.

Lemma enabled_analysts_fold (analyst_teams : list (string * option bool))
  (enabled_analysts : list string) :
  fold_left enable_analyst analyst_teams enabled_analysts
  = (enabled_analysts ++ known_enabled analyst_teams)%list.
Proof.
  revert enabled_analysts. unfold known_enabled.
  induction analyst_teams as [|item analyst_teams IH]; intros acc;
    cbn [fold_left flat_map].
  - now rewrite app_nil_r.
  - rewrite IH, enable_analyst_eq, <- app_assoc. reflexivity.
Qed.

Lemma get_enabled_analysts_eq (tradingagents_config : TradingAgentsConfig) :
  _get_enabled_analysts tradingagents_config
  = match get_or (conf_analyst_teams tradingagents_config) [] with
    | [] =>
        get_or (conf_selected_analysts tradingagents_config) default_analysts
    | analyst_teams =>
        match known_enabled analyst_teams with
        | [] => default_analysts
        | enabled_analysts => enabled_analysts
        end
    end.
Proof.
  unfold _get_enabled_analysts.
  destruct (get_or (conf_analyst_teams tradingagents_config) [])
    as [|item teams]; [reflexivity|].
  rewrite enabled_analysts_fold. reflexivity.
Qed.

Lemma known_enabled_names (analyst_teams : list (string * option bool)) :
  Forall (fun analyst =>
            In analyst ["market"; "fundamentals"; "news"; "social"])
         (known_enabled analyst_teams).
Proof.
  apply Forall_forall. intros analyst Hin.
  apply in_flat_map in Hin as ([name flag] & _ & Hin). cbn [fst snd] in Hin.
  destruct (get_or flag false); [|contradiction].
  unfold analyst_of_team in Hin.
  repeat (match type of Hin with
          | context [String.eqb ?a ?b] => destruct (String.eqb a b)
          end;
          [destruct Hin as [<- | []]; cbn; auto 6|]).
  contradiction.
Qed.

Lemma known_enabled_has (analyst_teams : list (string * option bool))
  (analyst_name analyst : string) :
  In (analyst_name, Some true) analyst_teams ->
  analyst_of_team analyst_name = Some analyst ->
  In analyst (known_enabled analyst_teams).
Proof.
  intros Hitem Hteam. apply in_flat_map.
  exists (analyst_name, Some true). split; [exact Hitem|].
  cbn [fst snd get_or]. rewrite Hteam. left. reflexivity.
Qed.

(** X25.  When ['analyst_teams'] has at least one entry,
    [_get_enabled_analysts] ignores ['selected_analysts'], never returns an
    empty list, returns only names among market, fundamentals, news and
    social, and includes the analyst of every known team that is enabled;
    teams it does not know are dropped.  An empty list is returned in one
    case only: no team entries and ['selected_analysts'] explicitly
    empty. *)
Theorem enabled_analysts_from_teams :
  forall (tradingagents_config : TradingAgentsConfig),
    let analyst_teams :=
      get_or (conf_analyst_teams tradingagents_config) [] in
    let analysts := _get_enabled_analysts tradingagents_config in
    (analyst_teams <> [] ->
       analysts <> []
       /\ Forall (fun analyst =>
                    In analyst ["market"; "fundamentals"; "news"; "social"])
                 analysts
       /\ (forall analyst_name analyst,
              In (analyst_name, Some true) analyst_teams ->
              analyst_of_team analyst_name = Some analyst ->
              In analyst analysts)
       /\ (forall selected,
              _get_enabled_analysts
                {| conf_online_tools :=
                     conf_online_tools tradingagents_config;
                   conf_max_debate_rounds :=
                     conf_max_debate_rounds tradingagents_config;
                   conf_max_risk_discuss_rounds :=
                     conf_max_risk_discuss_rounds tradingagents_config;
                   conf_research_depth :=
                     conf_research_depth tradingagents_config;
                   conf_analyst_teams :=
                     conf_analyst_teams tradingagents_config;
                   conf_selected_analysts := selected |}
              = analysts))
    /\ (analysts = [] <->
        analyst_teams = []
        /\ conf_selected_analysts tradingagents_config = Some []).
Proof.
  intros tc analyst_teams analysts. subst analysts analyst_teams.
  setoid_rewrite get_enabled_analysts_eq.
  cbn [conf_analyst_teams conf_selected_analysts].
  pose proof (known_enabled_names (get_or (conf_analyst_teams tc) []))
    as Hnames.
  pose proof (known_enabled_has (get_or (conf_analyst_teams tc) []))
    as Hhas.
  destruct (get_or (conf_analyst_teams tc) []) as [|item teams].
  - split; [congruence|].
    destruct (conf_selected_analysts tc) as [[|]|]; cbn [get_or]; split;
      try discriminate; try (intros [_ H]; discriminate H); auto.
  - destruct (known_enabled (item :: teams)) as [|a known].
    + split; [intros _ | split; [discriminate | intros [H _]; discriminate H]].
      split; [discriminate|].
      split; [unfold default_analysts;
              repeat (apply Forall_cons; [cbn; auto 6|]); apply Forall_nil|].
      split; [|reflexivity].
      intros name analyst Hitem Hteam. destruct (Hhas name analyst Hitem Hteam).
    + split; [intros _ | split; [discriminate | intros [H _]; discriminate H]].
      split; [discriminate|]. split; [exact Hnames|].
      split; [exact Hhas | reflexivity].
Qed.

Lemma enabled_analysts_from_teams_witness :
  _get_enabled_analysts depth_four = ["news"; "social"]
  /\ _get_enabled_analysts depth_four <> [].
Proof.
  split; [reflexivity|].
  exact (proj1 (proj1 (enabled_analysts_from_teams depth_four)
                      ltac:(discriminate))).
Defined.

(** ** The replacements of [_markdown_to_html] *)

Lemma prefix_self (k y : string) : String.prefix k (k ++ y) = true.
Proof.
  induction k as [|c k IH]; [apply prefix_empty|].
  cbn. destruct (ascii_dec c c); [exact IH | congruence].
Qed.

Lemma prefix_split (k h : string) :
  String.prefix k h = true -> exists y, h = k ++ y.
Proof.
  revert h. induction k as [|c k IH]; intros h H.
  - exists h. reflexivity.
  - destruct h as [|d h]; [discriminate H|]. cbn in H.
    destruct (ascii_dec c d) as [<-|]; [|discriminate H].
    destruct (IH h H) as [y ->]. exists y. reflexivity.
Qed.

Lemma str_in_split (k h : string) :
  Py.str_in k h = true -> exists x y, h = x ++ k ++ y.
Proof.
  induction h as [|c h IH]; cbn [Py.str_in]; intros H;
    apply orb_true_iff in H as [H|H].
  - destruct (prefix_split _ _ H) as [y Hy]. exists EmptyString, y. exact Hy.
  - discriminate H.
  - destruct (prefix_split _ _ H) as [y Hy]. exists EmptyString, y. exact Hy.
  - destruct (IH H) as (x & y & ->). exists (String c x), y. reflexivity.
Qed.

Lemma str_in_self (k y : string) : Py.str_in k (k ++ y) = true.
Proof.
  destruct (k ++ y) eqn:E; cbn [Py.str_in]; rewrite <- E, prefix_self;
    reflexivity.
Qed.

(** A text without [k] has no occurrence of a text that contains [k]. *)
Lemma str_in_sub (k p q hay : string) :
  Py.str_in k hay = false -> Py.str_in (p ++ k ++ q) hay = false.
Proof.
  intros Hk. destruct (Py.str_in (p ++ k ++ q) hay) eqn:H; [|reflexivity].
  apply str_in_split in H as (x & y & ->).
  rewrite <- Hk. symmetry.
  rewrite <- (append_assoc x), !append_assoc, <- (append_assoc x p).
  apply str_in_app_r. apply str_in_self.
Qed.

(** Replacing a text that does not occur changes nothing. *)
Lemma replace_absent (old new s : string) :
  Py.str_in old s = false -> str_replace old new s = s.
Proof.
  destruct old as [|a old].
  { intros H. destruct s; discriminate H. }
  unfold str_replace. induction s as [|c s IH]; [reflexivity|].
  cbn [Py.str_in]. intros H. apply orb_false_iff in H as [Hp Hs].
  cbn [replace_from]. rewrite Hp, (IH Hs). reflexivity.
Qed.

Section TwoCharacters.

(** [old] is the two characters [a b]; [new] starts with a character other
    than [b] and has no [a] in it. *)
Variables a b n0 : ascii.
Variable new' : string.

Local Abbreviation old := (String a (String b EmptyString)).
Local Abbreviation new := (String n0 new').

Hypothesis starts_otherwise : n0 <> b.
Hypothesis without_a :
  all_chars (fun c => negb (Ascii.eqb c a)) new = true.

Lemma replace_match (s : string) :
  replace_from old new 0 (String a (String b s))
  = new ++ replace_from old new 0 s.
Proof.
  cbn [replace_from String.prefix String.length Nat.sub].
  destruct (ascii_dec a a); [|congruence].
  destruct (ascii_dec b b); [|congruence].
  rewrite prefix_empty. reflexivity.
Qed.

Lemma replace_head (s t : string) :
  replace_from old new 0 s = String b t -> exists s', s = String b s'.
Proof.
  destruct s as [|c s]; [discriminate|].
  cbn [replace_from].
  destruct (String.prefix old (String c s)).
  - cbn [String.append]. intros H. injection H as H _. contradiction.
  - intros H. injection H as -> _. exists s. reflexivity.
Qed.

Lemma str_in_skip (p t : string) :
  all_chars (fun c => negb (Ascii.eqb c a)) p = true ->
  Py.str_in old (p ++ t) = Py.str_in old t.
Proof.
  induction p as [|c p IH]; [reflexivity|].
  cbn [all_chars]. intros H. apply andb_true_iff in H as [Hc Hp].
  change (String c p ++ t) with (String c (p ++ t)).
  cbn [Py.str_in String.prefix]. rewrite (IH Hp).
  destruct (ascii_dec a c) as [<-|]; [|reflexivity].
  rewrite Ascii.eqb_refl in Hc. discriminate Hc.
Qed.

Lemma replaced_everywhere (n : nat) :
  forall s, (String.length s <= n)%nat ->
            Py.str_in old (replace_from old new 0 s) = false.
Proof.
  induction n as [|n IH]; intros s Hlen.
  - destruct s; [reflexivity | cbn in Hlen; lia].
  - destruct s as [|c s]; [reflexivity|].
    destruct (String.prefix old (String c s)) eqn:Hp.
    + apply prefix_split in Hp as [y Hy]. cbn [String.append] in Hy.
      injection Hy as -> ->. rewrite replace_match.
      rewrite (str_in_skip new _ without_a).
      destruct n as [|n]; [cbn in Hlen; lia|].
      assert (Htail : Py.str_in old (replace_from old new 0 y) = false).
      { destruct y as [|d y]; [reflexivity|].
        apply IH. cbn [String.length] in Hlen |- *. lia. }
      exact Htail.
    + cbn [replace_from]. rewrite Hp. cbn [Py.str_in].
      rewrite (IH s) by (cbn [String.length] in Hlen; lia).
      rewrite orb_false_r.
      destruct (replace_from old new 0 s) as [|d t] eqn:Hr.
      { cbn [String.prefix]. destruct (ascii_dec a c); reflexivity. }
      cbn [String.prefix].
      destruct (ascii_dec a c) as [<-|]; [|reflexivity].
      destruct (ascii_dec b d) as [<-|]; [|reflexivity].
      exfalso. destruct (replace_head s t Hr) as [s' ->].
      cbn [String.prefix] in Hp.
      destruct (ascii_dec a a); [|congruence].
      destruct (ascii_dec b b); [|congruence].
      rewrite prefix_empty in Hp. discriminate Hp.
Qed.

Lemma replaced_all (s : string) :
  Py.str_in old (str_replace old new s) = false.
Proof.
  exact (replaced_everywhere (String.length s) s (le_n _)).
Qed.

End TwoCharacters.

(** X28.  Of the ten replacements at the head of [_markdown_to_html] only
    two ever apply: ['# '] to ['<h1>'] and ['**'] to ['<strong>'].  The
    first leaves no ['# '] behind, so that none of the other heading
    patterns, all of which contain it, is found; the second leaves no
    ['**'] for the replacement by ['</strong>'].  The stage therefore never
    writes a closing tag, nor any of ['<h2>'], ['<h3>'], ['<h4>']. *)
Theorem markdown_replacements_are_two :
  forall markdown_text : string,
    markdown_replacements markdown_text
    = str_replace "**" "<strong>" (str_replace "# " "<h1>" markdown_text)
    /\ Py.str_in "**" (markdown_replacements markdown_text) = false.
Proof.
  intros s. unfold markdown_replacements. cbv zeta.
  assert (Hh1 : Py.str_in "# " (str_replace "# " "<h1>" s) = false)
    by (apply replaced_all; [discriminate | reflexivity]).
  set (t := str_replace "# " "<h1>" s) in *.
  rewrite (replace_absent (nl ++ "# ") _ t)
    by exact (str_in_sub "# " nl EmptyString t Hh1).
  rewrite (replace_absent "## " _ t)
    by exact (str_in_sub "# " "#" EmptyString t Hh1).
  rewrite (replace_absent (nl ++ "## ") _ t)
    by exact (str_in_sub "# " (nl ++ "#") EmptyString t Hh1).
  rewrite (replace_absent "### " _ t)
    by exact (str_in_sub "# " "##" EmptyString t Hh1).
  rewrite (replace_absent (nl ++ "### ") _ t)
    by exact (str_in_sub "# " (nl ++ "##") EmptyString t Hh1).
  rewrite (replace_absent "#### " _ t)
    by exact (str_in_sub "# " "###" EmptyString t Hh1).
  rewrite (replace_absent (nl ++ "#### ") _ t)
    by exact (str_in_sub "# " (nl ++ "###") EmptyString t Hh1).
  assert (Hbold : Py.str_in "**" (str_replace "**" "<strong>" t) = false)
    by (apply replaced_all; [discriminate | reflexivity]).
  rewrite (replace_absent "**" "</strong>" _ Hbold).
  split; [reflexivity | exact Hbold].
Qed.
